(** * The file-backed storage service of bplib (store/file.c)

    A shallow embedding of [store/file.c]: the per-handle record
    [file_store_t], the stdio calls behind the [BP_FILE_*] macros, the heap
    calls [malloc]/[free], the lock calls of the OS layer, and the exported
    operations [bplib_store_file_create], [_enqueue], [_dequeue],
    [_retrieve], [_release], [_relinquish] and [_getcount], followed by the
    properties of the storage service stated in the specification. *)

From Stdlib Require Import ZArith Lia.
From stdpp Require Import base option list gmap strings.

Local Open Scope Z_scope.

(** ** Machine integers

    The target is an LP64 machine: [int] and [uint32_t] have 32 bits,
    [unsigned long], [uint64_t], [size_t] and pointers have 64 bits.
    Values are kept in [Z] and every C conversion is written out. *)

Definition u8 (z : Z) : Z := z mod 2 ^ 8.
Definition u32 (z : Z) : Z := z mod 2 ^ 32.
Definition u64 (z : Z) : Z := z mod 2 ^ 64.
(** conversion to (signed) [int] *)
Definition i32 (z : Z) : Z := (z + 2 ^ 31) mod 2 ^ 32 - 2 ^ 31.

(** A byte is a [Z] in [0, 256). *)
Abbreviation byte := Z (only parsing).

Definition len {A} (l : list A) : Z := Z.of_nat (length l).

(** Little-endian image of the low [n] bytes of [z], and its inverse. *)
Fixpoint le_bytes (n : nat) (z : Z) : list byte :=
  match n with
  | O => []
  | S n' => z mod 256 :: le_bytes n' (z / 256)
  end.

Fixpoint le_value (bs : list byte) : Z :=
  match bs with
  | [] => 0
  | b :: bs' => b + 256 * le_value bs'
  end.

(** ** Constants and macros of file.c *)

Definition FILE_DATA_COUNT : Z := 256.
Definition FILE_MEM_LOCKED : Z := 1.
Definition FILE_MEM_AVAIABLE : Z := 0.
Definition FILE_DEFAULT_CACHE_SIZE : Z := 16384.
Definition FILE_DEFAULT_ROOT : string := ".pfile".
Definition FILE_MAX_FILENAME : Z := 256.
Definition FILE_MAX_STORES : nat := 60.
Definition FILE_FLUSH_DEFAULT : bool := true.

(** [BP_SID_VACANT] and [BP_INVALID_HANDLE] come from bplib.h, which is not
    part of the sources at hand.
    Modelled from the spec: "sid = 0 is reserved as vacant"; an invalid
    handle is a negative [int]. *)
Definition BP_SID_VACANT : Z := 0.
Definition BP_INVALID_HANDLE : Z := -1.

Definition GET_DATAID (sid : Z) : Z := u32 (u64 sid - 1).
Definition GET_FILEID (did : Z) : Z := u32 (Z.shiftr did 8).
Definition GET_DATAOFFSET (did : Z) : Z := u8 (Z.land did 255).

(** Return codes of bplib.h (not part of the sources at hand).
    Modelled from the spec: "Error codes surfaced: OutOfMemory, FailedStore,
    FailedOS, Timeout, InvalidHandle, Success"; [BP_ERROR] is the generic
    failure that [bplib_os_waiton] reports. *)
Inductive bp_status : Set :=
| BP_SUCCESS
| BP_TIMEOUT
| BP_ERROR
| BP_FAILEDOS
| BP_FAILEDMEM
| BP_FAILEDSTORE.

Global Instance bp_status_eq_dec : EqDecision bp_status.
Proof. solve_decision. Defined.

(** ** The object header

    Modelled from the spec: bplib.h, which declares [bp_object_hdr_t], is
    not part of the sources at hand; the layout is the one of the on-disk
    format, "object_header = { handle:i32, sid:u64, size:u32 }",
    little-endian, no padding. *)
Definition HDR_SIZE : Z := 16.

Record bp_object_hdr_t := {
  hdr_handle : Z;
  hdr_sid : Z;
  hdr_size : Z;
}.

Definition hdr_bytes (h : bp_object_hdr_t) : list byte :=
  le_bytes 4 (hdr_handle h) ++ le_bytes 8 (hdr_sid h) ++ le_bytes 4 (hdr_size h).

(** Views of an object held in memory as raw bytes. *)
Definition object_handle (obj : list byte) : Z := i32 (le_value (take 4 obj)).
Definition object_sid (obj : list byte) : Z := le_value (take 8 (drop 4 obj)).
Definition object_size_field (obj : list byte) : Z := le_value (take 4 (drop 12 obj)).
Definition object_payload (obj : list byte) : list byte := drop 16 obj.

(** [hdr->sid = sid] on an object held as raw bytes (the store on an object
    of fewer than 12 bytes is out of bounds in C; here the bytes beyond the
    end are not written). *)
Definition stamp_sid (sid : Z) (obj : list byte) : list byte :=
  take (length obj) (take 4 obj ++ le_bytes 8 sid ++ drop 12 obj).

(** ** Files *)

Inductive file_ext : Set := Dat | Tbl.

Global Instance file_ext_eq_dec : EqDecision file_ext.
Proof. solve_decision. Defined.

Global Instance file_ext_countable : Countable file_ext.
Proof.
  refine (inj_countable' (λ e, match e with Dat => true | Tbl => false end)
                         (λ b : bool, if b then Dat else Tbl) _).
  by intros [].
Defined.

(** The name built by [bplib_os_format] from "%s/%d_%u.dat" (or ".tbl"):
    root path, service id as [int], file id as [unsigned]. *)
Definition fname : Set := (string * Z * Z * file_ext)%type.

Definition dat_name (service_id : Z) (file_root : string) (file_id : Z) : fname :=
  (file_root, service_id, file_id, Dat).
Definition tbl_name (service_id : Z) (file_root : string) (file_id : Z) : fname :=
  (file_root, service_id, file_id, Tbl).

Inductive fmode : Set :=
| ModeRead     (* "rb" *)
| ModeAppend   (* "ab" *)
| ModeWrite.   (* "wb" *)

Global Instance fmode_eq_dec : EqDecision fmode.
Proof. solve_decision. Defined.

(** An open [FILE] object. *)
Record stream := {
  st_name : fname;
  st_mode : fmode;
  st_pos : Z;
}.

(** A [BP_FILE] is a pointer to a [FILE]; [None] is [BP_FILE_NULL]. *)
Abbreviation BP_FILE := (option positive) (only parsing).

(** A heap pointer; [None] is [NULL]. *)
Abbreviation ptr := (option positive) (only parsing).

Inductive whence : Set := SEEK_SET | SEEK_CUR.

(** ** The store record *)

Record data_cache_t := {
  mem_ptr : ptr;
  mem_locked : Z;       (* 0: available, 1: locked *)
  mem_data_id : Z;
}.

Global Instance data_cache_inhabited : Inhabited data_cache_t :=
  populate {| mem_ptr := None; mem_locked := 0; mem_data_id := 0 |}.

Record free_table_t := {
  freed : list byte;    (* bool freed[FILE_DATA_COUNT] *)
  free_cnt : Z;
}.

Record file_store_t := {
  in_use : bool;
  lock : Z;
  service_id : Z;
  file_root : option string;
  data_count : Z;

  write_fd : BP_FILE;
  write_data_id : Z;
  write_error : bool;

  read_fd : BP_FILE;
  read_data_id : Z;
  read_error : bool;

  retrieve_fd : BP_FILE;
  retrieve_data_id : Z;

  relinquish_fd : BP_FILE;
  relinquish_data_id : Z;
  relinquish_table : free_table_t;

  data_cache : option (list data_cache_t);
  cache_size : Z;
}.

Definition cache (fs : file_store_t) : list data_cache_t := default [] (data_cache fs).

(** Field updates ([fs->field = v]). *)
Definition set_in_use v fs := {| in_use := v; lock := lock fs; service_id := service_id fs; file_root := file_root fs; data_count := data_count fs; write_fd := write_fd fs; write_data_id := write_data_id fs; write_error := write_error fs; read_fd := read_fd fs; read_data_id := read_data_id fs; read_error := read_error fs; retrieve_fd := retrieve_fd fs; retrieve_data_id := retrieve_data_id fs; relinquish_fd := relinquish_fd fs; relinquish_data_id := relinquish_data_id fs; relinquish_table := relinquish_table fs; data_cache := data_cache fs; cache_size := cache_size fs |}.
Definition set_lock v fs := {| in_use := in_use fs; lock := v; service_id := service_id fs; file_root := file_root fs; data_count := data_count fs; write_fd := write_fd fs; write_data_id := write_data_id fs; write_error := write_error fs; read_fd := read_fd fs; read_data_id := read_data_id fs; read_error := read_error fs; retrieve_fd := retrieve_fd fs; retrieve_data_id := retrieve_data_id fs; relinquish_fd := relinquish_fd fs; relinquish_data_id := relinquish_data_id fs; relinquish_table := relinquish_table fs; data_cache := data_cache fs; cache_size := cache_size fs |}.
Definition set_file_root v fs := {| in_use := in_use fs; lock := lock fs; service_id := service_id fs; file_root := v; data_count := data_count fs; write_fd := write_fd fs; write_data_id := write_data_id fs; write_error := write_error fs; read_fd := read_fd fs; read_data_id := read_data_id fs; read_error := read_error fs; retrieve_fd := retrieve_fd fs; retrieve_data_id := retrieve_data_id fs; relinquish_fd := relinquish_fd fs; relinquish_data_id := relinquish_data_id fs; relinquish_table := relinquish_table fs; data_cache := data_cache fs; cache_size := cache_size fs |}.
Definition set_data_count v fs := {| in_use := in_use fs; lock := lock fs; service_id := service_id fs; file_root := file_root fs; data_count := v; write_fd := write_fd fs; write_data_id := write_data_id fs; write_error := write_error fs; read_fd := read_fd fs; read_data_id := read_data_id fs; read_error := read_error fs; retrieve_fd := retrieve_fd fs; retrieve_data_id := retrieve_data_id fs; relinquish_fd := relinquish_fd fs; relinquish_data_id := relinquish_data_id fs; relinquish_table := relinquish_table fs; data_cache := data_cache fs; cache_size := cache_size fs |}.
Definition set_write_fd v fs := {| in_use := in_use fs; lock := lock fs; service_id := service_id fs; file_root := file_root fs; data_count := data_count fs; write_fd := v; write_data_id := write_data_id fs; write_error := write_error fs; read_fd := read_fd fs; read_data_id := read_data_id fs; read_error := read_error fs; retrieve_fd := retrieve_fd fs; retrieve_data_id := retrieve_data_id fs; relinquish_fd := relinquish_fd fs; relinquish_data_id := relinquish_data_id fs; relinquish_table := relinquish_table fs; data_cache := data_cache fs; cache_size := cache_size fs |}.
Definition set_write_data_id v fs := {| in_use := in_use fs; lock := lock fs; service_id := service_id fs; file_root := file_root fs; data_count := data_count fs; write_fd := write_fd fs; write_data_id := v; write_error := write_error fs; read_fd := read_fd fs; read_data_id := read_data_id fs; read_error := read_error fs; retrieve_fd := retrieve_fd fs; retrieve_data_id := retrieve_data_id fs; relinquish_fd := relinquish_fd fs; relinquish_data_id := relinquish_data_id fs; relinquish_table := relinquish_table fs; data_cache := data_cache fs; cache_size := cache_size fs |}.
Definition set_write_error v fs := {| in_use := in_use fs; lock := lock fs; service_id := service_id fs; file_root := file_root fs; data_count := data_count fs; write_fd := write_fd fs; write_data_id := write_data_id fs; write_error := v; read_fd := read_fd fs; read_data_id := read_data_id fs; read_error := read_error fs; retrieve_fd := retrieve_fd fs; retrieve_data_id := retrieve_data_id fs; relinquish_fd := relinquish_fd fs; relinquish_data_id := relinquish_data_id fs; relinquish_table := relinquish_table fs; data_cache := data_cache fs; cache_size := cache_size fs |}.
Definition set_read_fd v fs := {| in_use := in_use fs; lock := lock fs; service_id := service_id fs; file_root := file_root fs; data_count := data_count fs; write_fd := write_fd fs; write_data_id := write_data_id fs; write_error := write_error fs; read_fd := v; read_data_id := read_data_id fs; read_error := read_error fs; retrieve_fd := retrieve_fd fs; retrieve_data_id := retrieve_data_id fs; relinquish_fd := relinquish_fd fs; relinquish_data_id := relinquish_data_id fs; relinquish_table := relinquish_table fs; data_cache := data_cache fs; cache_size := cache_size fs |}.
Definition set_read_data_id v fs := {| in_use := in_use fs; lock := lock fs; service_id := service_id fs; file_root := file_root fs; data_count := data_count fs; write_fd := write_fd fs; write_data_id := write_data_id fs; write_error := write_error fs; read_fd := read_fd fs; read_data_id := v; read_error := read_error fs; retrieve_fd := retrieve_fd fs; retrieve_data_id := retrieve_data_id fs; relinquish_fd := relinquish_fd fs; relinquish_data_id := relinquish_data_id fs; relinquish_table := relinquish_table fs; data_cache := data_cache fs; cache_size := cache_size fs |}.
Definition set_read_error v fs := {| in_use := in_use fs; lock := lock fs; service_id := service_id fs; file_root := file_root fs; data_count := data_count fs; write_fd := write_fd fs; write_data_id := write_data_id fs; write_error := write_error fs; read_fd := read_fd fs; read_data_id := read_data_id fs; read_error := v; retrieve_fd := retrieve_fd fs; retrieve_data_id := retrieve_data_id fs; relinquish_fd := relinquish_fd fs; relinquish_data_id := relinquish_data_id fs; relinquish_table := relinquish_table fs; data_cache := data_cache fs; cache_size := cache_size fs |}.
Definition set_retrieve_fd v fs := {| in_use := in_use fs; lock := lock fs; service_id := service_id fs; file_root := file_root fs; data_count := data_count fs; write_fd := write_fd fs; write_data_id := write_data_id fs; write_error := write_error fs; read_fd := read_fd fs; read_data_id := read_data_id fs; read_error := read_error fs; retrieve_fd := v; retrieve_data_id := retrieve_data_id fs; relinquish_fd := relinquish_fd fs; relinquish_data_id := relinquish_data_id fs; relinquish_table := relinquish_table fs; data_cache := data_cache fs; cache_size := cache_size fs |}.
Definition set_retrieve_data_id v fs := {| in_use := in_use fs; lock := lock fs; service_id := service_id fs; file_root := file_root fs; data_count := data_count fs; write_fd := write_fd fs; write_data_id := write_data_id fs; write_error := write_error fs; read_fd := read_fd fs; read_data_id := read_data_id fs; read_error := read_error fs; retrieve_fd := retrieve_fd fs; retrieve_data_id := v; relinquish_fd := relinquish_fd fs; relinquish_data_id := relinquish_data_id fs; relinquish_table := relinquish_table fs; data_cache := data_cache fs; cache_size := cache_size fs |}.
Definition set_relinquish_fd v fs := {| in_use := in_use fs; lock := lock fs; service_id := service_id fs; file_root := file_root fs; data_count := data_count fs; write_fd := write_fd fs; write_data_id := write_data_id fs; write_error := write_error fs; read_fd := read_fd fs; read_data_id := read_data_id fs; read_error := read_error fs; retrieve_fd := retrieve_fd fs; retrieve_data_id := retrieve_data_id fs; relinquish_fd := v; relinquish_data_id := relinquish_data_id fs; relinquish_table := relinquish_table fs; data_cache := data_cache fs; cache_size := cache_size fs |}.
Definition set_relinquish_data_id v fs := {| in_use := in_use fs; lock := lock fs; service_id := service_id fs; file_root := file_root fs; data_count := data_count fs; write_fd := write_fd fs; write_data_id := write_data_id fs; write_error := write_error fs; read_fd := read_fd fs; read_data_id := read_data_id fs; read_error := read_error fs; retrieve_fd := retrieve_fd fs; retrieve_data_id := retrieve_data_id fs; relinquish_fd := relinquish_fd fs; relinquish_data_id := v; relinquish_table := relinquish_table fs; data_cache := data_cache fs; cache_size := cache_size fs |}.
Definition set_relinquish_table v fs := {| in_use := in_use fs; lock := lock fs; service_id := service_id fs; file_root := file_root fs; data_count := data_count fs; write_fd := write_fd fs; write_data_id := write_data_id fs; write_error := write_error fs; read_fd := read_fd fs; read_data_id := read_data_id fs; read_error := read_error fs; retrieve_fd := retrieve_fd fs; retrieve_data_id := retrieve_data_id fs; relinquish_fd := relinquish_fd fs; relinquish_data_id := relinquish_data_id fs; relinquish_table := v; data_cache := data_cache fs; cache_size := cache_size fs |}.
Definition set_data_cache v fs := {| in_use := in_use fs; lock := lock fs; service_id := service_id fs; file_root := file_root fs; data_count := data_count fs; write_fd := write_fd fs; write_data_id := write_data_id fs; write_error := write_error fs; read_fd := read_fd fs; read_data_id := read_data_id fs; read_error := read_error fs; retrieve_fd := retrieve_fd fs; retrieve_data_id := retrieve_data_id fs; relinquish_fd := relinquish_fd fs; relinquish_data_id := relinquish_data_id fs; relinquish_table := relinquish_table fs; data_cache := v; cache_size := cache_size fs |}.
Definition set_cache_size v fs := {| in_use := in_use fs; lock := lock fs; service_id := service_id fs; file_root := file_root fs; data_count := data_count fs; write_fd := write_fd fs; write_data_id := write_data_id fs; write_error := write_error fs; read_fd := read_fd fs; read_data_id := read_data_id fs; read_error := read_error fs; retrieve_fd := retrieve_fd fs; retrieve_data_id := retrieve_data_id fs; relinquish_fd := relinquish_fd fs; relinquish_data_id := relinquish_data_id fs; relinquish_table := relinquish_table fs; data_cache := data_cache fs; cache_size := v |}.
Definition set_service_id v fs := {| in_use := in_use fs; lock := lock fs; service_id := v; file_root := file_root fs; data_count := data_count fs; write_fd := write_fd fs; write_data_id := write_data_id fs; write_error := write_error fs; read_fd := read_fd fs; read_data_id := read_data_id fs; read_error := read_error fs; retrieve_fd := retrieve_fd fs; retrieve_data_id := retrieve_data_id fs; relinquish_fd := relinquish_fd fs; relinquish_data_id := relinquish_data_id fs; relinquish_table := relinquish_table fs; data_cache := data_cache fs; cache_size := cache_size fs |}.

(** [fs->data_cache[i]] and [fs->data_cache[i] = e]. *)
Definition cache_at (fs : file_store_t) (i : Z) : data_cache_t := cache fs !!! Z.to_nat i.
Definition set_cache_at (i : Z) (e : data_cache_t) (fs : file_store_t) : file_store_t :=
  set_data_cache (Some (<[Z.to_nat i := e]> (cache fs))) fs.

(** ** The environment of the store

    [w_fs] is the element [file_stores[handle]] the operation works on
    (the pointer [fs]), [e_disk] the files by name, [e_streams] the open
    [FILE] objects, [e_heap] the blocks handed out by [malloc], [e_object]
    the caller's variable that the [object] argument points to.  [e_io]
    and [e_wait] are the outcomes the environment has in store for the
    coming stdio calls and the coming [bplib_os_waiton] calls (an empty
    list: every call behaves normally, every wait times out).  [e_log]
    records the calls made to the OS layer, to stdio and to the heap. *)

Inductive io_resp : Set :=
| IoOk                 (* the call behaves normally *)
| IoFail               (* the call fails *)
| IoShort (n : Z).     (* a number the environment chooses: fread and fwrite
                          transfer at most n bytes *)

(** The two blocks that create obtains with [malloc] for the fields
    [file_root] and [data_cache]; the store record holds their contents. *)
Inductive store_block : Set := RootPath | DataCache.

Inductive event : Set :=
| EvLock (l : Z)
| EvUnlock (l : Z)
| EvSignal (l : Z)
| EvWaiton (l : Z) (timeout : Z)
| EvDestroyLock (l : Z)
| EvOpen (n : fname) (m : fmode)
| EvClose (fd : positive)
| EvSeek (fd : positive)
| EvRead (fd : positive) (requested got : Z)
| EvWrite (fd : positive) (requested put : Z)
| EvFlush (fd : positive)
| EvRemove (n : fname)
| EvMalloc (p : positive) (size : Z)
| EvFree (p : positive)
| EvFreeBlock (b : store_block)
| EvLog (e : bp_status).

(** Everything but the store table. *)
Record env := {
  e_disk : gmap fname (list byte);
  e_streams : gmap positive stream;
  e_heap : gmap positive (list byte);
  e_object : ptr;
  e_io : list io_resp;
  e_wait : list bp_status;
  e_log : list event;
}.

Record world := {
  w_fs : file_store_t;
  w_env : env;
}.

Abbreviation w_disk w := (e_disk (w_env w)).
Abbreviation w_streams w := (e_streams (w_env w)).
Abbreviation w_heap w := (e_heap (w_env w)).
Abbreviation w_object w := (e_object (w_env w)).
Abbreviation w_io w := (e_io (w_env w)).
Abbreviation w_wait w := (e_wait (w_env w)).
Abbreviation w_log w := (e_log (w_env w)).

Definition with_fs (f : file_store_t → file_store_t) (w : world) : world :=
  {| w_fs := f (w_fs w); w_env := w_env w |}.
Definition with_disk (f : gmap fname (list byte) → gmap fname (list byte)) (w : world) : world :=
  {| w_fs := w_fs w;
     w_env := {| e_disk := f (w_disk w); e_streams := w_streams w; e_heap := w_heap w;
                 e_object := w_object w; e_io := w_io w; e_wait := w_wait w; e_log := w_log w |} |}.
Definition with_streams (f : gmap positive stream → gmap positive stream) (w : world) : world :=
  {| w_fs := w_fs w;
     w_env := {| e_disk := w_disk w; e_streams := f (w_streams w); e_heap := w_heap w;
                 e_object := w_object w; e_io := w_io w; e_wait := w_wait w; e_log := w_log w |} |}.
Definition with_heap (f : gmap positive (list byte) → gmap positive (list byte)) (w : world) : world :=
  {| w_fs := w_fs w;
     w_env := {| e_disk := w_disk w; e_streams := w_streams w; e_heap := f (w_heap w);
                 e_object := w_object w; e_io := w_io w; e_wait := w_wait w; e_log := w_log w |} |}.
Definition with_object (p : ptr) (w : world) : world :=
  {| w_fs := w_fs w;
     w_env := {| e_disk := w_disk w; e_streams := w_streams w; e_heap := w_heap w;
                 e_object := p; e_io := w_io w; e_wait := w_wait w; e_log := w_log w |} |}.
Definition with_io (l : list io_resp) (w : world) : world :=
  {| w_fs := w_fs w;
     w_env := {| e_disk := w_disk w; e_streams := w_streams w; e_heap := w_heap w;
                 e_object := w_object w; e_io := l; e_wait := w_wait w; e_log := w_log w |} |}.
Definition with_wait (l : list bp_status) (w : world) : world :=
  {| w_fs := w_fs w;
     w_env := {| e_disk := w_disk w; e_streams := w_streams w; e_heap := w_heap w;
                 e_object := w_object w; e_io := w_io w; e_wait := l; e_log := w_log w |} |}.
Definition with_log (l : list event) (w : world) : world :=
  {| w_fs := w_fs w;
     w_env := {| e_disk := w_disk w; e_streams := w_streams w; e_heap := w_heap w;
                 e_object := w_object w; e_io := w_io w; e_wait := w_wait w; e_log := l |} |}.

(** ** Computations with early return

    A C function body either runs to its end with a value ([Val]) or
    leaves through a [return] statement ([Ret]). *)

Inductive res (A : Type) : Type :=
| Val (a : A)
| Ret (e : bp_status).
Arguments Val {A} a.
Arguments Ret {A} e.

Definition M (A : Type) : Type := world → world * res A.

Global Instance M_ret : MRet M := λ A a w, (w, Val a).
Global Instance M_bind : MBind M := λ A B f m w,
  match m w with
  | (w', Val a) => f a w'
  | (w', Ret e) => (w', Ret e)
  end.

Global Typeclasses Opaque M.

(** A step given by its effect on the environment. *)
Definition act {A} (f : world → world * res A) : M A := f.

Definition return_ {A} (e : bp_status) : M A := λ w, (w, Ret e).
Definition get {A} (f : file_store_t → A) : M A := λ w, (w, Val (f (w_fs w))).
Definition put (f : file_store_t → file_store_t) : M unit := λ w, (with_fs f w, Val tt).
Definition emit (e : event) : M unit := λ w, (with_log (w_log w ++ [e]) w, Val tt).

(** The result of a whole function call. *)
Definition call (m : M bp_status) (w : world) : world * bp_status :=
  match m w with
  | (w', Val e) => (w', e)
  | (w', Ret e) => (w', e)
  end.

(** The next outcome the environment has in store for a stdio call. *)
Definition next_io : M io_resp := λ w,
  (with_io (tail (w_io w)) w, Val (default IoOk (head (w_io w)))).

(** ** The OS layer: log and lock

    [bplog] records the event and hands its code back, so that
    [return bplog(BP_FAILEDSTORE, ...)] returns [BP_FAILEDSTORE].
    Modelled from the spec: "errors never throw or unwind; they are
    returned and logged" (the OS layer is not part of the sources at hand). *)
Definition bplog (e : bp_status) : M bp_status := emit (EvLog e);; mret e.

Definition bplib_os_lock (l : Z) : M unit := emit (EvLock l).
Definition bplib_os_unlock (l : Z) : M unit := emit (EvUnlock l).
Definition bplib_os_signal (l : Z) : M unit := emit (EvSignal l).

(** [bplib_os_waiton] as seen by a caller running alone: the wait ends with
    the status the environment chooses, and the store is as it was when the
    wait began. *)
Definition bplib_os_waiton (l : Z) (timeout : Z) : M bp_status := λ w,
  (with_wait (tail (w_wait w)) (with_log (w_log w ++ [EvWaiton l timeout]) w),
   Val (default BP_TIMEOUT (head (w_wait w)))).

(** ** stdio behind the [BP_FILE_*] macros

    Each call first takes the next outcome from the environment.  A file
    is a sequence of bytes found by its name; a stream whose file has been
    removed reads and writes as if the file were empty.  Data written
    reaches the file at once; [fflush] can only report a failure. *)

Definition file_of (w : world) (n : fname) : list byte := default [] (w_disk w !! n).

(** Where a stream stands when it has been opened on a file that holds
    [content]: at the end when opened "ab", at the start otherwise. *)
Definition start_pos (mode : fmode) (content : list byte) : Z :=
  match mode with
  | ModeAppend => len content
  | _ => 0
  end.

(** [fopen(name, "rb" | "ab" | "wb")] *)
Definition fopen (name : fname) (mode : fmode) : M BP_FILE :=
  emit (EvOpen name mode);;
  r ← next_io;
  act (λ w,
    match r, mode, w_disk w !! name with
    | IoFail, _, _ => (w, Val None)
    | _, ModeRead, None => (w, Val None)
    | _, _, _ =>
        let fd := fresh (dom (w_streams w)) in
        let content := match mode with ModeWrite => [] | _ => file_of w name end in
        (with_streams (<[fd := {| st_name := name; st_mode := mode;
                                  st_pos := start_pos mode content |}]>)
           (with_disk (<[name := content]>) w), Val (Some fd))
    end).

(** [fclose(fd)] *)
Definition fclose (fd : positive) : M unit :=
  emit (EvClose fd);;
  act (λ w, (with_streams (delete fd) w, Val tt)).

(** [fread(buf, 1, n, fd)]: the bytes delivered.  A stream opened "ab" or
    "wb" is not readable. *)
Definition fread (fd : positive) (n : Z) : M (list byte) :=
  r ← next_io;
  act (λ w,
    let got :=
      match w_streams w !! fd with
      | Some s =>
          match st_mode s, r with
          | ModeRead, IoOk => take (Z.to_nat n) (drop (Z.to_nat (st_pos s)) (file_of w (st_name s)))
          | ModeRead, IoShort k =>
              take (Z.to_nat (Z.min k n)) (drop (Z.to_nat (st_pos s)) (file_of w (st_name s)))
          | _, _ => []
          end
      | None => []
      end in
    let w1 := with_streams (alter (λ s, {| st_name := st_name s; st_mode := st_mode s;
                                          st_pos := st_pos s + len got |}) fd) w in
    (with_log (w_log w ++ [EvRead fd n (len got)]) w1, Val got)).

(** [fwrite(buf, 1, n, fd)] with [data] the [n] bytes at [buf]: the number
    of bytes written.  A stream opened "ab" writes at the end of the file
    wherever it was positioned. *)

(** The bytes that get written. *)
Definition written (m : fmode) (r : io_resp) (data : list byte) : list byte :=
  match m, r with
  | ModeRead, _ => []
  | _, IoOk => data
  | _, IoShort k => take (Z.to_nat k) data
  | _, IoFail => []
  end.

(** The file after [put] has been written through stream [s]. *)
Definition write_through (s : stream) (old put : list byte) : list byte :=
  match st_mode s with
  | ModeAppend => old ++ put
  | _ => take (Z.to_nat (st_pos s)) old ++ put ++ drop (Z.to_nat (st_pos s) + length put) old
  end.

Definition advance (s : stream) (new put : list byte) : stream :=
  {| st_name := st_name s; st_mode := st_mode s;
     st_pos := match st_mode s with
               | ModeAppend => len new
               | _ => st_pos s + len put
               end |}.

Definition fwrite (fd : positive) (data : list byte) : M Z :=
  r ← next_io;
  act (λ w,
    match w_streams w !! fd with
    | Some s =>
        let put := written (st_mode s) r data in
        let new := write_through s (file_of w (st_name s)) put in
        let w1 := if bool_decide (put = []) then w
                  else with_streams (<[fd := advance s new put]>)
                         (with_disk (<[st_name s := new]>) w) in
        (with_log (w_log w ++ [EvWrite fd (len data) (len put)]) w1, Val (len put))
    | None => (with_log (w_log w ++ [EvWrite fd (len data) 0]) w, Val 0)
    end).

(** [fseek(fd, offset, whence)]: the status, [0] or [-1]. *)
Definition fseek (fd : positive) (offset : Z) (wh : whence) : M Z :=
  emit (EvSeek fd);;
  r ← next_io;
  act (λ w,
    match r, w_streams w !! fd with
    | IoFail, _ => (w, Val (-1))
    | _, None => (w, Val (-1))
    | _, Some s =>
        let pos := match wh with SEEK_SET => offset | SEEK_CUR => st_pos s + offset end in
        if pos <? 0 then (w, Val (-1))
        else (with_streams (<[fd := {| st_name := st_name s; st_mode := st_mode s;
                                       st_pos := pos |}]>) w, Val 0)
    end).

(** [fflush(fd)]: the status, [0] or [-1]. *)
Definition fflush (fd : positive) : M Z :=
  emit (EvFlush fd);;
  r ← next_io;
  mret (match r with IoFail => -1 | _ => 0 end).

Definition ENOENT : Z := 2.
Definition EACCES : Z := 13.

(** [remove(name)]: the status and the value left in [errno]. *)
Definition remove (name : fname) : M (Z * Z) :=
  emit (EvRemove name);;
  r ← next_io;
  act (λ w,
    match r, w_disk w !! name with
    | IoFail, _ => (w, Val (-1, EACCES))
    | _, None => (w, Val (-1, ENOENT))
    | _, Some _ => (with_disk (delete name) w, Val (0, 0))
    end).

(** ** The heap

    [malloc] hands out a block that is not in use; the store never checks
    its result, so exhaustion is not modelled. *)
Definition malloc (size : Z) : M positive := λ w,
  let p := fresh (dom (w_heap w)) in
  (with_log (w_log w ++ [EvMalloc p size])
     (with_heap (<[p := replicate (Z.to_nat size) 0]>) w), Val p).

(** [free(p)]; [free(NULL)] does nothing. *)
Definition free (p : ptr) : M unit :=
  match p with
  | None => mret tt
  | Some a => emit (EvFree a);; act (λ w, (with_heap (delete a) w, Val tt))
  end.

(** The bytes a read has delivered are placed at the start of block [p]. *)
Definition store_bytes (p : positive) (data : list byte) : M unit := λ w,
  (with_heap (alter (λ old, data ++ drop (length data) old) p) w, Val tt).

(** [fread(p, 1, n, fd)] into a heap block: the number of bytes read. *)
Definition fread_into (p : positive) (fd : positive) (n : Z) : M Z :=
  data ← fread fd n;
  store_bytes p data;;
  mret (len data).

(** ** Local functions of file.c *)

(** [file_flush] is a static variable that nothing in file.c assigns. *)
Definition file_flush : bool := FILE_FLUSH_DEFAULT.

(** The root path the name is formatted from. *)
Definition root (fs : file_store_t) : string := default ""%string (file_root fs).

Definition open_dat_file (service_id : Z) (file_root : string) (file_id : Z)
    (read_only : bool) : M BP_FILE :=
  let filename := dat_name service_id file_root file_id in
  if read_only then fopen filename ModeRead
  else
    fd ← fopen filename ModeAppend;
    match fd with
    | None => bplog BP_FAILEDSTORE;; mret fd
    | Some _ => mret fd
    end.

Definition open_tbl_file (service_id : Z) (file_root : string) (file_id : Z)
    (read_only : bool) : M BP_FILE :=
  let filename := tbl_name service_id file_root file_id in
  if read_only then fopen filename ModeRead
  else
    fd ← fopen filename ModeWrite;
    match fd with
    | None => bplog BP_FAILEDSTORE;; mret fd
    | Some _ => mret fd
    end.

(** An [int] result that is either the status of a libc call or a code
    handed back by [bplog]. *)
Inductive c_int : Set :=
| Num (z : Z)
| Code (e : bp_status).

(** The test [v < 0].
    Modelled from the spec: the codes of bplib.h are not part of the
    sources at hand; the failure codes are negative numbers, which is what
    the test [dat_status < 0] of [bplib_store_file_relinquish] relies on. *)
Definition negative (v : c_int) : bool :=
  match v with
  | Num z => z <? 0
  | Code BP_SUCCESS | Code BP_TIMEOUT => false
  | Code _ => true
  end.

Definition delete_dat_file (service_id : Z) (file_root : string) (file_id : Z) : M c_int :=
  let filename := dat_name service_id file_root file_id in
  '(status, _) ← remove filename;
  if status <? 0 then e ← bplog BP_FAILEDSTORE; mret (Code e)
  else mret (Num status).

Definition delete_tbl_file (service_id : Z) (file_root : string) (file_id : Z) : M c_int :=
  let filename := tbl_name service_id file_root file_id in
  '(status, errno) ← remove filename;
  if (status <? 0) && negb (errno =? 2) then e ← bplog BP_FAILEDSTORE; mret (Code e)
  else mret (Num 0).

(** The loop
    [for(pos = 0; pos < n; pos++) { read the size word; seek past the record }]
    that enqueue, dequeue and retrieve each run to step over [n] records;
    [cleanup] is what the function does before it returns the failure
    (nothing in enqueue, [bplib_os_unlock] in dequeue and retrieve). *)
Fixpoint skip_records (cleanup : M unit) (fd : positive) (n : nat) : M unit :=
  match n with
  | O => mret tt
  | S n' =>
      current_size ← fread fd 4;
      if bool_decide (len current_size ≠ 4) then
        cleanup;; e ← bplog BP_FAILEDSTORE; return_ e
      else
        seek_status ← fseek fd (le_value current_size) SEEK_CUR;
        if seek_status <? 0 then
          cleanup;; e ← bplog BP_FAILEDSTORE; return_ e
        else skip_records cleanup fd n'
  end.

(** ** bplib_store_file_enqueue *)

(** "Check Need to Open Write File": the stream [fs->write_fd] to write to. *)
Definition enqueue_open (data_id : Z) : M positive :=
  let file_id := GET_FILEID data_id in
  let data_offset := GET_DATAOFFSET data_id in
  wfd ← get write_fd;
  match wfd with
  | Some fd => mret fd
  | None =>
      svc ← get service_id;
      rt ← get root;
      ofd ← open_dat_file (i32 svc) rt file_id false;
      put (set_write_fd ofd);;
      match ofd with
      | None => e ← bplog BP_FAILEDSTORE; return_ e
      | Some fd =>
          werr ← get write_error;
          (if werr : bool then
             seek_status ← fseek fd 0 SEEK_SET;
             if seek_status <? 0 then e ← bplog BP_FAILEDSTORE; return_ e
             else skip_records (mret tt) fd (Z.to_nat data_offset)
           else mret tt);;
          mret fd
      end
  end.

(** The four writes and the flush: [bytes_written] and [flush_error]. *)
Definition enqueue_write (fd : positive) (handle : Z) (data1 data2 : list byte) : M (Z * bool) :=
  let data_size := u32 (len data1 + len data2) in
  let object_size := u32 (HDR_SIZE + data_size) in
  let object_header :=
    {| hdr_handle := handle; hdr_sid := BP_SID_VACANT; hdr_size := data_size |} in
  n1 ← fwrite fd (le_bytes 4 object_size);
  n2 ← fwrite fd (hdr_bytes object_header);
  n3 ← fwrite fd data1;
  n4 ← fwrite fd data2;
  let bytes_written := u32 (u32 (u32 (u32 (0 + n1) + n2) + n3) + n4) in
  flush_error ←
    (if file_flush then
       flush_status ← fflush fd;
       if flush_status <? 0 then bplog BP_FAILEDSTORE;; mret true else mret false
     else mret false);
  mret (bytes_written, flush_error).

(** "Check Errors and Return Status". *)
Definition enqueue_finish (fd : positive) (object_size : Z) (r : Z * bool) : M bp_status :=
  let '(bytes_written, flush_error) := r in
  if bool_decide (bytes_written ≠ object_size + 4) || flush_error then
    put (set_write_error true);;
    wfd ← get write_fd;
    match wfd with
    | Some f => fclose f;; put (set_write_fd None)
    | None => mret tt
    end;;
    e ← bplog BP_FAILEDSTORE;
    return_ e
  else
    wid ← get write_data_id;
    (if wid mod FILE_DATA_COUNT =? 0 then fclose fd;; put (set_write_fd None) else mret tt);;
    put (set_write_error false);;
    put (λ fs, set_write_data_id (u64 (write_data_id fs + 1)) fs);;
    put (λ fs, set_data_count (i32 (data_count fs + 1)) fs);;
    lk ← get lock;
    bplib_os_signal lk;;
    mret BP_SUCCESS.

(** [data1_size] and [data2_size] are the lengths of the two buffers. *)
Definition bplib_store_file_enqueue (handle : Z) (data1 data2 : list byte) (timeout : Z)
    : M bp_status :=
  let data_size := u32 (len data1 + len data2) in
  let object_size := u32 (HDR_SIZE + data_size) in
  wid ← get write_data_id;
  let data_id := GET_DATAID wid in
  fd ← enqueue_open data_id;
  r ← enqueue_write fd handle data1 data2;
  enqueue_finish fd object_size r.

(** ** bplib_store_file_dequeue *)

(** "Read Data": the size word, then the object into a fresh block, which
    is stamped with [sid] when it has been read whole.  Yields
    [object_ptr], [bytes_read] and the success flag. *)
Definition read_object (fd : positive) (sid : Z) : M (ptr * Z * bool) :=
  size_word ← fread fd 4;
  if len size_word =? 4 then
    let object_size := le_value size_word in
    p ← malloc object_size;
    bytes_read ← fread_into p fd object_size;
    if bytes_read =? object_size then
      act (λ w, (with_heap (alter (stamp_sid sid) p) w, Val (Some p, bytes_read, true)))
    else mret (Some p, bytes_read, false)
  else mret (None, len size_word, false).

(** "Check State of Data Cache" up to "Update Data Cache", shared by
    dequeue and retrieve: wait while the slot is locked, free its previous
    object, install [object_ptr] locked under [data_id]. *)
Definition install_in_cache (lk timeout : Z) (cache_index data_id : Z) (object_ptr : ptr)
    : M unit :=
  e ← get (λ fs, cache_at fs cache_index);
  (if negb (mem_locked e =? 0) then
     wait_status ← bplib_os_waiton lk timeout;
     if bool_decide (wait_status = BP_ERROR) then
       free object_ptr;;
       bplib_os_unlock lk;;
       c ← bplog BP_FAILEDSTORE;
       return_ c
     else
       e' ← get (λ fs, cache_at fs cache_index);
       if bool_decide (wait_status = BP_TIMEOUT) || negb (mem_locked e' =? 0) then
         free object_ptr;;
         bplib_os_unlock lk;;
         return_ BP_TIMEOUT
       else mret tt
   else mret tt);;
  e ← get (λ fs, cache_at fs cache_index);
  (match mem_ptr e with
   | Some old => free (Some old)
   | None => mret tt
   end);;
  put (set_cache_at cache_index
         {| mem_ptr := object_ptr; mem_locked := FILE_MEM_LOCKED; mem_data_id := data_id |}).

(** [data_id % fs->cache_size]: the [int] is converted to [unsigned]. *)
Definition cache_index_of (data_id : Z) (fs : file_store_t) : Z :=
  u32 (data_id mod u32 (cache_size fs)).

(** "Check if Data Available". *)
Definition dequeue_wait (lk timeout : Z) : M unit :=
  rid ← get read_data_id;
  wid ← get write_data_id;
  if rid =? wid then
    wait_status ← bplib_os_waiton lk timeout;
    if bool_decide (wait_status = BP_ERROR) then
      bplib_os_unlock lk;;
      c ← bplog BP_FAILEDSTORE;
      return_ c
    else
      rid' ← get read_data_id;
      wid' ← get write_data_id;
      if bool_decide (wait_status = BP_TIMEOUT) || (rid' =? wid') then
        bplib_os_unlock lk;;
        return_ BP_TIMEOUT
      else mret tt
  else mret tt.

(** "Check Need to Open Read File" and "Seek to Current Position": the
    stream [fs->read_fd] to read from. *)
Definition dequeue_open (lk data_id : Z) : M positive :=
  let file_id := GET_FILEID data_id in
  let data_offset := GET_DATAOFFSET data_id in
  rfd ← get read_fd;
  fd ← match rfd with
       | Some fd => mret fd
       | None =>
           svc ← get service_id;
           rt ← get root;
           ofd ← open_dat_file (i32 svc) rt file_id true;
           put (set_read_fd ofd);;
           match ofd with
           | None => bplib_os_unlock lk;; c ← bplog BP_FAILEDSTORE; return_ c
           | Some fd => mret fd
           end
       end;
  rerr ← get read_error;
  (if rerr : bool then
     seek_status ← fseek fd 0 SEEK_SET;
     if seek_status <? 0 then bplib_os_unlock lk;; c ← bplog BP_FAILEDSTORE; return_ c
     else skip_records (bplib_os_unlock lk) fd (Z.to_nat data_offset)
   else mret tt);;
  mret fd.

(** "Read Data" and "Check for Read Errors": the object read. *)
Definition dequeue_read (lk : Z) (fd : positive) : M ptr :=
  rid ← get read_data_id;
  '(object_ptr, bytes_read, read_success) ← read_object fd (u64 rid);
  (if negb read_success then
     put (set_read_error true);;
     rfd ← get read_fd;
     match rfd with
     | Some f => fclose f;; put (set_read_fd None)
     | None => mret tt
     end;;
     free object_ptr;;
     bplib_os_unlock lk;;
     c ← bplog BP_FAILEDSTORE;
     return_ c
   else mret tt);;
  mret object_ptr.

(** "Check Need to Open New File", "Set Read State", "Return Object". *)
Definition dequeue_finish (lk : Z) (fd : positive) (object_ptr : ptr) : M bp_status :=
  rid ← get read_data_id;
  (if rid mod FILE_DATA_COUNT =? 0 then fclose fd;; put (set_read_fd None) else mret tt);;
  put (set_read_error false);;
  put (λ fs, set_read_data_id (u64 (read_data_id fs + 1)) fs);;
  act (λ w, (with_object object_ptr w, Val tt));;
  bplib_os_unlock lk;;
  mret BP_SUCCESS.

Definition bplib_store_file_dequeue (timeout : Z) : M bp_status :=
  lk ← get lock;
  bplib_os_lock lk;;
  rid ← get read_data_id;
  let data_id := GET_DATAID rid in
  dequeue_wait lk timeout;;
  fd ← dequeue_open lk data_id;
  object_ptr ← dequeue_read lk fd;
  (* Check State of Data Cache, Free Previous Entry, Update Data Cache *)
  cache_index ← get (cache_index_of data_id);
  install_in_cache lk timeout cache_index data_id object_ptr;;
  dequeue_finish lk fd object_ptr.

(** ** bplib_store_file_retrieve *)

Definition bplib_store_file_retrieve (sid : Z) (timeout : Z) : M bp_status :=
  lk ← get lock;
  bplib_os_lock lk;;
  (* Get IDs *)
  let data_id := GET_DATAID sid in
  let file_id := GET_FILEID data_id in
  let data_offset := GET_DATAOFFSET data_id in
  prev ← get retrieve_data_id;
  let prev_data_id := GET_DATAID prev in
  let prev_file_id := GET_FILEID prev_data_id in
  let prev_data_offset := GET_DATAOFFSET prev_data_id in
  (* Check Data Cache *)
  cache_index ← get (cache_index_of data_id);
  e ← get (λ fs, cache_at fs cache_index);
  (match mem_ptr e with
   | Some p =>
       if mem_data_id e =? data_id then
         act (λ w, (with_object (Some p) w, Val tt));;
         bplib_os_unlock lk;;
         return_ BP_SUCCESS
       else mret tt
   | None => mret tt
   end);;
  (* Check Need to Open New Retrieve File *)
  (if negb (file_id =? prev_file_id) then
     tfd ← get retrieve_fd;
     match tfd with
     | Some f => fclose f;; put (set_retrieve_fd None)
     | None => mret tt
     end
   else mret tt);;
  (* Check Need to Open Retrieve File *)
  tfd ← get retrieve_fd;
  '(fd, offset_delta) ←
    match tfd with
    | None =>
        svc ← get service_id;
        rt ← get root;
        ofd ← open_dat_file (i32 svc) rt file_id true;
        put (set_retrieve_fd ofd);;
        match ofd with
        | None => bplib_os_unlock lk;; c ← bplog BP_FAILEDSTORE; return_ c
        | Some fd => mret (fd, 0)
        end
    | Some fd =>
        (* Set Delta from Current Position in File *)
        let offset_delta := i32 (u32 (data_offset - prev_data_offset)) in
        if offset_delta <? 0 then
          (* Handling Seeking Backwards *)
          seek_status ← fseek fd 0 SEEK_SET;
          if seek_status <? 0 then bplib_os_unlock lk;; c ← bplog BP_FAILEDSTORE; return_ c
          else mret (fd, i32 data_offset)
        else mret (fd, offset_delta)
    end;
  (* Seek Forward *)
  (if 0 <? offset_delta then skip_records (bplib_os_unlock lk) fd (Z.to_nat offset_delta)
   else mret tt);;
  (* Read Data *)
  '(object_ptr, bytes_read, retrieve_success) ← read_object fd (u64 sid);
  (if retrieve_success : bool then put (set_retrieve_data_id (u64 sid)) else mret tt);;
  (* Check Success *)
  (if negb retrieve_success then
     free object_ptr;;
     tfd ← get retrieve_fd;
     match tfd with
     | Some f => fclose f;; put (set_retrieve_fd None)
     | None => mret tt
     end;;
     bplib_os_unlock lk;;
     c ← bplog BP_FAILEDSTORE;
     return_ c
   else mret tt);;
  (* Check State of Data Cache, Free Previous Entry, Update Data Cache *)
  cache_index ← get (cache_index_of data_id);
  install_in_cache lk timeout cache_index data_id object_ptr;;
  (* Return Object *)
  act (λ w, (with_object object_ptr w, Val tt));;
  bplib_os_unlock lk;;
  mret BP_SUCCESS.

(** ** bplib_store_file_release *)

Definition bplib_store_file_release (sid : Z) : M bp_status :=
  lk ← get lock;
  bplib_os_lock lk;;
  let data_id := GET_DATAID sid in
  cache_index ← get (cache_index_of data_id);
  e ← get (λ fs, cache_at fs cache_index);
  (if bool_decide (mem_ptr e = None) || negb (mem_data_id e =? data_id) then
     bplib_os_unlock lk;;
     c ← bplog BP_FAILEDSTORE;
     return_ c
   else mret tt);;
  put (set_cache_at cache_index
         {| mem_ptr := mem_ptr e; mem_locked := FILE_MEM_AVAIABLE; mem_data_id := mem_data_id e |});;
  bplib_os_signal lk;;
  bplib_os_unlock lk;;
  mret BP_SUCCESS.

(** ** bplib_store_file_relinquish *)

(** The bytes of a [free_table_t]: 256 [bool]s and the [int] count. *)
Definition SIZEOF_TABLE : Z := 260.
Definition table_bytes (t : free_table_t) : list byte := freed t ++ le_bytes 4 (free_cnt t).
Definition table_of_bytes (bs : list byte) : free_table_t :=
  {| freed := take 256 bs; free_cnt := i32 (le_value (take 4 (drop 256 bs))) |}.
(** [memset(&fs->relinquish_table, 0, sizeof(fs->relinquish_table))] *)
Definition zero_table : free_table_t := {| freed := replicate 256 0; free_cnt := 0 |}.

(** "Clear Data Cache". *)
Definition relinquish_clear_cache (data_id : Z) : M unit :=
  cache_index ← get (cache_index_of data_id);
  e ← get (λ fs, cache_at fs cache_index);
  match mem_ptr e with
  | Some p =>
      if mem_data_id e =? data_id then
        free (Some p);;
        put (set_cache_at cache_index
               {| mem_ptr := None; mem_locked := FILE_MEM_AVAIABLE; mem_data_id := BP_SID_VACANT |})
      else mret tt
  | None => mret tt
  end.

(** "Check Need to Read New Relinquish Table". *)
Definition relinquish_load_table (lk : Z) (sid file_id prev_file_id : Z) : M unit :=
  if negb (file_id =? prev_file_id) then
    (* Set Current Relinquish Table *)
    put (set_relinquish_data_id (u64 sid));;
    svc ← get service_id;
    rt ← get root;
    (* Check Need to Save Off Previous Relinquish Table *)
    t ← get relinquish_table;
    (if 0 <? free_cnt t then
       qfd ← get relinquish_fd;
       fd ← match qfd with
            | Some fd => mret fd
            | None =>
                ofd ← open_tbl_file (i32 svc) rt prev_file_id false;
                put (set_relinquish_fd ofd);;
                match ofd with
                | None => bplib_os_unlock lk;; c ← bplog BP_FAILEDSTORE; return_ c
                | Some fd => mret fd
                end
            end;
       bytes_written ← fwrite fd (table_bytes t);
       fclose fd;;
       put (set_relinquish_fd None);;
       if bool_decide (u32 bytes_written ≠ SIZEOF_TABLE) then
         bplib_os_unlock lk;; c ← bplog BP_FAILEDSTORE; return_ c
       else mret tt
     else mret tt);;
    (* Open New Relinquish File *)
    ofd ← open_tbl_file (i32 svc) rt file_id true;
    put (set_relinquish_fd ofd);;
    match ofd with
    | None => put (set_relinquish_table zero_table)
    | Some fd =>
        data ← fread fd SIZEOF_TABLE;
        put (λ fs, set_relinquish_table
                     (table_of_bytes (data ++ drop (length data) (table_bytes (relinquish_table fs))))
                     fs);;
        fclose fd;;
        put (set_relinquish_fd None);;
        if bool_decide (len data ≠ SIZEOF_TABLE) then
          bplib_os_unlock lk;; c ← bplog BP_FAILEDSTORE; return_ c
        else mret tt
    end
  else mret tt.

(** "Check if Still Present". *)
Definition relinquish_mark (lk : Z) (file_id data_offset : Z) : M unit :=
  t ← get relinquish_table;
  if freed t !!! Z.to_nat data_offset =? 0 then
    (* Mark Data as Relinquished *)
    put (λ fs, set_relinquish_table
                 {| freed := <[Z.to_nat data_offset := 1]> (freed (relinquish_table fs));
                    free_cnt := free_cnt (relinquish_table fs) |} fs);;
    put (λ fs, set_data_count (i32 (data_count fs - 1)) fs);;
    (* Relinquish Resources *)
    put (λ fs, set_relinquish_table
                 {| freed := freed (relinquish_table fs);
                    free_cnt := i32 (free_cnt (relinquish_table fs) + 1) |} fs);;
    t' ← get relinquish_table;
    if free_cnt t' =? FILE_DATA_COUNT then
      svc ← get service_id;
      rt ← get root;
      delete_tbl_file (i32 svc) rt file_id;;
      dat_status ← delete_dat_file (i32 svc) rt file_id;
      if negative dat_status then
        bplib_os_unlock lk;; c ← bplog BP_FAILEDSTORE; return_ c
      else mret tt
    else mret tt
  else mret tt.

(** Everything up to "Check if Still Present": lock, ids, cache, table. *)
Definition relinquish_prepare (sid : Z) : M unit :=
  lk ← get lock;
  bplib_os_lock lk;;
  (* Get IDs *)
  let data_id := GET_DATAID sid in
  let file_id := GET_FILEID data_id in
  prev ← get relinquish_data_id;
  let prev_data_id := GET_DATAID prev in
  let prev_file_id := GET_FILEID prev_data_id in
  relinquish_clear_cache data_id;;
  relinquish_load_table lk sid file_id prev_file_id.

Definition bplib_store_file_relinquish (sid : Z) : M bp_status :=
  let data_id := GET_DATAID sid in
  let file_id := GET_FILEID data_id in
  let data_offset := GET_DATAOFFSET data_id in
  relinquish_prepare sid;;
  lk ← get lock;
  relinquish_mark lk file_id data_offset;;
  bplib_os_unlock lk;;
  mret BP_SUCCESS.

(** ** bplib_store_file_getcount *)

Definition bplib_store_file_getcount : M Z := get data_count.

(** ** The store table: init, create, destroy *)

(** [file_stores], [file_service_id] and the environment. *)
Record system := {
  file_stores : list file_store_t;
  file_service_id : Z;
  sys_env : env;
}.

(** A [file_store_t] after [memset(.., 0, ..)]. *)
Definition zero_store : file_store_t :=
  {| in_use := false; lock := 0; service_id := 0; file_root := None; data_count := 0;
     write_fd := None; write_data_id := 0; write_error := false;
     read_fd := None; read_data_id := 0; read_error := false;
     retrieve_fd := None; retrieve_data_id := 0;
     relinquish_fd := None; relinquish_data_id := 0; relinquish_table := zero_table;
     data_cache := None; cache_size := 0 |}.

Global Instance file_store_inhabited : Inhabited file_store_t := populate zero_store.

Definition zero_cache_entry : data_cache_t :=
  {| mem_ptr := None; mem_locked := 0; mem_data_id := 0 |}.

Definition bplib_store_file_init (s : system) : system :=
  {| file_stores := replicate FILE_MAX_STORES zero_store;
     file_service_id := file_service_id s;
     sys_env := sys_env s |}.

(** [bp_file_attr_t] *)
Record bp_file_attr_t := {
  root_path : option string;
  attr_cache_size : Z;
}.

(** [bplib_os_createlock]: a handle, negative on failure. *)
Definition bplib_os_createlock : M Z :=
  r ← next_io;
  mret (match r with IoFail => -1 | IoOk => 0 | IoShort n => Z.abs n end).

(** A checked [malloc] of create: whether the block was granted. *)
Definition malloc_ok : M bool :=
  r ← next_io;
  mret (match r with IoFail => false | _ => true end).

(** [bplib_os_destroylock] *)
Definition bplib_os_destroylock (l : Z) : M unit := emit (EvDestroyLock l).

(** [free] of the block behind [file_root] or [data_cache].  The record
    holds the contents of these two blocks, not their addresses, and the
    fields are left as they are, as the pointers are in the code. *)
Definition free_block (b : store_block) : M unit := emit (EvFreeBlock b).

(** [bplib_store_file_destroy] on [&file_stores[handle]]. *)
Definition bplib_store_file_destroy : M bp_status :=
  wfd ← get write_fd;
  match wfd with Some f => fclose f | None => mret tt end;;
  rfd ← get read_fd;
  match rfd with Some f => fclose f | None => mret tt end;;
  tfd ← get retrieve_fd;
  match tfd with Some f => fclose f | None => mret tt end;;
  fr ← get file_root;
  match fr with Some _ => free_block RootPath | None => mret tt end;;
  l ← get lock;
  (if bool_decide (l ≠ BP_INVALID_HANDLE) then bplib_os_destroylock l else mret tt);;
  dc ← get data_cache;
  match dc with Some _ => free_block DataCache | None => mret tt end;;
  put (set_in_use false);;
  mret BP_SUCCESS.

(** The body of the loop of [bplib_store_file_create] for a slot that is
    not in use: [true] when the slot has been set up, [false] when the
    function gave up and destroyed it. *)
Definition create_slot (attr : option bp_file_attr_t) (service : Z) : M bool :=
  (* Clear File Store, Set In Use, Initialize Parameters *)
  put (λ _, set_relinquish_data_id 1 (set_retrieve_data_id 1 (set_read_data_id 1
             (set_write_data_id 1 (set_lock BP_INVALID_HANDLE (set_service_id (u64 service)
               (set_in_use true zero_store)))))));;
  (* Setup and Check Lock *)
  l ← bplib_os_createlock;
  put (set_lock l);;
  if l <? 0 then
    bplog BP_FAILEDOS;; bplib_store_file_destroy;; mret false
  else
    (* Setup Root Path *)
    let path := match attr with
                | Some a => default FILE_DEFAULT_ROOT (root_path a)
                | None => FILE_DEFAULT_ROOT
                end in
    let root_path_len := Z.min (Z.of_nat (String.length path)) FILE_MAX_FILENAME + 1 in
    (if root_path_len <=? FILE_MAX_FILENAME then
       ok ← malloc_ok;
       if ok : bool then put (set_file_root (Some path)) else mret tt
     else mret tt);;
    (* Check File Root Setup *)
    fr ← get file_root;
    match fr with
    | None => bplog BP_FAILEDMEM;; bplib_store_file_destroy;; mret false
    | Some _ =>
        (* Setup Data Cache *)
        let csz := match attr with
                   | Some a => if attr_cache_size a =? 0 then FILE_DEFAULT_CACHE_SIZE
                               else attr_cache_size a
                   | None => FILE_DEFAULT_CACHE_SIZE
                   end in
        put (set_cache_size csz);;
        ok ← malloc_ok;
        (if ok && (0 <=? csz) then
           put (set_data_cache (Some (replicate (Z.to_nat csz) zero_cache_entry)))
         else mret tt);;
        (* Check Data Cache Setup *)
        dc ← get data_cache;
        match dc with
        | None => bplog BP_FAILEDMEM;; bplib_store_file_destroy;; mret false
        | Some _ => mret true
        end
    end.

Definition focus (s : system) (fs : file_store_t) : world :=
  {| w_fs := fs; w_env := sys_env s |}.

Definition unfocus (handle : nat) (s : system) (w : world) : system :=
  {| file_stores := <[handle := w_fs w]> (file_stores s);
     file_service_id := file_service_id s;
     sys_env := w_env w |}.

(** The first slot that is not in use. *)
Definition first_unused (l : list file_store_t) : option nat :=
  fst <$> list_find (λ fs, in_use fs = false) l.

(** [bplib_store_file_create]: the handle, or [BP_INVALID_HANDLE]. *)
Definition bplib_store_file_create (attr : option bp_file_attr_t) (s : system) : system * Z :=
  match first_unused (take FILE_MAX_STORES (file_stores s)) with
  | None => (s, BP_INVALID_HANDLE)
  | Some h =>
      let s1 := {| file_stores := file_stores s;
                   file_service_id := u64 (file_service_id s + 1);
                   sys_env := sys_env s |} in
      match create_slot attr (file_service_id s) (focus s1 zero_store) with
      | (w, Val true) => (unfocus h s1 w, Z.of_nat h)
      | (w, _) => (unfocus h s1 w, BP_INVALID_HANDLE)
      end
  end.

(** A per-handle operation called with [handle]: the two [assert]s, then
    the body on [&file_stores[handle]].  [None] is a failed assertion. *)
Definition on_handle {A} (handle : Z) (op : world → world * A) (s : system)
    : option (system * A) :=
  if bool_decide (0 ≤ handle < Z.of_nat FILE_MAX_STORES) then
    match file_stores s !! Z.to_nat handle with
    | Some fs =>
        if in_use fs then
          let '(w, r) := op (focus s fs) in
          Some (unfocus (Z.to_nat handle) s w, r)
        else None
    | None => None
    end
  else None.

(** ** A store right after start-up *)

Definition empty_env : env :=
  {| e_disk := ∅; e_streams := ∅; e_heap := ∅; e_object := None;
     e_io := []; e_wait := []; e_log := [] |}.

(** The table after [bplib_store_file_init], in environment [e]. *)
Definition boot (e : env) : system :=
  bplib_store_file_init {| file_stores := []; file_service_id := 0; sys_env := e |}.

(** ** Reasoning about computations *)

(** [pres R E m]: every run of [m] relates the worlds before and after by
    [R], and leaves through [return] only with a code in [E]. *)
Definition pres {A} (R : world → world → Prop) (E : bp_status → Prop) (m : M A) : Prop :=
  ∀ w w' r, m w = (w', r) → R w w' ∧ match r with Ret e => E e | Val _ => True end.

Lemma bind_inv {A B} (m : M A) (f : A → M B) w w' r :
  (m ≫= f) w = (w', r) →
  (∃ w1 a, m w = (w1, Val a) ∧ f a w1 = (w', r)) ∨ (∃ e, m w = (w', Ret e) ∧ r = Ret e).
Proof.
  unfold mbind, M_bind. destruct (m w) as [w1 [a|e]] eqn:Hm; intros H.
  - left. eauto.
  - right. injection H as <- <-. eauto.
Qed.

Lemma bind_val {A B} (m : M A) (f : A → M B) w w1 a :
  m w = (w1, Val a) → (m ≫= f) w = f a w1.
Proof. unfold mbind, M_bind. by intros ->. Qed.

Lemma bind_ret {A B} (m : M A) (f : A → M B) w w1 e :
  m w = (w1, Ret e) → (m ≫= f) w = (w1, Ret e).
Proof. unfold mbind, M_bind. by intros ->. Qed.

Section pres.
Context {R : world → world → Prop} `{!PreOrder R} {E : bp_status → Prop}.

Lemma pres_ret {A} (a : A) : pres R E (mret a).
Proof. intros w w' r [= <- <-]. split; [reflexivity|done]. Qed.

Lemma pres_return {A} e : E e → pres R E (@return_ A e).
Proof. intros He w w' r [= <- <-]. split; [reflexivity|done]. Qed.

Lemma pres_get {A} (f : file_store_t → A) : pres R E (get f).
Proof. intros w w' r [= <- <-]. split; [reflexivity|done]. Qed.

Lemma pres_bind {A B} (m : M A) (f : A → M B) :
  pres R E m → (∀ a, pres R E (f a)) → pres R E (m ≫= f).
Proof.
  intros Hm Hf w w' r H. apply bind_inv in H as [(w1 & a & H1 & H2)|(e & H1 & ->)].
  - apply Hm in H1 as [H1 _]. apply Hf in H2 as [H2 Hr]. split; [by etrans|done].
  - by apply Hm in H1.
Qed.

Lemma pres_put (f : file_store_t → file_store_t) :
  (∀ w, R w (with_fs f w)) → pres R E (put f).
Proof. intros Hf w w' r [= <- <-]. split; [apply Hf|done]. Qed.
End pres.

Lemma pres_weaken {A} (R R' : world → world → Prop) (E E' : bp_status → Prop) (m : M A) :
  (∀ w w', R w w' → R' w w') → (∀ e, E e → E' e) → pres R E m → pres R' E' m.
Proof.
  intros HR HE Hm w w' r H. apply Hm in H as [H1 H2]. split; [by apply HR|].
  destruct r; [done|by apply HE].
Qed.

(** The relations used below. *)

(** The store record is untouched. *)
Definition same_fs (w w' : world) : Prop := w_fs w' = w_fs w.
(** A view [π] of the store record is untouched. *)
Definition same_on {X} (π : file_store_t → X) (w w' : world) : Prop := π (w_fs w') = π (w_fs w).
(** The log has only grown, by events that satisfy [P]. *)
Definition logs (P : event → Prop) (w w' : world) : Prop :=
  ∃ evs, w_log w' = w_log w ++ evs ∧ Forall P evs.

Global Instance same_fs_preorder : PreOrder same_fs.
Proof. split; [done|]. intros x y z H1 H2. unfold same_fs in *. congruence. Qed.
Global Instance same_on_preorder {X} (π : file_store_t → X) : PreOrder (same_on π).
Proof. split; [done|]. intros x y z H1 H2. unfold same_on in *. congruence. Qed.
Global Instance logs_preorder P : PreOrder (logs P).
Proof.
  split.
  - intros w. exists []. by rewrite app_nil_r.
  - intros x y z (e1 & H1 & F1) (e2 & H2 & F2). exists (e1 ++ e2).
    rewrite H2, H1, (assoc_L (++)). split; [done|]. by apply Forall_app.
Qed.

(** Both at once. *)
Definition both (R1 R2 : world → world → Prop) (w w' : world) : Prop := R1 w w' ∧ R2 w w'.
Global Instance both_preorder R1 R2 `{!PreOrder R1, !PreOrder R2} : PreOrder (both R1 R2).
Proof.
  split.
  - intros w. split; reflexivity.
  - intros x y z [? ?] [? ?]. split; by etrans.
Qed.

Definition never (e : bp_status) : Prop := False.

(** What the calls to the outside do: the store record stays, the log
    grows by the events of the call, and no call returns from the caller. *)
Definition is_ev (e : event) (P : event → Prop) : Prop := P e.

Definition outside (P : event → Prop) : world → world → Prop := both same_fs (logs P).

Lemma outside_step (P : event → Prop) w (ev : list event) (g : world → world) :
  Forall P ev → w_fs (g w) = w_fs w → w_log (g w) = w_log w ++ ev → outside P w (g w).
Proof. intros HP Hfs Hlog. split; [done|]. by exists ev. Qed.

Definition logged (P : event → bool) (w w' : world) : Prop :=
  ∃ evs, w_log w' = w_log w ++ evs ∧ forallb P evs = true.

Global Instance logged_preorder P : PreOrder (logged P).
Proof.
  split.
  - intros w. exists []. by rewrite app_nil_r.
  - intros x y z (e1 & H1 & F1) (e2 & H2 & F2). exists (e1 ++ e2).
    rewrite H2, H1, (assoc_L (++)). split; [done|].
    rewrite forallb_app, F1, F2. done.
Qed.

(** A call to the outside: the store record stays and the log grows by
    events in [P]. *)
Definition out (P : event → bool) : world → world → Prop := both same_fs (logged P).

(** A view [π] of the store record stays and the log grows by events in [P]. *)
Definition keeps {X} (π : file_store_t → X) (P : event → bool) : world → world → Prop :=
  both (same_on π) (logged P).

Lemma out_keeps {X} (π : file_store_t → X) P w w' : out P w w' → keeps π P w w'.
Proof. intros [H1 H2]. split; [|done]. unfold same_on, same_fs in *. by rewrite H1. Qed.

Lemma pres_out {A X} (π : file_store_t → X) P E (m : M A) :
  pres (out P) never m → pres (keeps π P) E m.
Proof. apply pres_weaken; [apply out_keeps|done]. Qed.

Lemma act_out {A} P (f : world → world * res A) :
  (∀ w, w_fs (f w).1 = w_fs w ∧ w_log (f w).1 = w_log w ∧ ∃ a, (f w).2 = Val a) →
  pres (out P) never (act f).
Proof.
  intros Hf w w' r H. destruct (Hf w) as (H1 & H2 & a & H3).
  unfold act in H. rewrite H in *. simpl in *. subst r. split; [|done].
  split; [done|]. exists []. by rewrite app_nil_r.
Qed.

Lemma emit_out P ev : P ev = true → pres (out P) never (emit ev).
Proof.
  intros HP w w' r [= <- <-]. split; [|done]. split; [done|].
  exists [ev]. simpl. by rewrite HP.
Qed.

Lemma next_io_out P : pres (out P) never next_io.
Proof.
  intros w w' r [= <- <-]. split; [|done]. split; [done|].
  exists []. by rewrite app_nil_r.
Qed.

Lemma bplog_out P e : P (EvLog e) = true → pres (out P) never (bplog e).
Proof. intros HP. apply pres_bind; [by apply emit_out|intros; apply pres_ret]. Qed.

Lemma lock_out P l : P (EvLock l) = true → pres (out P) never (bplib_os_lock l).
Proof. apply emit_out. Qed.
Lemma unlock_out P l : P (EvUnlock l) = true → pres (out P) never (bplib_os_unlock l).
Proof. apply emit_out. Qed.
Lemma signal_out P l : P (EvSignal l) = true → pres (out P) never (bplib_os_signal l).
Proof. apply emit_out. Qed.

Lemma waiton_out P l t : P (EvWaiton l t) = true → pres (out P) never (bplib_os_waiton l t).
Proof.
  intros HP w w' r [= <- <-]. split; [|done]. split; [done|].
  exists [EvWaiton l t]. simpl. by rewrite HP.
Qed.

Ltac act_side :=
  let w := fresh "w" in
  intros w; repeat case_match; simpl; eauto.

Lemma fopen_out P name mode : P (EvOpen name mode) = true → pres (out P) never (fopen name mode).
Proof.
  intros HP. unfold fopen.
  apply pres_bind; [by apply emit_out|intros _].
  apply pres_bind; [apply next_io_out|intros r].
  apply act_out. act_side.
Qed.

Lemma fclose_out P fd : P (EvClose fd) = true → pres (out P) never (fclose fd).
Proof.
  intros HP. unfold fclose.
  apply pres_bind; [by apply emit_out|intros _].
  apply act_out. act_side.
Qed.

Lemma fread_out P fd n :
  (∀ k, P (EvRead fd n k) = true) → pres (out P) never (fread fd n).
Proof.
  intros HP. unfold fread.
  apply pres_bind; [apply next_io_out|intros r].
  intros w w' res H. unfold act in H. injection H as <- <-. split; [|done].
  split; [done|]. eexists [_]. split; [done|]. simpl. by rewrite HP.
Qed.

Lemma fwrite_out P fd data :
  (∀ k, P (EvWrite fd (len data) k) = true) → pres (out P) never (fwrite fd data).
Proof.
  intros HP. unfold fwrite.
  apply pres_bind; [apply next_io_out|intros r].
  intros w w' res H. unfold act in H.
  destruct (w_streams w !! fd) as [s|]; injection H as <- <-; (split; [|done]).
  - split.
    + unfold same_fs. simpl. by destruct (bool_decide (written (st_mode s) r data = [])).
    + eexists [_]. split; [|simpl; by rewrite HP].
      simpl. by destruct (bool_decide (written (st_mode s) r data = [])).
  - split; [done|]. eexists [_]. split; [done|]. simpl. by rewrite HP.
Qed.

Lemma fseek_out P fd off wh : P (EvSeek fd) = true → pres (out P) never (fseek fd off wh).
Proof.
  intros HP. unfold fseek.
  apply pres_bind; [by apply emit_out|intros _].
  apply pres_bind; [apply next_io_out|intros r].
  apply act_out. act_side.
Qed.

Lemma fflush_out P fd : P (EvFlush fd) = true → pres (out P) never (fflush fd).
Proof.
  intros HP. unfold fflush.
  apply pres_bind; [by apply emit_out|intros _].
  apply pres_bind; [apply next_io_out|intros r].
  apply pres_ret.
Qed.

Lemma remove_out P name : P (EvRemove name) = true → pres (out P) never (remove name).
Proof.
  intros HP. unfold remove.
  apply pres_bind; [by apply emit_out|intros _].
  apply pres_bind; [apply next_io_out|intros r].
  apply act_out. act_side.
Qed.

Lemma malloc_out P size : (∀ p, P (EvMalloc p size) = true) → pres (out P) never (malloc size).
Proof.
  intros HP w w' r [= <- <-]. split; [|done]. split; [done|].
  eexists [_]. split; [done|]. simpl. by rewrite HP.
Qed.

Lemma free_out P p : (∀ a, P (EvFree a) = true) → pres (out P) never (free p).
Proof.
  intros HP. destruct p as [a|]; simpl; [|apply pres_ret].
  apply pres_bind; [by apply emit_out|intros _].
  apply act_out. act_side.
Qed.

Lemma store_bytes_out P p data : pres (out P) never (store_bytes p data).
Proof.
  intros w w' r [= <- <-]. split; [|done]. split; [done|].
  exists []. by rewrite app_nil_r.
Qed.

Lemma fread_into_out P p fd n :
  (∀ k, P (EvRead fd n k) = true) → pres (out P) never (fread_into p fd n).
Proof.
  intros HP. unfold fread_into.
  apply pres_bind; [by apply fread_out|intros data].
  apply pres_bind; [apply store_bytes_out|intros _].
  apply pres_ret.
Qed.

Lemma logged_weaken (P P' : event → bool) w w' :
  (∀ e, P e = true → P' e = true) → logged P w w' → logged P' w w'.
Proof.
  intros HP (evs & H & F). exists evs. split; [done|].
  rewrite forallb_forall in *. intros e He. by apply HP, F.
Qed.

Lemma put_keeps {X} (π : file_store_t → X) P E f :
  (∀ fs, π (f fs) = π fs) → pres (keeps π P) E (put f).
Proof.
  intros Hf. apply pres_put. intros w. split; [apply Hf|].
  exists []. by rewrite app_nil_r.
Qed.

Lemma act_keeps {A X} (π : file_store_t → X) P E (f : world → world * res A) :
  (∀ w, w_fs (f w).1 = w_fs w ∧ w_log (f w).1 = w_log w ∧ ∃ a, (f w).2 = Val a) →
  pres (keeps π P) E (act f).
Proof. intros. by apply pres_out, act_out. Qed.

Lemma bplog_return {A X} (π : file_store_t → X) P (E : bp_status → Prop) c :
  P (EvLog c) = true → E c → pres (keeps π P) E (e ← bplog c; @return_ A e).
Proof.
  intros HP HE w w' r H. unfold bplog, emit in H. injection H as <- <-. split; [|done].
  split; [done|]. exists [EvLog c]. simpl. by rewrite HP.
Qed.

(** Event classes. *)
Definition any_ev (e : event) : bool := true.
Definition is_lock_ev (e : event) : bool :=
  match e with
  | EvLock _ | EvUnlock _ | EvWaiton _ _ => true
  | _ => false
  end.
Definition no_lock (e : event) : bool := negb (is_lock_ev e).

Ltac pres_side :=
  first [ reflexivity | done | intros; reflexivity | intros; done ].

Ltac pres_step :=
  lazymatch goal with
  | |- pres _ _ (mbind (λ e, return_ e) (bplog _)) => apply bplog_return; pres_side
  | |- pres _ _ (mbind _ _) => apply pres_bind; [|intros ?]
  | |- pres _ _ (mret _) => apply pres_ret
  | |- pres _ _ (return_ _) => apply pres_return; pres_side
  | |- pres _ _ (get _) => apply pres_get
  | |- pres _ _ (put _) => apply put_keeps; pres_side
  | |- pres _ _ (act _) => apply act_keeps; act_side
  | |- pres _ _ (bplog _) => apply pres_out, bplog_out; pres_side
  | |- pres _ _ (bplib_os_lock _) => apply pres_out, lock_out; pres_side
  | |- pres _ _ (bplib_os_unlock _) => apply pres_out, unlock_out; pres_side
  | |- pres _ _ (bplib_os_signal _) => apply pres_out, signal_out; pres_side
  | |- pres _ _ (bplib_os_waiton _ _) => apply pres_out, waiton_out; pres_side
  | |- pres _ _ (fopen _ _) => apply pres_out, fopen_out; pres_side
  | |- pres _ _ (fclose _) => apply pres_out, fclose_out; pres_side
  | |- pres _ _ (fread _ _) => apply pres_out, fread_out; pres_side
  | |- pres _ _ (fwrite _ _) => apply pres_out, fwrite_out; pres_side
  | |- pres _ _ (fseek _ _ _) => apply pres_out, fseek_out; pres_side
  | |- pres _ _ (fflush _) => apply pres_out, fflush_out; pres_side
  | |- pres _ _ (remove _) => apply pres_out, remove_out; pres_side
  | |- pres _ _ (malloc _) => apply pres_out, malloc_out; pres_side
  | |- pres _ _ (free _) => apply pres_out, free_out; pres_side
  | |- pres _ _ (fread_into _ _ _) => apply pres_out, fread_into_out; pres_side
  | |- pres _ _ (match ?x with _ => _ end) => destruct x
  end.

Ltac pres_go := repeat pres_step.

Section frames.
Context {X : Type} (π : file_store_t → X) (P : event → bool) (E : bp_status → Prop).
Hypothesis P_io : ∀ e, no_lock e = true → P e = true.
Hypothesis E_failed : E BP_FAILEDSTORE.

Local Ltac side := first [ pres_side | apply E_failed | intros; apply P_io; reflexivity ].

Local Ltac go :=
  repeat lazymatch goal with
  | |- pres _ _ (mbind (λ e, return_ e) (bplog _)) => apply bplog_return; side
  | |- pres _ _ (bplog _) => apply pres_out, bplog_out; side
  | |- pres _ _ (bplib_os_signal _) => apply pres_out, signal_out; side
  | |- pres _ _ (fopen _ _) => apply pres_out, fopen_out; side
  | |- pres _ _ (fclose _) => apply pres_out, fclose_out; side
  | |- pres _ _ (fread _ _) => apply pres_out, fread_out; side
  | |- pres _ _ (fwrite _ _) => apply pres_out, fwrite_out; side
  | |- pres _ _ (fseek _ _ _) => apply pres_out, fseek_out; side
  | |- pres _ _ (fflush _) => apply pres_out, fflush_out; side
  | |- pres _ _ (remove _) => apply pres_out, remove_out; side
  | |- pres _ _ (malloc _) => apply pres_out, malloc_out; side
  | |- pres _ _ (free _) => apply pres_out, free_out; side
  | |- pres _ _ (fread_into _ _ _) => apply pres_out, fread_into_out; side
  | |- pres _ _ (put _) => apply put_keeps; side
  | |- pres _ _ (return_ _) => apply pres_return; side
  | |- _ => pres_step
  end.

Lemma skip_records_keeps cleanup fd n :
  pres (keeps π P) E cleanup → pres (keeps π P) E (skip_records cleanup fd n).
Proof.
  intros Hc. induction n as [|n IH]; simpl; [apply pres_ret|]. go; done.
Qed.

Lemma open_dat_file_keeps svc rt fid ro : pres (keeps π P) E (open_dat_file svc rt fid ro).
Proof. unfold open_dat_file. go. Qed.

Lemma open_tbl_file_keeps svc rt fid ro : pres (keeps π P) E (open_tbl_file svc rt fid ro).
Proof. unfold open_tbl_file. go. Qed.

Lemma enqueue_write_keeps fd handle d1 d2 :
  pres (keeps π P) E (enqueue_write fd handle d1 d2).
Proof. unfold enqueue_write. go. Qed.

Lemma enqueue_open_keeps data_id :
  (∀ v fs, π (set_write_fd v fs) = π fs) →
  pres (keeps π P) E (enqueue_open data_id).
Proof.
  intros Hπ. unfold enqueue_open.
  go; first [ apply open_dat_file_keeps | apply Hπ
            | apply skip_records_keeps, pres_ret ].
Qed.
End frames.

(** Running the steps that touch only the store record. *)
Lemma bind_get {A B} (f : file_store_t → A) (k : A → M B) w :
  (get f ≫= k) w = k (f (w_fs w)) w.
Proof. done. Qed.
Lemma bind_put {B} f (k : unit → M B) w : (put f ≫= k) w = k tt (with_fs f w).
Proof. done. Qed.
Lemma bind_mret {A B} (a : A) (k : A → M B) w : (mret a ≫= k) w = k a w.
Proof. done. Qed.
Lemma bind_return {A B} e (k : A → M B) w : (return_ e ≫= k) w = (w, Ret e).
Proof. done. Qed.
Lemma bind_emit {B} ev (k : unit → M B) w :
  (emit ev ≫= k) w = k tt (with_log (w_log w ++ [ev]) w).
Proof. done. Qed.
Lemma bind_waiton {B} l t (k : bp_status → M B) w :
  (bplib_os_waiton l t ≫= k) w =
  k (default BP_TIMEOUT (head (w_wait w)))
    (with_wait (tail (w_wait w)) (with_log (w_log w ++ [EvWaiton l t]) w)).
Proof. done. Qed.
Lemma bind_next_io {B} (k : io_resp → M B) w :
  (next_io ≫= k) w = k (default IoOk (head (w_io w))) (with_io (tail (w_io w)) w).
Proof. done. Qed.
Lemma bind_act {A B} (f : world → world * res A) (k : A → M B) w :
  (act f ≫= k) w = match f w with (w', Val a) => k a w' | (w', Ret e) => (w', Ret e) end.
Proof. done. Qed.
Lemma bind_assoc {A B C} (m : M A) (f : A → M B) (g : B → M C) w :
  ((m ≫= f) ≫= g) w = (m ≫= (λ a, f a ≫= g)) w.
Proof. unfold mbind, M_bind. destruct (m w) as [w1 [a|e]]; done. Qed.

Ltac msimpl :=
  repeat first [ rewrite bind_get | rewrite bind_put | rewrite bind_mret
               | rewrite bind_return | rewrite bind_emit | rewrite bind_waiton
               | rewrite bind_assoc | rewrite bind_act; cbv beta iota ].
Ltac msimpl_in H :=
  repeat first [ rewrite bind_get in H | rewrite bind_put in H | rewrite bind_mret in H
               | rewrite bind_return in H | rewrite bind_emit in H
               | rewrite bind_waiton in H | rewrite bind_assoc in H
               | rewrite bind_act in H; cbv beta iota in H ].

(** Split a run of [m ≫= k] at the end of [m]. *)
Tactic Notation "binv" hyp(H) "as" ident(w1) ident(a) ident(H1) :=
  apply bind_inv in H as [(w1 & a & H1 & H)|(? & H1 & ?)].

Lemma keeps_view {A X} (π : file_store_t → X) P E (m : M A) w w' r :
  pres (keeps π P) E m → m w = (w', r) → π (w_fs w') = π (w_fs w).
Proof. intros Hm H. by apply Hm in H as [[H _] _]. Qed.

Lemma keeps_fs {A} (m : M A) w w' r :
  pres (keeps id any_ev) (λ _, True) m → m w = (w', r) → w_fs w' = w_fs w.
Proof. apply (keeps_view id). Qed.

Lemma keeps_code {A X} (π : file_store_t → X) P E (m : M A) w w' e :
  pres (keeps π P) E m → m w = (w', Ret e) → E e.
Proof. intros Hm H. by apply Hm in H as [_ H]. Qed.

(** ** Enqueue: what each part does to the store record *)

Lemma enqueue_open_fd d w w1 fd :
  enqueue_open d w = (w1, Val fd) → write_fd (w_fs w1) = Some fd.
Proof.
  unfold enqueue_open. intros H. msimpl_in H.
  destruct (write_fd (w_fs w)) as [f|] eqn:Hfd.
  - injection H as <- <-. done.
  - msimpl_in H. binv H as w0 ofd Ho; [|done]. msimpl_in H.
    destruct ofd as [f|]; [|by binv H as w2 a H2].
    msimpl_in H. binv H as w2 a H2; [|done].
    injection H as <- <-.
    apply keeps_fs in H2 as ->; [done|].
    pres_go. apply skip_records_keeps; [done..|apply pres_ret].
Qed.

(** The views of the store record that enqueue leaves alone until it has
    checked the writes. *)
Definition but_write_fd (fs : file_store_t) : file_store_t := set_write_fd None fs.

Lemma enqueue_open_frame d :
  pres (keeps but_write_fd no_lock) (λ e, e = BP_FAILEDSTORE) (enqueue_open d).
Proof. by apply enqueue_open_keeps. Qed.

Lemma enqueue_write_frame fd h d1 d2 :
  pres (keeps id no_lock) never (enqueue_write fd h d1 d2).
Proof.
  unfold enqueue_write.
  repeat lazymatch goal with
  | |- pres _ _ (bplog _) => apply pres_out, bplog_out; reflexivity
  | |- _ => pres_step
  end.
Qed.

(** The test of "Check Errors and Return Status". *)
Definition write_failed (object_size : Z) (r : Z * bool) : bool :=
  bool_decide (r.1 ≠ object_size + 4) || r.2.

Lemma enqueue_finish_failed fd osz r w :
  write_failed osz r = true → write_fd (w_fs w) = Some fd →
  enqueue_finish fd osz r w =
    (with_log (w_log w ++ [EvClose fd; EvLog BP_FAILEDSTORE])
       (with_fs (λ fs, set_write_fd None (set_write_error true fs))
          (with_streams (delete fd) w)), Ret BP_FAILEDSTORE).
Proof.
  destruct r as [bw fe]. unfold write_failed, enqueue_finish. simpl. intros -> Hfd.
  msimpl. simpl. rewrite Hfd. unfold fclose, bplog. rewrite !bind_assoc. msimpl.
  destruct w as [fs []].
  unfold mbind, M_bind, act, with_log, with_fs, with_streams, return_. simpl.
  by rewrite <- (assoc_L (++)).
Qed.

Lemma enqueue_finish_ok fd osz r w :
  write_failed osz r = false →
  ∃ w', enqueue_finish fd osz r w = (w', Val BP_SUCCESS) ∧
        write_data_id (w_fs w') = u64 (write_data_id (w_fs w) + 1) ∧
        data_count (w_fs w') = i32 (data_count (w_fs w) + 1) ∧
        write_error (w_fs w') = false ∧
        read_data_id (w_fs w') = read_data_id (w_fs w) ∧
        in_use (w_fs w') = in_use (w_fs w) ∧
        write_fd (w_fs w') =
          (if write_data_id (w_fs w) mod FILE_DATA_COUNT =? 0 then None else write_fd (w_fs w)) ∧
        logged no_lock w w'.
Proof.
  destruct r as [bw fe]. unfold write_failed, enqueue_finish. simpl. intros ->.
  msimpl. destruct (_ =? 0) eqn:Hfull.
  - unfold fclose, bplib_os_signal. rewrite !bind_assoc. msimpl.
    eexists. split; [reflexivity|]. simpl. repeat split; try done.
    exists [EvClose fd; EvSignal (lock (w_fs w))]. split; [|done].
    simpl. by rewrite <- (assoc_L (++)).
  - unfold bplib_os_signal. msimpl.
    eexists. split; [reflexivity|]. simpl. repeat split; try done.
    by exists [EvSignal (lock (w_fs w))].
Qed.

(** What "Check Need to Open Write File" does after a failed write: the
    bucket file of [data_id] is opened again, the stream is set to the
    start of the file and [GET_DATAOFFSET data_id] records are stepped
    over. *)
Definition enqueue_replay (data_id : Z) : M positive :=
  svc ← get service_id;
  rt ← get root;
  ofd ← open_dat_file (i32 svc) rt (GET_FILEID data_id) false;
  put (set_write_fd ofd);;
  match ofd with
  | None => e ← bplog BP_FAILEDSTORE; return_ e
  | Some fd =>
      seek_status ← fseek fd 0 SEEK_SET;
      (if seek_status <? 0 then e ← bplog BP_FAILEDSTORE; return_ e
       else skip_records (mret tt) fd (Z.to_nat (GET_DATAOFFSET data_id)));;
      mret fd
  end.

Lemma enqueue_open_replay d w :
  write_fd (w_fs w) = None → write_error (w_fs w) = true →
  enqueue_open d w = enqueue_replay d w.
Proof.
  intros Hfd Herr. unfold enqueue_open, enqueue_replay. msimpl. rewrite Hfd. msimpl.
  destruct (open_dat_file (i32 (service_id (w_fs w))) (root (w_fs w)) (GET_FILEID d) false w)
    as [w1 [ofd|e]] eqn:Ho.
  - rewrite !(bind_val _ _ _ _ _ Ho). msimpl.
    destruct ofd as [fd|]; [|done]. msimpl. simpl.
    apply keeps_fs in Ho as ->; [|apply open_dat_file_keeps; done].
    rewrite Herr. by rewrite bind_assoc.
  - by rewrite !(bind_ret _ _ _ _ _ Ho).
Qed.

Lemma enqueue_open_view d w w' r :
  enqueue_open d w = (w', r) →
  but_write_fd (w_fs w') = but_write_fd (w_fs w) ∧
  match r with Ret e => e = BP_FAILEDSTORE | Val _ => True end.
Proof. intros H. by apply enqueue_open_frame in H as [[H _] He]. Qed.

Lemma enqueue_write_fs fd h d1 d2 w w' r :
  enqueue_write fd h d1 d2 w = (w', r) → w_fs w' = w_fs w ∧ ∃ x, r = Val x.
Proof.
  intros H. apply enqueue_write_frame in H as [[H _] He].
  split; [done|]. destruct r; [eauto|done].
Qed.

Lemma enqueue_run h d1 d2 t w w' r :
  call (bplib_store_file_enqueue h d1 d2 t) w = (w', r) →
  let data_id := GET_DATAID (write_data_id (w_fs w)) in
  let object_size := u32 (HDR_SIZE + u32 (len d1 + len d2)) in
  (* the open failed *)
  (r = BP_FAILEDSTORE ∧ but_write_fd (w_fs w') = but_write_fd (w_fs w) ∧
   ∃ e, enqueue_open data_id w = (w', Ret e)) ∨
  (* the open went through *)
  (∃ w1 fd w2 x,
     enqueue_open data_id w = (w1, Val fd) ∧
     enqueue_write fd h d1 d2 w1 = (w2, Val x) ∧
     but_write_fd (w_fs w2) = but_write_fd (w_fs w) ∧
     write_fd (w_fs w2) = Some fd ∧
     call (enqueue_finish fd object_size x) w2 = (w', r)).
Proof.
  intros H data_id object_size. unfold call, bplib_store_file_enqueue in H. msimpl_in H.
  fold data_id object_size in H.
  match type of H with match ?x with _ => _ end = _ => destruct x as [w0 r0] eqn:Hrun end.
  assert (match r0 with Val e | Ret e => e = r end ∧ w0 = w') as [Hr ->].
  { by destruct r0; injection H as <- <-. }
  clear H. binv Hrun as w1 fd Ho.
  - binv Hrun as w2 x Hw.
    + right. exists w1, fd, w2, x.
      pose proof (enqueue_open_fd _ _ _ _ Ho) as Hfd.
      apply enqueue_open_view in Ho as Hv. destruct Hv as [Hv _].
      apply enqueue_write_fs in Hw as Hf. destruct Hf as [Hf _].
      split_and!; [done|done|by rewrite Hf|by rewrite Hf|].
      unfold call. rewrite Hrun. by destruct r0; subst.
    + apply enqueue_write_fs in Hw as [_ [? ?]]. done.
  - left. subst r0. subst r. apply enqueue_open_view in Ho as Hv. destruct Hv as [Hv ->].
    split_and!; eauto.
Qed.

(** Enqueue returns [BP_SUCCESS] or [BP_FAILEDSTORE]; it moves
    [write_data_id] and [data_count] when, and only when, it succeeds, and
    it never touches the read side. *)
Lemma enqueue_result h d1 d2 t w w' r :
  call (bplib_store_file_enqueue h d1 d2 t) w = (w', r) →
  in_use (w_fs w') = in_use (w_fs w) ∧
  read_data_id (w_fs w') = read_data_id (w_fs w) ∧
  ((r = BP_SUCCESS ∧
    write_data_id (w_fs w') = u64 (write_data_id (w_fs w) + 1) ∧
    data_count (w_fs w') = i32 (data_count (w_fs w) + 1) ∧
    write_error (w_fs w') = false) ∨
   (r = BP_FAILEDSTORE ∧
    write_data_id (w_fs w') = write_data_id (w_fs w) ∧
    data_count (w_fs w') = data_count (w_fs w))).
Proof.
  intros H. apply enqueue_run in H as [(-> & Hv & _)|(w1 & fd & w2 & x & Ho & Hw & Hv & Hfd & H)].
  - apply (f_equal write_data_id) in Hv as H1. apply (f_equal data_count) in Hv as H2.
    apply (f_equal in_use) in Hv as H3. apply (f_equal read_data_id) in Hv as H4.
    split_and!; [done..|]. right. done.
  - apply (f_equal write_data_id) in Hv as H1. apply (f_equal data_count) in Hv as H2.
    apply (f_equal in_use) in Hv as H3. apply (f_equal read_data_id) in Hv as H4.
    simpl in H1, H2, H3, H4. unfold call in H.
    destruct (write_failed (u32 (HDR_SIZE + u32 (len d1 + len d2))) x) eqn:Hx.
    + rewrite (enqueue_finish_failed _ _ _ _ Hx Hfd) in H. injection H as <- <-.
      simpl. split_and!; [done..|]. right. by rewrite H1, H2.
    + destruct (enqueue_finish_ok fd _ _ w2 Hx) as (w3 & Hf & Hwid & Hdc & Herr & Hrd & Hu & _).
      rewrite Hf in H. injection H as <- <-.
      split_and!; [congruence..|]. left. by rewrite Hwid, Hdc, H1, H2.
Qed.

(** ** The failure path of enqueue *)

(** When [bplib_store_file_enqueue] suffers a partial write or a flush
    failure it returns [BP_FAILEDSTORE], sets [write_error], closes the
    write stream and clears [write_fd], and leaves [write_data_id] and
    [data_count] as they were; and whatever a call to enqueue does,
    [write_data_id] and [data_count] are incremented when it returns
    [BP_SUCCESS] and unchanged otherwise. *)
Lemma enqueue_failure_outcome (w : world) (handle : Z) (d1 d2 : list byte)
    (timeout : Z) :
  let data_id := GET_DATAID (write_data_id (w_fs w)) in
  let object_size := u32 (HDR_SIZE + u32 (len d1 + len d2)) in
  (∀ w1 fd w2 x,
     enqueue_open data_id w = (w1, Val fd) →
     enqueue_write fd handle d1 d2 w1 = (w2, Val x) →
     write_failed object_size x = true →
     ∃ w', call (bplib_store_file_enqueue handle d1 d2 timeout) w = (w', BP_FAILEDSTORE) ∧
           write_error (w_fs w') = true ∧
           write_fd (w_fs w') = None ∧
           w_streams w' !! fd = None ∧
           write_data_id (w_fs w') = write_data_id (w_fs w) ∧
           data_count (w_fs w') = data_count (w_fs w))
  ∧
  (∀ w' r,
     call (bplib_store_file_enqueue handle d1 d2 timeout) w = (w', r) →
     if bool_decide (r = BP_SUCCESS) then
       write_data_id (w_fs w') = u64 (write_data_id (w_fs w) + 1) ∧
       data_count (w_fs w') = i32 (data_count (w_fs w) + 1)
     else
       write_data_id (w_fs w') = write_data_id (w_fs w) ∧
       data_count (w_fs w') = data_count (w_fs w)).
Proof.
  intros data_id object_size. split.
  - intros w1 fd w2 x Ho Hw Hx.
    destruct (call (bplib_store_file_enqueue handle d1 d2 timeout) w) as [w' r] eqn:Hcall.
    apply enqueue_run in Hcall as Hrun.
    destruct Hrun as [(_ & _ & e & He)|(w1' & fd' & w2' & x' & Ho' & Hw' & Hv & Hfd & H)].
    { fold data_id in He. congruence. }
    fold data_id in Ho'. rewrite Ho in Ho'. injection Ho' as <- <-.
    rewrite Hw in Hw'. injection Hw' as <- <-.
    unfold call in H. fold object_size in H.
    rewrite (enqueue_finish_failed _ _ _ _ Hx Hfd) in H. injection H as <- <-.
    eexists. split; [reflexivity|].
    apply (f_equal write_data_id) in Hv as H1. apply (f_equal data_count) in Hv as H2.
    simpl in H1, H2. simpl. split_and!; try done.
    apply lookup_delete_eq.
  - intros w' r H.
    apply enqueue_result in H as (_ & _ & [(-> & ? & ? & _)|(-> & ? & ?)]); done.
Qed.

(** ** Concrete runs *)

(** Store number 0, created right after start-up with a cache of [csz]
    slots, in an environment with no files, whose coming stdio and wait
    outcomes after the create are [io] and [waits]. *)
Definition fresh_store (csz : Z) (io : list io_resp) (waits : list bp_status) : world :=
  let s := (bplib_store_file_create
              (Some {| root_path := None; attr_cache_size := csz |}) (boot empty_env)).1 in
  with_wait waits (with_io io (focus s (file_stores s !!! 0%nat))).

(** The world after the calls in [ms], one after the other. *)
Definition after (ms : list (M bp_status)) (w : world) : world :=
  foldl (λ w m, (call m w).1) w ms.

(** The bytes of the object that [p] points to. *)
Definition object_at (w : world) (p : ptr) : list byte :=
  match p with
  | Some a => default [] (w_heap w !! a)
  | None => []
  end.

(** The position of the stream behind [fd]. *)
Definition position (w : world) (fd : BP_FILE) : option Z :=
  match fd with
  | Some f => st_pos <$> w_streams w !! f
  | None => None
  end.

(** Enqueue of the one-byte payload [b] on handle 0. *)
Definition enqueue1 (b : byte) : M bp_status := bplib_store_file_enqueue 0 [b] [] 0.

(** ** C1 *)

(** C1 (the code departs from the claim).  A store is created with a cache
    of 4 slots and the payloads "a" and "b" are enqueued with success, so
    that "b" is the record of sid 2.  Nothing is in the cache.  Retrieve of
    sid 2 opens the bucket file and, [offset_delta] being 0 for a stream
    just opened, reads the first record of the file: it returns
    [BP_SUCCESS] with an object stamped with sid 2 whose size field is 1
    and whose payload is "a", not the "b" enqueued under sid 2. *)
Theorem retrieve_after_enqueue_reads_first_record :
  let w0 := fresh_store 4 [] [] in
  let w1 := (call (enqueue1 97) w0).1 in
  let w2 := (call (enqueue1 98) w1).1 in
  let w3 := (call (bplib_store_file_retrieve 2 0) w2).1 in
  (call (enqueue1 97) w0).2 = BP_SUCCESS ∧ write_data_id (w_fs w0) = 1 ∧
  (call (enqueue1 98) w1).2 = BP_SUCCESS ∧ write_data_id (w_fs w1) = 2 ∧
  (call (bplib_store_file_retrieve 2 0) w2).2 = BP_SUCCESS ∧
  object_sid (object_at w3 (w_object w3)) = 2 ∧
  object_size_field (object_at w3 (w_object w3)) = 1 ∧
  object_payload (object_at w3 (w_object w3)) = [97] ∧
  object_payload (object_at w3 (w_object w3)) ≠ [98] ++ [].
Proof. cbv zeta. split_and!; by vm_compute. Qed.

(** The same defect with the retrieve stream already open: after a
    retrieve of sid 1 the stream stands behind record 0, and the retrieve
    of sid 2 steps over [data_offset - prev_data_offset = 1] more record
    and returns the payload "c" of sid 3. *)
Lemma retrieve_next_reads_one_too_far :
  let w := after [enqueue1 97; enqueue1 98; enqueue1 99; bplib_store_file_retrieve 1 0]
             (fresh_store 4 [] []) in
  let w' := (call (bplib_store_file_retrieve 2 0) w).1 in
  (call (bplib_store_file_retrieve 2 0) w).2 = BP_SUCCESS ∧
  object_sid (object_at w' (w_object w')) = 2 ∧
  object_payload (object_at w' (w_object w')) = [99].
Proof. cbv zeta. split_and!; by vm_compute. Qed.

(** ** C3 *)

(** The timeout on an empty queue leaves everything but the log and the
    pending wait outcomes as it was. *)
Lemma dequeue_empty_timeout (w : world) (timeout : Z) :
  read_data_id (w_fs w) = write_data_id (w_fs w) →
  head (w_wait w) ≠ Some BP_ERROR →
  ∃ w', call (bplib_store_file_dequeue timeout) w = (w', BP_TIMEOUT) ∧
        w_fs w' = w_fs w ∧ w_disk w' = w_disk w ∧ w_streams w' = w_streams w ∧
        w_heap w' = w_heap w ∧ w_object w' = w_object w ∧ w_io w' = w_io w.
Proof.
  intros Heq Hwait.
  unfold call, bplib_store_file_dequeue, dequeue_wait, bplib_os_lock, bplib_os_unlock.
  msimpl. simpl.
  rewrite Heq, Z.eqb_refl. msimpl. simpl.
  destruct (head (w_wait w)) as [[]|]; simpl; try done; msimpl; simpl;
    rewrite ?Heq, ?Z.eqb_refl; msimpl; simpl; (eexists; split; [reflexivity|done]).
Qed.

(** C3 (the code departs from the claim).  A store with a cache of one slot
    holds the records "a", "b", "c" (sids 1, 2, 3); the first dequeue has
    delivered sid 1 and holds the slot locked.  The second dequeue reads
    record "b", finds the slot locked, waits, times out and returns
    [BP_TIMEOUT]: [read_data_id] is still 2, the error flags, the count,
    the cache and the heap are as before (the block it had allocated is
    freed), but the read stream has moved from offset 21 to offset 42,
    behind record "b".  After the slot has been released, the next dequeue
    succeeds and delivers an object stamped with sid 2 whose payload is
    "c": the record "b" is never delivered. *)
Theorem dequeue_timeout_moves_read_position :
  let w := after [enqueue1 97; enqueue1 98; enqueue1 99; bplib_store_file_dequeue 0]
             (fresh_store 1 [] []) in
  let w1 := (call (bplib_store_file_dequeue 0) w).1 in
  let w2 := (call (bplib_store_file_release 1) w1).1 in
  let w3 := (call (bplib_store_file_dequeue 0) w2).1 in
  (call (bplib_store_file_dequeue 0) w).2 = BP_TIMEOUT ∧
  read_data_id (w_fs w) = 2 ∧ read_data_id (w_fs w1) = 2 ∧
  write_data_id (w_fs w1) = write_data_id (w_fs w) ∧
  data_count (w_fs w1) = data_count (w_fs w) ∧
  read_error (w_fs w1) = read_error (w_fs w) ∧
  cache (w_fs w1) = cache (w_fs w) ∧
  map_to_list (w_heap w1) = map_to_list (w_heap w) ∧
  read_fd (w_fs w1) = read_fd (w_fs w) ∧
  position w (read_fd (w_fs w)) = Some 21 ∧
  position w1 (read_fd (w_fs w1)) = Some 42 ∧
  (call (bplib_store_file_release 1) w1).2 = BP_SUCCESS ∧
  (call (bplib_store_file_dequeue 0) w2).2 = BP_SUCCESS ∧
  object_sid (object_at w3 (w_object w3)) = 2 ∧
  object_payload (object_at w3 (w_object w3)) = [99].
Proof. cbv zeta. split_and!; by vm_compute. Qed.

(** ** C6 *)

(** A retrieve that finds its object in the cache hands out the cached
    pointer between a lock and an unlock and does nothing else: no stdio
    call is made, and the store record, the lock state of the slot
    included, is as it was. *)
Lemma retrieve_cache_hit (w : world) (sid timeout : Z) (p : positive) :
  let data_id := GET_DATAID sid in
  let e := cache_at (w_fs w) (cache_index_of data_id (w_fs w)) in
  mem_ptr e = Some p → mem_data_id e = data_id →
  call (bplib_store_file_retrieve sid timeout) w =
    (with_log (w_log w ++ [EvLock (lock (w_fs w)); EvUnlock (lock (w_fs w))])
       (with_object (Some p) w), BP_SUCCESS).
Proof.
  intros data_id e Hp Hid.
  unfold call, bplib_store_file_retrieve, bplib_os_lock, bplib_os_unlock. msimpl. simpl.
  fold data_id. fold e. rewrite Hp, Hid, Z.eqb_refl. msimpl.
  destruct w as [fs []]. unfold with_log, with_object. simpl.
  by rewrite <- (assoc_L (++)).
Qed.

(** C6 (the code departs from the claim).  The payload "a" is enqueued,
    dequeued as sid 1, which places it locked in slot 0 of a cache of 4,
    and released, which unlocks the slot.  Retrieve of sid 1 then returns
    [BP_SUCCESS] with the cached pointer and makes no stdio call (its only
    calls are the lock and the unlock), but the slot is not locked when it
    returns: [mem_locked] is still [FILE_MEM_AVAIABLE]. *)
Theorem retrieve_cache_hit_leaves_slot_unlocked :
  let w := after [enqueue1 97; bplib_store_file_dequeue 0; bplib_store_file_release 1]
             (fresh_store 4 [] []) in
  let slot := cache_index_of (GET_DATAID 1) (w_fs w) in
  let w' := (call (bplib_store_file_retrieve 1 0) w).1 in
  mem_ptr (cache_at (w_fs w) slot) = Some 1%positive ∧
  mem_data_id (cache_at (w_fs w) slot) = GET_DATAID 1 ∧
  (call (bplib_store_file_retrieve 1 0) w).2 = BP_SUCCESS ∧
  w_object w' = mem_ptr (cache_at (w_fs w) slot) ∧
  object_payload (object_at w' (w_object w')) = [97] ∧
  w_log w' = w_log w ++ [EvLock 0; EvUnlock 0] ∧
  map_to_list (w_disk w') = map_to_list (w_disk w) ∧
  map_to_list (w_streams w') = map_to_list (w_streams w) ∧
  mem_locked (cache_at (w_fs w') slot) = FILE_MEM_AVAIABLE ∧
  mem_locked (cache_at (w_fs w') slot) ≠ FILE_MEM_LOCKED.
Proof. cbv zeta. split_and!; by vm_compute. Qed.

(** ** C4 *)

(** The cache array has [cache_size] entries, as create leaves it. *)
Definition cache_ok (fs : file_store_t) : Prop :=
  0 < cache_size fs < 2 ^ 31 ∧ len (cache fs) = cache_size fs.

Lemma cache_index_in_range data_id fs :
  cache_ok fs → 0 ≤ data_id →
  (Z.to_nat (cache_index_of data_id fs) < length (cache fs))%nat.
Proof.
  intros [Hsz Hlen] Hd. unfold cache_index_of, u32, len in *.
  rewrite (Z.mod_small (cache_size fs)) by lia.
  pose proof (Z.mod_pos_bound data_id (cache_size fs)) as Hb.
  rewrite Z.mod_small by lia. lia.
Qed.

Lemma GET_DATAID_nonneg sid : 0 ≤ GET_DATAID sid.
Proof. unfold GET_DATAID, u32. apply Z.mod_pos_bound. lia. Qed.

Lemma cache_at_set i e fs :
  (Z.to_nat i < length (cache fs))%nat → cache_at (set_cache_at i e fs) i = e.
Proof.
  intros Hi. unfold cache_at, set_cache_at, cache. simpl.
  by rewrite list_lookup_total_insert_eq.
Qed.

Lemma set_cache_at_twice i e e' fs :
  set_cache_at i e (set_cache_at i e' fs) = set_cache_at i e fs.
Proof.
  unfold set_cache_at, set_data_cache, cache. simpl. by rewrite list_insert_insert_eq.
Qed.

(** The counterexample to C4 as stated: the second of two releases in a
    row of a resident sid returns [BP_SUCCESS], not [BP_FAILEDSTORE]. *)
Lemma release_twice_succeeds_twice :
  let w := after [enqueue1 97; bplib_store_file_dequeue 0] (fresh_store 4 [] []) in
  let slot := cache_index_of (GET_DATAID 1) (w_fs w) in
  let w1 := (call (bplib_store_file_release 1) w).1 in
  mem_ptr (cache_at (w_fs w) slot) ≠ None ∧
  mem_data_id (cache_at (w_fs w) slot) = GET_DATAID 1 ∧
  (call (bplib_store_file_release 1) w).2 = BP_SUCCESS ∧
  (call (bplib_store_file_release 1) w1).2 = BP_SUCCESS ∧
  (call (bplib_store_file_release 1) w1).2 ≠ BP_FAILEDSTORE.
Proof. cbv zeta. split_and!; by vm_compute. Qed.

(** C4 (amended).  When the object of [sid] is resident in its cache slot,
    release returns [BP_SUCCESS] and leaves the slot unlocked and still
    resident, and a second release right after it returns [BP_SUCCESS] as
    well and leaves the store record as the first left it; when the slot
    does not hold the object of [sid], release returns [BP_FAILEDSTORE] and
    leaves the store record as it was. *)
Theorem release_resident_or_not (w : world) (sid : Z) :
  cache_ok (w_fs w) →
  let data_id := GET_DATAID sid in
  let slot := cache_index_of data_id (w_fs w) in
  let e := cache_at (w_fs w) slot in
  let '(w1, r1) := call (bplib_store_file_release sid) w in
  let '(w2, r2) := call (bplib_store_file_release sid) w1 in
  if bool_decide (mem_ptr e ≠ None ∧ mem_data_id e = data_id) then
    r1 = BP_SUCCESS ∧
    cache_at (w_fs w1) slot =
      {| mem_ptr := mem_ptr e; mem_locked := FILE_MEM_AVAIABLE; mem_data_id := data_id |} ∧
    r2 = BP_SUCCESS ∧ w_fs w2 = w_fs w1
  else
    r1 = BP_FAILEDSTORE ∧ w_fs w1 = w_fs w.
Proof.
  intros Hok data_id slot e.
  assert (∀ v, (mem_ptr (cache_at (w_fs v) (cache_index_of data_id (w_fs v))) ≠ None ∧
                mem_data_id (cache_at (w_fs v) (cache_index_of data_id (w_fs v))) = data_id) →
     call (bplib_store_file_release sid) v =
       (with_log (w_log v ++ [EvLock (lock (w_fs v)); EvSignal (lock (w_fs v));
                              EvUnlock (lock (w_fs v))])
          (with_fs (set_cache_at (cache_index_of data_id (w_fs v))
             {| mem_ptr := mem_ptr (cache_at (w_fs v) (cache_index_of data_id (w_fs v)));
                mem_locked := FILE_MEM_AVAIABLE;
                mem_data_id := mem_data_id (cache_at (w_fs v) (cache_index_of data_id (w_fs v))) |}) v),
        BP_SUCCESS)) as Hres.
  { intros v [Hp Hid].
    unfold call, bplib_store_file_release, bplib_os_lock, bplib_os_unlock, bplib_os_signal.
    msimpl. simpl. fold data_id. rewrite Hid, Z.eqb_refl.
    rewrite bool_decide_eq_false_2 by done. simpl. msimpl. simpl.
    destruct v as [fs []]. unfold with_log, with_fs. simpl.
    by rewrite <- !(assoc_L (++)). }
  case_bool_decide as Hres1.
  - rewrite (Hres w Hres1). fold slot e. destruct Hres1 as [Hp Hid].
    pose proof (cache_index_in_range data_id (w_fs w) Hok (GET_DATAID_nonneg sid)) as Hin.
    fold slot in Hin.
    assert (cache_index_of data_id
              (set_cache_at slot {| mem_ptr := mem_ptr e; mem_locked := FILE_MEM_AVAIABLE;
                                    mem_data_id := mem_data_id e |} (w_fs w)) = slot) as Hslot.
    { done. }
    rewrite Hres; simpl; rewrite Hslot, cache_at_set by done; simpl.
    + split_and!; [done|by rewrite Hid|done|].
      apply set_cache_at_twice.
    + done.
  - assert (call (bplib_store_file_release sid) w =
              (with_log (w_log w ++ [EvLock (lock (w_fs w)); EvUnlock (lock (w_fs w));
                                     EvLog BP_FAILEDSTORE]) w, BP_FAILEDSTORE)) as ->.
    { unfold call, bplib_store_file_release, bplib_os_lock, bplib_os_unlock, bplog.
      msimpl. simpl. fold data_id slot e.
      assert (bool_decide (mem_ptr e = None) || negb (mem_data_id e =? data_id) = true) as ->.
      { apply not_and_l in Hres1 as [Hn|Hn].
        - apply dec_stable in Hn. by rewrite bool_decide_eq_true_2.
        - apply orb_true_intro. right. apply negb_true_iff, Z.eqb_neq. done. }
      msimpl. simpl. destruct w as [fs []]. unfold with_log. simpl.
      by rewrite <- !(assoc_L (++)). }
    by destruct (call (bplib_store_file_release sid) _).
Qed.

(** The store after one enqueue and one dequeue: sid 1 is resident and
    locked in slot 0. *)
Definition one_dequeued : world :=
  after [enqueue1 97; bplib_store_file_dequeue 0] (fresh_store 4 [] []).

Lemma one_dequeued_cache_ok : cache_ok (w_fs one_dequeued).
Proof. split; [split|]; by vm_compute. Defined.

Lemma release_resident_or_not_witness :
  let data_id := GET_DATAID 1 in
  let slot := cache_index_of data_id (w_fs one_dequeued) in
  let e := cache_at (w_fs one_dequeued) slot in
  let '(w1, r1) := call (bplib_store_file_release 1) one_dequeued in
  let '(w2, r2) := call (bplib_store_file_release 1) w1 in
  if bool_decide (mem_ptr e ≠ None ∧ mem_data_id e = data_id) then
    r1 = BP_SUCCESS ∧
    cache_at (w_fs w1) slot =
      {| mem_ptr := mem_ptr e; mem_locked := FILE_MEM_AVAIABLE; mem_data_id := data_id |} ∧
    r2 = BP_SUCCESS ∧ w_fs w2 = w_fs w1
  else
    r1 = BP_FAILEDSTORE ∧ w_fs w1 = w_fs one_dequeued.
Proof. exact (release_resident_or_not one_dequeued 1 one_dequeued_cache_ok). Defined.

(** ** Dequeue: what each part does to the store record *)

Section dequeue_frames.
Context {X : Type} (π : file_store_t → X) (E : bp_status → Prop).
Hypothesis E_failed : E BP_FAILEDSTORE.
Hypothesis E_timeout : E BP_TIMEOUT.
Hypothesis π_read_fd : ∀ v fs, π (set_read_fd v fs) = π fs.
Hypothesis π_read_error : ∀ v fs, π (set_read_error v fs) = π fs.
Hypothesis π_data_cache : ∀ v fs, π (set_data_cache v fs) = π fs.

Local Ltac side :=
  first [ pres_side | apply E_failed | apply E_timeout | apply π_read_fd
        | apply π_read_error | apply π_data_cache ].

Local Ltac go :=
  repeat lazymatch goal with
  | |- pres _ _ (mbind (λ e, return_ e) (bplog _)) => apply bplog_return; side
  | |- pres _ _ (put _) => apply put_keeps; intros; side
  | |- pres _ _ (return_ _) => apply pres_return; side
  | |- pres _ _ (skip_records _ _ _) =>
      apply skip_records_keeps; try first [ by intros | side ]
  | |- pres _ _ (open_dat_file _ _ _ _) =>
      apply open_dat_file_keeps; first [ by intros | side ]
  | |- _ => pres_step
  end.

Lemma read_object_keeps fd sid : pres (keeps π any_ev) E (read_object fd sid).
Proof. unfold read_object. go. Qed.

Lemma install_in_cache_keeps lk t ci d p :
  pres (keeps π any_ev) E (install_in_cache lk t ci d p).
Proof. unfold install_in_cache. go. Qed.

Lemma dequeue_wait_keeps lk t : pres (keeps π any_ev) E (dequeue_wait lk t).
Proof. unfold dequeue_wait. go. Qed.

Lemma dequeue_open_keeps lk d : pres (keeps π any_ev) E (dequeue_open lk d).
Proof. unfold dequeue_open. go. Qed.

Lemma dequeue_read_keeps lk fd : pres (keeps π any_ev) E (dequeue_read lk fd).
Proof. unfold dequeue_read. go; apply read_object_keeps. Qed.
End dequeue_frames.

(** The fields that dequeue leaves alone until it has the object in the
    cache. *)
Definition queue_ids (fs : file_store_t) : bool * Z * Z * Z :=
  (in_use fs, write_data_id fs, read_data_id fs, data_count fs).

Definition gave_up (e : bp_status) : Prop := e = BP_FAILEDSTORE ∨ e = BP_TIMEOUT.

Lemma dequeue_wait_val lk t w w' :
  dequeue_wait lk t w = (w', Val tt) → read_data_id (w_fs w) ≠ write_data_id (w_fs w).
Proof.
  unfold dequeue_wait, bplib_os_unlock. intros H Heq. msimpl_in H.
  rewrite Heq, Z.eqb_refl in H. msimpl_in H.
  destruct (bool_decide _); msimpl_in H; [done|]. simpl in H.
  rewrite Heq, Z.eqb_refl, orb_true_r in H. msimpl_in H. done.
Qed.

Lemma dequeue_finish_spec lk fd p w :
  ∃ w', dequeue_finish lk fd p w = (w', Val BP_SUCCESS) ∧
        read_data_id (w_fs w') = u64 (read_data_id (w_fs w) + 1) ∧
        write_data_id (w_fs w') = write_data_id (w_fs w) ∧
        in_use (w_fs w') = in_use (w_fs w) ∧
        data_count (w_fs w') = data_count (w_fs w).
Proof.
  unfold dequeue_finish, bplib_os_unlock, fclose. msimpl.
  destruct (_ =? 0); msimpl; simpl; eexists; (split; [reflexivity|done]).
Qed.

(** Dequeue returns [BP_SUCCESS], [BP_TIMEOUT] or [BP_FAILEDSTORE]; it
    never touches the write side or the count; it moves [read_data_id], by
    one, only when it succeeds, and then the queue was not empty. *)
Lemma dequeue_result t w w' r :
  call (bplib_store_file_dequeue t) w = (w', r) →
  in_use (w_fs w') = in_use (w_fs w) ∧
  write_data_id (w_fs w') = write_data_id (w_fs w) ∧
  data_count (w_fs w') = data_count (w_fs w) ∧
  ((r = BP_SUCCESS ∧
    read_data_id (w_fs w) ≠ write_data_id (w_fs w) ∧
    read_data_id (w_fs w') = u64 (read_data_id (w_fs w) + 1)) ∨
   (gave_up r ∧ read_data_id (w_fs w') = read_data_id (w_fs w))).
Proof.
  intros H. unfold call, bplib_store_file_dequeue, bplib_os_lock in H. msimpl_in H.
  set (w0 := with_log _ w) in H.
  assert (queue_ids (w_fs w0) = queue_ids (w_fs w)) as H0 by done.
  match type of H with match ?x with _ => _ end = _ => destruct x as [w1 r1] eqn:Hrun end.
  assert (match r1 with Val e | Ret e => e = r end ∧ w1 = w') as [Hr ->].
  { by destruct r1; injection H as <- <-. }
  clear H.
  assert (∀ {A} (m : M A) v v' x,
            pres (keeps queue_ids any_ev) gave_up m → m v = (v', x) →
            queue_ids (w_fs v') = queue_ids (w_fs v) ∧
            match x with Ret e => gave_up e | Val _ => True end) as Hk.
  { intros A m v v' x Hm Hv. by apply Hm in Hv as [[? _] ?]. }
  match goal with |- ?G =>
    assert (∀ e, queue_ids (w_fs w') = queue_ids (w_fs w) → gave_up e → r1 = Ret e → G)
      as Hgive
  end.
  { intros e Hq He ->. subst r. injection Hq as ? ? ? ?. split_and!; [done..|]. right.
    split; [exact He|done]. }
  binv Hrun as w2 u Hwait.
  2:{ apply Hk in Hwait as [Hq He]; [|apply dequeue_wait_keeps; first [ done | by left | by right ]].
      eapply Hgive; [congruence|done..]. }
  destruct u. apply dequeue_wait_val in Hwait as Hne.
  apply Hk in Hwait as [Hq2 _]; [|apply dequeue_wait_keeps; first [ done | by left | by right ]].
  binv Hrun as w3 fd Hopen.
  2:{ apply Hk in Hopen as [Hq He]; [|apply dequeue_open_keeps; first [ done | by left | by right ]].
      eapply Hgive; [congruence|done..]. }
  apply Hk in Hopen as [Hq3 _]; [|apply dequeue_open_keeps; first [ done | by left | by right ]].
  binv Hrun as w4 p Hread.
  2:{ apply Hk in Hread as [Hq He]; [|apply dequeue_read_keeps; first [ done | by left | by right ]].
      eapply Hgive; [congruence|done..]. }
  apply Hk in Hread as [Hq4 _]; [|apply dequeue_read_keeps; first [ done | by left | by right ]].
  msimpl_in Hrun.
  binv Hrun as w5 u Hinst.
  2:{ apply Hk in Hinst as [Hq He]; [|apply install_in_cache_keeps; first [ done | by left | by right ]].
      eapply Hgive; [congruence|done..]. }
  apply Hk in Hinst as [Hq5 _]; [|apply install_in_cache_keeps; first [ done | by left | by right ]].
  destruct (dequeue_finish_spec (lock (w_fs w)) fd p w5) as (w6 & Hfin & Hr6 & Hw6 & Hu6 & Hc6).
  rewrite Hfin in Hrun. injection Hrun as <- <-. subst r.
  assert (queue_ids (w_fs w5) = queue_ids (w_fs w)) as Hq by congruence.
  injection Hq as ? ? ? ?.
  split_and!; [congruence..|]. left. split_and!; [done| |congruence].
  assert (queue_ids (w_fs w0) = queue_ids (w_fs w)) as Hq' by done.
  exact Hne.
Qed.

(** ** C9 *)

(** No view of the store record at all: only the log is followed. *)
Definition no_view (fs : file_store_t) : unit := tt.

Definition any_code (e : bp_status) : Prop := True.

Ltac log_go :=
  repeat lazymatch goal with
  | |- pres _ _ (skip_records _ _ _) => apply skip_records_keeps; try done
  | |- pres _ _ (open_dat_file _ _ _ _) => apply open_dat_file_keeps; done
  | |- pres _ _ (open_tbl_file _ _ _ _) => apply open_tbl_file_keeps; done
  | |- pres _ _ (read_object _ _) => apply read_object_keeps; done
  | |- pres _ _ (install_in_cache _ _ _ _ _) => apply install_in_cache_keeps; done
  | |- pres _ _ (dequeue_wait _ _) => apply dequeue_wait_keeps; done
  | |- pres _ _ (dequeue_open _ _) => apply dequeue_open_keeps; done
  | |- pres _ _ (dequeue_read _ _) => apply dequeue_read_keeps; done
  | |- _ => pres_step
  end.

Lemma dequeue_logged t : pres (keeps no_view any_ev) any_code (bplib_store_file_dequeue t).
Proof. unfold bplib_store_file_dequeue, dequeue_finish. log_go. Qed.

Lemma retrieve_logged sid t :
  pres (keeps no_view any_ev) any_code (bplib_store_file_retrieve sid t).
Proof. unfold bplib_store_file_retrieve. log_go. Qed.

Lemma release_logged sid : pres (keeps no_view any_ev) any_code (bplib_store_file_release sid).
Proof. unfold bplib_store_file_release. log_go. Qed.

Lemma relinquish_logged sid :
  pres (keeps no_view any_ev) any_code (bplib_store_file_relinquish sid).
Proof.
  unfold bplib_store_file_relinquish, relinquish_prepare, relinquish_clear_cache,
    relinquish_load_table, relinquish_mark, delete_tbl_file, delete_dat_file.
  log_go.
Qed.

(** The events a call adds to the log. *)
Definition events_of (m : M bp_status) (w : world) : list event :=
  drop (length (w_log w)) (w_log (call m w).1).

Lemma events_of_logged m w :
  pres (keeps no_view any_ev) any_code m → w_log (call m w).1 = w_log w ++ events_of m w.
Proof.
  intros Hm. unfold events_of, call. destruct (m w) as [w' r] eqn:H.
  apply Hm in H as [[_ (evs & Hlog & _)] _].
  destruct r; simpl; by rewrite Hlog, drop_app_length.
Qed.

(** A call that starts with [bplib_os_lock(fs->lock)]. *)
Definition locks_first (m : M bp_status) (w : world) : Prop :=
  head (events_of m w) = Some (EvLock (lock (w_fs w))).

Lemma locks_first_intro (k : Z → M bp_status) w :
  (∀ lk, pres (keeps no_view any_ev) any_code (k lk)) →
  locks_first (lk ← get lock; bplib_os_lock lk;; k lk) w.
Proof.
  intros Hk. unfold locks_first, events_of, call, bplib_os_lock. msimpl.
  destruct (k (lock (w_fs w)) _) as [w' r] eqn:H.
  apply Hk in H as [[_ (evs & Hlog & _)] _]. simpl in Hlog.
  assert (w_log w' = w_log w ++ EvLock (lock (w_fs w)) :: evs) as Hl.
  { rewrite Hlog. by rewrite <- (assoc_L (++)). }
  destruct r; simpl; by rewrite Hl, drop_app_length.
Qed.

Lemma enqueue_logged h d1 d2 t :
  pres (keeps no_view no_lock) any_code (bplib_store_file_enqueue h d1 d2 t).
Proof.
  unfold bplib_store_file_enqueue, enqueue_finish.
  repeat lazymatch goal with
  | |- pres _ _ (enqueue_open _) => apply enqueue_open_keeps; done
  | |- pres _ _ (enqueue_write _ _ _ _) => apply enqueue_write_keeps; done
  | |- _ => pres_step
  end.
Qed.

Lemma relinquish_locks_first sid w : locks_first (bplib_store_file_relinquish sid) w.
Proof.
  unfold locks_first, events_of, call, bplib_store_file_relinquish, relinquish_prepare,
    bplib_os_lock.
  msimpl.
  match goal with |- context [mbind ?k ?m ?v] => destruct (mbind k m v) as [w' r] eqn:H end.
  assert (pres (keeps no_view any_ev) any_code
            (relinquish_clear_cache (GET_DATAID sid) ≫= λ _ : (),
             relinquish_load_table (lock (w_fs w)) sid (GET_FILEID (GET_DATAID sid))
               (GET_FILEID (GET_DATAID (relinquish_data_id
                  (w_fs (with_log (w_log w ++ [EvLock (lock (w_fs w))]) w))))) ≫= λ _ : (),
             get lock ≫= λ lk,
             relinquish_mark lk (GET_FILEID (GET_DATAID sid)) (GET_DATAOFFSET (GET_DATAID sid))
               ≫= λ _ : (), bplib_os_unlock lk ≫= λ _ : (), mret BP_SUCCESS)) as Hk.
  { unfold relinquish_clear_cache, relinquish_load_table, relinquish_mark, delete_tbl_file,
      delete_dat_file.
    log_go. }
  apply Hk in H as [[_ (evs & Hlog & _)] _]. simpl in Hlog.
  assert (w_log w' = w_log w ++ EvLock (lock (w_fs w)) :: evs) as Hl.
  { rewrite Hlog. by rewrite <- (assoc_L (++)). }
  destruct r; simpl; by rewrite Hl, drop_app_length.
Qed.

(** C9 (the code departs from the claim).  For every state of a store,
    [bplib_store_file_enqueue] makes no call to [bplib_os_lock],
    [bplib_os_unlock] or [bplib_os_waiton]: none of the events it adds to
    the log is one of them, although it opens, writes and flushes
    [write_fd], assigns [write_data_id] and [data_count] and signals the
    lock (the first enqueue on a new store makes exactly the calls listed).
    [bplib_store_file_getcount] reads [data_count] without any call.
    Dequeue, retrieve, release and relinquish all begin with
    [bplib_os_lock(fs->lock)]. *)
Theorem enqueue_and_getcount_take_no_lock (w : world) (handle : Z) (d1 d2 : list byte)
    (timeout sid : Z) :
  forallb no_lock (events_of (bplib_store_file_enqueue handle d1 d2 timeout) w) = true ∧
  events_of (enqueue1 97) (fresh_store 4 [] []) =
    [EvOpen (dat_name 0 FILE_DEFAULT_ROOT 0) ModeAppend;
     EvWrite 1 4 4; EvWrite 1 16 16; EvWrite 1 1 1; EvWrite 1 0 0;
     EvFlush 1; EvSignal 0] ∧
  bplib_store_file_getcount w = (w, Val (data_count (w_fs w))) ∧
  locks_first (bplib_store_file_dequeue timeout) w ∧
  locks_first (bplib_store_file_retrieve sid timeout) w ∧
  locks_first (bplib_store_file_release sid) w ∧
  locks_first (bplib_store_file_relinquish sid) w.
Proof.
  split_and!.
  - unfold events_of, call.
    destruct (bplib_store_file_enqueue handle d1 d2 timeout w) as [w' r] eqn:H.
    apply enqueue_logged in H as [[_ (evs & Hlog & Hev)] _].
    destruct r; simpl; by rewrite Hlog, drop_app_length.
  - by vm_compute.
  - done.
  - unfold bplib_store_file_dequeue. apply locks_first_intro. intros lk.
    unfold dequeue_finish. log_go.
  - unfold bplib_store_file_retrieve. apply locks_first_intro. intros lk. log_go.
  - unfold bplib_store_file_release. apply locks_first_intro. intros lk. log_go.
  - apply relinquish_locks_first.
Qed.

(** ** Create and destroy *)

(** The fields that create sets once and for all. *)
Definition created_ids (fs : file_store_t) : Z * Z * Z * Z * Z * Z :=
  (read_data_id fs, write_data_id fs, retrieve_data_id fs, relinquish_data_id fs,
   data_count fs, service_id fs).

Lemma close_if_open_keeps {X} (π : file_store_t → X) (fd : BP_FILE) :
  pres (keeps π any_ev) never
    (match fd with Some f => fclose f | None => mret tt end).
Proof. pres_go. Qed.

Lemma pres_val {A} R (m : M A) w w' r :
  pres R never m → m w = (w', r) → R w w' ∧ ∃ a, r = Val a.
Proof. intros Hm H. apply Hm in H as [HR Hr]. split; [done|]. destruct r; [eauto|done]. Qed.

(** The world after [if(fd != BP_FILE_NULL) BP_FILE_CLOSE(fd)]. *)
Definition closed (fd : BP_FILE) (w : world) : world :=
  match fd with
  | Some f => with_streams (delete f) (with_log (w_log w ++ [EvClose f]) w)
  | None => w
  end.

(** The world after a call that is made or not and only shows in the log. *)
Definition noted (e : option event) (w : world) : world :=
  match e with
  | Some ev => with_log (w_log w ++ [ev]) w
  | None => w
  end.

(** The calls of destroy after the three streams, each under its guard. *)
Definition frees_root (fs : file_store_t) : option event :=
  match file_root fs with Some _ => Some (EvFreeBlock RootPath) | None => None end.
Definition destroys_lock (fs : file_store_t) : option event :=
  if bool_decide (lock fs ≠ BP_INVALID_HANDLE) then Some (EvDestroyLock (lock fs)) else None.
Definition frees_cache (fs : file_store_t) : option event :=
  match data_cache fs with Some _ => Some (EvFreeBlock DataCache) | None => None end.

Lemma destroy_run w :
  let fs := w_fs w in
  bplib_store_file_destroy w =
    (with_fs (set_in_use false)
       (noted (frees_cache fs) (noted (destroys_lock fs) (noted (frees_root fs)
          (closed (retrieve_fd fs) (closed (read_fd fs) (closed (write_fd fs) w)))))),
     Val BP_SUCCESS).
Proof.
  intros fs. subst fs. destruct w as [fs e].
  destruct fs as [iu lk sv fr dc wfd wid werr rfd rid rerr tfd tid qfd qid qt cache csz].
  unfold bplib_store_file_destroy, frees_root, destroys_lock, frees_cache, free_block,
    bplib_os_destroylock, fclose. cbn [w_fs write_fd read_fd retrieve_fd file_root lock data_cache].
  unfold mbind, M_bind, get. cbn [w_fs write_fd read_fd retrieve_fd file_root lock data_cache].
  destruct wfd, rfd, tfd, fr, cache; simpl;
    destruct (bool_decide (lk ≠ BP_INVALID_HANDLE)); reflexivity.
Qed.

Lemma closed_facts fd w :
  w_fs (closed fd w) = w_fs w ∧ w_disk (closed fd w) = w_disk w ∧
  w_heap (closed fd w) = w_heap w ∧
  w_log (closed fd w) = w_log w ++ match fd with Some f => [EvClose f] | None => [] end ∧
  w_streams (closed fd w) = match fd with Some f => delete f (w_streams w) | None => w_streams w end.
Proof. destruct fd; simpl; by rewrite ?app_nil_r. Qed.

Lemma noted_facts e w :
  w_fs (noted e w) = w_fs w ∧ w_disk (noted e w) = w_disk w ∧
  w_heap (noted e w) = w_heap w ∧ w_streams (noted e w) = w_streams w ∧
  w_log (noted e w) = w_log w ++ match e with Some ev => [ev] | None => [] end.
Proof. destruct e; simpl; by rewrite ?app_nil_r. Qed.

(** Everything destroy leaves in the log, in the order of the calls. *)
Definition destroy_calls (fs : file_store_t) : list event :=
  (EvClose <$> omap id [write_fd fs; read_fd fs; retrieve_fd fs]) ++
  omap id [frees_root fs; destroys_lock fs; frees_cache fs].

Lemma destroy_log w w' r :
  bplib_store_file_destroy w = (w', r) → w_log w' = w_log w ++ destroy_calls (w_fs w).
Proof.
  rewrite destroy_run. intros [= <- _]. unfold destroy_calls.
  destruct (write_fd (w_fs w)), (read_fd (w_fs w)), (retrieve_fd (w_fs w)),
    (frees_root (w_fs w)), (destroys_lock (w_fs w)), (frees_cache (w_fs w)); simpl;
    rewrite <- ?(assoc_L (++)), ?app_nil_r; reflexivity.
Qed.

Lemma destroy_spec w w' r :
  bplib_store_file_destroy w = (w', r) →
  r = Val BP_SUCCESS ∧ in_use (w_fs w') = false ∧
  created_ids (w_fs w') = created_ids (w_fs w) ∧ logged any_ev w w'.
Proof.
  intros H. pose proof (destroy_log _ _ _ H) as Hlog. rewrite destroy_run in H.
  injection H as <- <-. split_and!; [done|done| |].
  - simpl. repeat (rewrite (proj1 (noted_facts _ _))).
    repeat (rewrite (proj1 (closed_facts _ _))). done.
  - eexists. split; [exact Hlog|]. clear.
    induction (destroy_calls (w_fs w)) as [|ev l IH]; [done|exact IH].
Qed.

(** What create does when it gives up on a slot. *)
Lemma give_up_spec e w w' r :
  (bplog e ≫= λ _, bplib_store_file_destroy ≫= λ _, mret false) w = (w', r) →
  r = Val false ∧ in_use (w_fs w') = false ∧ created_ids (w_fs w') = created_ids (w_fs w).
Proof.
  unfold bplog. intros H. rewrite bind_assoc, bind_emit, bind_mret in H.
  binv H as w1 u1 H1.
  - apply destroy_spec in H1 as (_ & Hu & Hids & _). injection H as <- <-. done.
  - apply destroy_spec in H1 as (? & _). done.
Qed.

Lemma create_slot_spec attr svc w w' r :
  create_slot attr svc w = (w', r) →
  (∃ ok, r = Val ok ∧ in_use (w_fs w') = ok) ∧
  created_ids (w_fs w') = (1, 1, 1, 1, 0, u64 svc).
Proof.
  unfold create_slot. intros H. rewrite bind_put in H.
  set (w0 := with_fs _ w) in H.
  assert (created_ids (w_fs w0) = (1, 1, 1, 1, 0, u64 svc) ∧ in_use (w_fs w0) = true)
    as [Hids Huse] by done.
  clearbody w0. clear w.
  assert (∀ {A} (m : M A) v v' x,
            pres (keeps (λ fs, (in_use fs, created_ids fs)) any_ev) never m → m v = (v', x) →
            created_ids (w_fs v') = created_ids (w_fs v) ∧ in_use (w_fs v') = in_use (w_fs v) ∧
            ∃ a, x = Val a) as Hk.
  { intros A m v v' x Hm Hv. apply Hm in Hv as [[Hq _] Hx]. unfold same_on in Hq.
    pose proof (f_equal fst Hq) as Hq1. pose proof (f_equal snd Hq) as Hq2.
    simpl in Hq1, Hq2. split_and!; [done..|]. destruct x; [eauto|done]. }
  assert (∀ e v, created_ids (w_fs v) = (1, 1, 1, 1, 0, u64 svc) →
            (bplog e ≫= λ _, bplib_store_file_destroy ≫= λ _, mret false) v = (w', r) →
            (∃ ok, r = Val ok ∧ in_use (w_fs w') = ok) ∧
            created_ids (w_fs w') = (1, 1, 1, 1, 0, u64 svc)) as Hgive.
  { intros e v Hv Hrun. apply give_up_spec in Hrun as (-> & Hu & Hi).
    split; [eauto|congruence]. }
  binv H as w1 l Hl.
  2:{ apply Hk in Hl as (_ & _ & ? & ?); [done|]. unfold bplib_os_createlock. pres_go.
      apply pres_out, next_io_out. }
  apply Hk in Hl as (Hi1 & Hu1 & _);
    [|unfold bplib_os_createlock; pres_go; apply pres_out, next_io_out].
  rewrite bind_put in H. set (w2 := with_fs _ w1) in H.
  assert (created_ids (w_fs w2) = (1, 1, 1, 1, 0, u64 svc) ∧ in_use (w_fs w2) = true)
    as [Hi2 Hu2].
  { subst w2. simpl. split; [|congruence]. rewrite <- Hids, <- Hi1. done. }
  clearbody w2.
  destruct (l <? 0); [by eapply Hgive|].
  binv H as w3 u Hroot.
  2:{ apply Hk in Hroot as (_ & _ & ? & ?); [done|]. unfold malloc_ok. pres_go.
      apply pres_out, next_io_out. }
  apply Hk in Hroot as (Hi3 & Hu3 & _);
    [|unfold malloc_ok; pres_go; apply pres_out, next_io_out].
  rewrite bind_get in H. destruct (file_root (w_fs w3)); [|eapply Hgive; [|exact H]; congruence].
  rewrite bind_put in H. set (w4 := with_fs _ w3) in H.
  assert (created_ids (w_fs w4) = (1, 1, 1, 1, 0, u64 svc) ∧ in_use (w_fs w4) = true)
    as [Hi4 Hu4].
  { subst w4. simpl. split; [|congruence]. rewrite <- Hi2, <- Hi3. done. }
  clearbody w4.
  binv H as w5 ok Hm.
  2:{ apply Hk in Hm as (_ & _ & ? & ?); [done|]. unfold malloc_ok. pres_go.
      apply pres_out, next_io_out. }
  apply Hk in Hm as (Hi5 & Hu5 & _);
    [|unfold malloc_ok; pres_go; apply pres_out, next_io_out].
  binv H as w6 u6 Hc.
  2:{ apply Hk in Hc as (_ & _ & ? & ?); [done|]. pres_go. }
  apply Hk in Hc as (Hi6 & Hu6 & _); [|pres_go].
  rewrite bind_get in H. destruct (data_cache (w_fs w6)).
  - injection H as <- <-. split; [exists true; split; [done|congruence]|congruence].
  - eapply Hgive; [|exact H]. congruence.
Qed.

(** ** Runs of create, enqueue and dequeue on the store table *)

Inductive op :=
| OpCreate (attr : option bp_file_attr_t)
| OpEnqueue (handle : Z) (data1 data2 : list byte) (timeout : Z)
| OpDequeue (handle : Z) (timeout : Z).

(** One call; [None] when an assertion of the call fails. *)
Definition step (o : op) (s : system) : option system :=
  match o with
  | OpCreate attr => Some (bplib_store_file_create attr s).1
  | OpEnqueue h d1 d2 t => fst <$> on_handle h (call (bplib_store_file_enqueue h d1 d2 t)) s
  | OpDequeue h t => fst <$> on_handle h (call (bplib_store_file_dequeue t)) s
  end.

Fixpoint run (ops : list op) (s : system) : option system :=
  match ops with
  | [] => Some s
  | o :: ops' => s' ← step o s; run ops' s'
  end.

Lemma run_app pre post s : run (pre ++ post) s = run pre s ≫= run post.
Proof.
  revert s. induction pre as [|o pre IH]; intros s; simpl; [done|].
  destruct (step o s); simpl; [apply IH|done].
Qed.

Lemma on_handle_Some {A} h (f : world → world * A) s s' r :
  on_handle h f s = Some (s', r) →
  ∃ fs w', 0 ≤ h ∧ file_stores s !! Z.to_nat h = Some fs ∧ in_use fs = true ∧
           f (focus s fs) = (w', r) ∧ s' = unfocus (Z.to_nat h) s w'.
Proof.
  unfold on_handle. case_bool_decide as Hh; [|done].
  destruct (file_stores s !! Z.to_nat h) as [fs|] eqn:Hfs; [|done].
  destruct (in_use fs) eqn:Hu; [|done].
  destruct (f (focus s fs)) as [w' r'] eqn:Hf. intros [= <- <-].
  exists fs, w'. split_and!; [lia|done..].
Qed.

Lemma create_stores attr s :
  let s' := (bplib_store_file_create attr s).1 in
  let h := (bplib_store_file_create attr s).2 in
  file_stores s' = file_stores s ∨
  ∃ i fs0 fs', file_stores s !! i = Some fs0 ∧ in_use fs0 = false ∧
               file_stores s' = <[i := fs']> (file_stores s) ∧
               created_ids fs' = (1, 1, 1, 1, 0, u64 (file_service_id s)) ∧
               (in_use fs' = true → h = Z.of_nat i) ∧ (in_use fs' = false → h = BP_INVALID_HANDLE).
Proof.
  unfold bplib_store_file_create, first_unused.
  destruct (list_find _ _) as [[i fs0]|] eqn:Hfind; simpl; [|by left].
  apply list_find_Some in Hfind as (Hi & Hu & _). apply lookup_take_Some in Hi as [Hi _].
  right. exists i, fs0.
  destruct (create_slot _ _ _) as [w r] eqn:Hc. apply create_slot_spec in Hc as [(ok & -> & Hok) Hids].
  exists (w_fs w). destruct ok; simpl; split_and!; try done; congruence.
Qed.

(** In every slot in use the ids are ordered, and [write_data_id] has
    moved at most [n] times. *)
Definition ids_ok (n : Z) (s : system) : Prop :=
  ∀ i fs, file_stores s !! i = Some fs → in_use fs = true →
    1 ≤ read_data_id fs ∧ read_data_id fs ≤ write_data_id fs ∧ write_data_id fs ≤ 1 + n.

(** What one call may do to the ids of a store in use. *)
Definition step_monotone (o : op) (s s' : system) : Prop :=
  ∀ i fs, file_stores s !! i = Some fs → in_use fs = true →
    ∃ fs', file_stores s' !! i = Some fs' ∧ in_use fs' = true ∧
      read_data_id fs ≤ read_data_id fs' ∧ write_data_id fs ≤ write_data_id fs' ∧
      (write_data_id fs' ≠ write_data_id fs → ∃ d1 d2 t, o = OpEnqueue (Z.of_nat i) d1 d2 t) ∧
      (read_data_id fs' ≠ read_data_id fs →
         (∃ t, o = OpDequeue (Z.of_nat i) t) ∧ read_data_id fs ≠ write_data_id fs).

Lemma u64_small z : 0 ≤ z < 2 ^ 64 → u64 z = z.
Proof. intros. unfold u64. by apply Z.mod_small. Qed.

Lemma step_ids_ok n o s s' :
  0 ≤ n → n + 2 < 2 ^ 64 → ids_ok n s → step o s = Some s' →
  ids_ok (n + 1) s' ∧ step_monotone o s s'.
Proof.
  intros Hn Hbound Hok Hstep. destruct o as [attr|h d1 d2 t|h t]; simpl in Hstep.
  - injection Hstep as <-.
    destruct (create_stores attr s) as [Hs|(i & fs0 & fs' & Hi & Hu0 & Hs & Hids & _)];
      cbv zeta in *.
    + split.
      * intros j fs Hj Hu. rewrite Hs in Hj. destruct (Hok j fs Hj Hu) as (?&?&?). lia.
      * intros j fs Hj Hu. exists fs. rewrite Hs. split_and!; [done|done|lia|lia|done|done].
    + split.
      * intros j fs Hj Hu. rewrite Hs in Hj. destruct (decide (i = j)) as [->|Hne].
        -- rewrite list_lookup_insert_eq in Hj by (by eapply lookup_lt_Some).
           injection Hj as <-. unfold created_ids in Hids. injection Hids as -> -> _ _ _ _. lia.
        -- rewrite list_lookup_insert_ne in Hj by done.
           destruct (Hok j fs Hj Hu) as (?&?&?). lia.
      * intros j fs Hj Hu. exists fs. rewrite Hs.
        destruct (decide (i = j)) as [->|Hne]; [congruence|].
        rewrite list_lookup_insert_ne by done. split_and!; [done|done|lia|lia|done|done].
  - destruct (on_handle _ _ _) as [[s1 r]|] eqn:Hon; [|done]. injection Hstep as <-.
    apply on_handle_Some in Hon as (fs0 & w' & Hh & Hfs0 & Hu0 & Hcall & ->).
    apply enqueue_result in Hcall as (Hu & Hr & Hw). simpl in Hu, Hr, Hw.
    destruct (Hok _ _ Hfs0 Hu0) as (H1 & H2 & H3).
    assert (write_data_id fs0 ≤ write_data_id (w_fs w') ≤ write_data_id fs0 + 1) as Hw'.
    { destruct Hw as [(_ & -> & _)|(_ & -> & _)]; [|lia]. rewrite u64_small; lia. }
    split.
    + intros j fs Hj Hu'. simpl in Hj. destruct (decide (Z.to_nat h = j)) as [<-|Hne].
      * rewrite list_lookup_insert_eq in Hj by (by eapply lookup_lt_Some).
        injection Hj as <-. lia.
      * rewrite list_lookup_insert_ne in Hj by done.
        destruct (Hok j fs Hj Hu') as (?&?&?). lia.
    + intros j fs Hj Hu'. simpl. destruct (decide (Z.to_nat h = j)) as [<-|Hne].
      * rewrite list_lookup_insert_eq by (by eapply lookup_lt_Some).
        assert (fs = fs0) as -> by congruence.
        exists (w_fs w'). split_and!; [done|congruence|lia|lia| |congruence].
        intros _. exists d1, d2, t. by rewrite Z2Nat.id.
      * rewrite list_lookup_insert_ne by done. exists fs.
        split_and!; [done|done|lia|lia|done|done].
  - destruct (on_handle _ _ _) as [[s1 r]|] eqn:Hon; [|done]. injection Hstep as <-.
    apply on_handle_Some in Hon as (fs0 & w' & Hh & Hfs0 & Hu0 & Hcall & ->).
    apply dequeue_result in Hcall as (Hu & Hw & _ & Hr). simpl in Hu, Hw, Hr.
    destruct (Hok _ _ Hfs0 Hu0) as (H1 & H2 & H3).
    assert (read_data_id fs0 ≤ read_data_id (w_fs w') ≤ write_data_id fs0 ∧
            (read_data_id (w_fs w') ≠ read_data_id fs0 → read_data_id fs0 ≠ write_data_id fs0))
      as [Hr' Hne'].
    { destruct Hr as [(_ & Hne & ->)|(_ & ->)]; [|split; [lia|done]].
      rewrite u64_small by lia. split; [lia|done]. }
    split.
    + intros j fs Hj Hu'. simpl in Hj. destruct (decide (Z.to_nat h = j)) as [<-|Hne].
      * rewrite list_lookup_insert_eq in Hj by (by eapply lookup_lt_Some).
        injection Hj as <-. lia.
      * rewrite list_lookup_insert_ne in Hj by done.
        destruct (Hok j fs Hj Hu') as (?&?&?). lia.
    + intros j fs Hj Hu'. simpl. destruct (decide (Z.to_nat h = j)) as [<-|Hne].
      * rewrite list_lookup_insert_eq by (by eapply lookup_lt_Some).
        assert (fs = fs0) as -> by congruence.
        exists (w_fs w'). split_and!; [done|congruence|lia|lia|congruence|].
        intros Hd. split; [|by apply Hne']. exists t. by rewrite Z2Nat.id.
      * rewrite list_lookup_insert_ne by done. exists fs.
        split_and!; [done|done|lia|lia|done|done].
Qed.

Lemma run_ids_ok ops : ∀ n s s',
  0 ≤ n → n + len ops + 1 < 2 ^ 64 → ids_ok n s → run ops s = Some s' →
  ids_ok (n + len ops) s'.
Proof.
  induction ops as [|o ops IH]; intros n s s' Hn Hb Hok Hrun; simpl in Hrun.
  - injection Hrun as <-. unfold len. simpl. by rewrite Z.add_0_r.
  - unfold len in *. simpl length in *. destruct (step o s) as [s1|] eqn:Hs; [|done].
    simpl in Hrun. apply step_ids_ok with (n := n) in Hs as [Hok1 _]; [|lia..|done].
    apply IH with (n := n + 1) in Hrun; [|lia|lia|done].
    replace (n + Z.of_nat (S (length ops))) with (n + 1 + Z.of_nat (length ops)) by lia. done.
Qed.

Lemma boot_ids_ok e : ids_ok 0 (boot e).
Proof.
  intros i fs Hi Hu. unfold boot, bplib_store_file_init in Hi.
  cbn [file_stores] in Hi. apply lookup_replicate in Hi as [-> _]. done.
Qed.

(** ** C8 *)

(** C8.  In every state that a run of fewer than 2^64 - 1 calls to create,
    enqueue and dequeue reaches from start-up, every store in use has
    [read_data_id <= write_data_id]; every call of such a run leaves each
    store in use with both ids at least what they were, only an enqueue on
    that store changes its [write_data_id], and only a dequeue on that
    store that found [read_data_id != write_data_id] changes its
    [read_data_id]; and the store that a successful create hands out is in
    use with both ids equal to 1. *)
Theorem ids_ordered_and_monotone (e : env) (ops : list op) (s : system) :
  len ops < 2 ^ 64 - 1 →
  run ops (boot e) = Some s →
  (∀ i fs, file_stores s !! i = Some fs → in_use fs = true →
     read_data_id fs ≤ write_data_id fs) ∧
  (∀ pre o post s1 s2,
     ops = pre ++ o :: post → run pre (boot e) = Some s1 → step o s1 = Some s2 →
     step_monotone o s1 s2) ∧
  (∀ attr,
     let s2 := (bplib_store_file_create attr s).1 in
     let h := (bplib_store_file_create attr s).2 in
     h ≠ BP_INVALID_HANDLE →
     ∃ fs, file_stores s2 !! Z.to_nat h = Some fs ∧ in_use fs = true ∧
           read_data_id fs = 1 ∧ write_data_id fs = 1).
Proof.
  intros Hlen Hrun. split_and!.
  - intros i fs Hi Hu.
    apply run_ids_ok with (n := 0) in Hrun; [|lia|lia|apply boot_ids_ok].
    destruct (Hrun i fs Hi Hu) as (?&?&?). done.
  - intros pre o post s1 s2 -> Hpre Hstep.
    unfold len in Hlen. rewrite length_app in Hlen. simpl in Hlen.
    apply run_ids_ok with (n := 0) in Hpre; [|lia|unfold len; lia|apply boot_ids_ok].
    eapply step_ids_ok; [| |exact Hpre|exact Hstep]; unfold len; lia.
  - intros attr s2 h Hh.
    destruct (create_stores attr s) as [Hs|(i & fs0 & fs' & Hi & Hu0 & Hs & Hids & Ht & Hf)];
      cbv zeta in *; fold s2 h in Hs.
    + exfalso. apply Hh. unfold h, bplib_store_file_create in *.
      destruct (first_unused _) as [j|] eqn:Hfu; [|done].
      destruct (create_slot _ _ _) as [w [[]|]] eqn:Hc; try done.
      simpl in Hs. unfold first_unused in Hfu.
      destruct (list_find _ _) as [[j' fs1]|] eqn:Hfind; [|done]. injection Hfu as ->.
      apply list_find_Some in Hfind as (Hj & Hu1 & _). apply lookup_take_Some in Hj as [Hj _].
      apply create_slot_spec in Hc as [(ok & [= <-] & Hok) _].
      apply (f_equal (λ l, l !! j)) in Hs. rewrite list_lookup_insert_eq in Hs
        by (by eapply lookup_lt_Some). congruence.
    + fold s2 h in Ht, Hf. destruct (in_use fs') eqn:Hu'; [|by rewrite Hf in Hh].
      rewrite Ht, Nat2Z.id by done. exists fs'. rewrite Hs.
      rewrite list_lookup_insert_eq by (by eapply lookup_lt_Some).
      unfold created_ids in Hids. injection Hids as -> -> _ _ _ _. done.
Qed.

(** A create followed by a dequeue on the new, empty store. *)
Definition two_calls : list op :=
  [OpCreate (Some {| root_path := None; attr_cache_size := 4 |}); OpDequeue 0 0].

Definition after_two_calls : system :=
  default (boot empty_env) (run two_calls (boot empty_env)).

Lemma ids_ordered_and_monotone_witness :
  (∀ i fs, file_stores after_two_calls !! i = Some fs → in_use fs = true →
     read_data_id fs ≤ write_data_id fs) ∧
  (∀ pre o post s1 s2,
     two_calls = pre ++ o :: post → run pre (boot empty_env) = Some s1 → step o s1 = Some s2 →
     step_monotone o s1 s2) ∧
  (∀ attr,
     let s2 := (bplib_store_file_create attr after_two_calls).1 in
     let h := (bplib_store_file_create attr after_two_calls).2 in
     h ≠ BP_INVALID_HANDLE →
     ∃ fs, file_stores s2 !! Z.to_nat h = Some fs ∧ in_use fs = true ∧
           read_data_id fs = 1 ∧ write_data_id fs = 1).
Proof.
  apply (ids_ordered_and_monotone empty_env two_calls after_two_calls).
  - vm_compute. reflexivity.
  - vm_compute. reflexivity.
Defined.

(** ** Relinquish *)

Global Instance io_resp_eq_dec : EqDecision io_resp.
Proof. solve_decision. Defined.

(** [remove]: what a call does, by the outcome [r] the environment has in
    store for it. *)
Lemma remove_run name w :
  let r := default IoOk (head (w_io w)) in
  ∃ w' st errno,
    remove name w = (w', Val (st, errno)) ∧
    w_fs w' = w_fs w ∧ w_log w' = w_log w ++ [EvRemove name] ∧ w_io w' = tail (w_io w) ∧
    w_streams w' = w_streams w ∧ w_heap w' = w_heap w ∧
    (r = IoFail → st = -1 ∧ errno = EACCES ∧ w_disk w' = w_disk w) ∧
    (r ≠ IoFail → w_disk w' = delete name (w_disk w) ∧
                  (is_Some (w_disk w !! name) → st = 0) ∧
                  (w_disk w !! name = None → st = -1 ∧ errno = ENOENT)).
Proof.
  intros r. unfold remove. rewrite bind_emit, bind_next_io. unfold act. simpl. fold r.
  destruct r eqn:Hr; destruct (w_disk w !! name) as [c|] eqn:Hn; simpl;
    eexists _, _, _; (split; [reflexivity|]); simpl;
    split_and!; try done; intros _; split_and!; try done;
    try (by rewrite delete_id); try (by intros [? ?]).
Qed.

(** [delete_tbl_file] answers 0 unless the removal failed for another
    reason than a missing file. *)
Lemma delete_tbl_file_run svc rt fid w :
  let name := tbl_name svc rt fid in
  let r := default IoOk (head (w_io w)) in
  ∃ w' v,
    delete_tbl_file svc rt fid w = (w', Val v) ∧
    w_fs w' = w_fs w ∧ w_io w' = tail (w_io w) ∧
    (∃ evs, w_log w' = w_log w ++ EvRemove name :: evs ∧ ∀ n, EvRemove n ∉ evs) ∧
    (r = IoFail → v = Code BP_FAILEDSTORE ∧ w_disk w' = w_disk w) ∧
    (r ≠ IoFail → v = Num 0 ∧ w_disk w' = delete name (w_disk w)).
Proof.
  intros name r. unfold delete_tbl_file. fold name.
  destruct (remove_run name w) as (w1 & st & errno & Hrm & Hfs & Hlog & Hio & _ & _ & Hf & Hok).
  rewrite (bind_val _ _ _ _ _ Hrm). cbv beta iota. fold r in Hf, Hok.
  destruct (decide (r = IoFail)) as [Hr|Hr].
  - destruct (Hf Hr) as (-> & -> & Hd). simpl. unfold bplog.
    msimpl.
    eexists _, _. split; [reflexivity|]. simpl. split_and!; try done.
    rewrite Hlog, <- (assoc_L (++)). eexists [_]. split; [done|].
    intros n Hn. apply list_elem_of_singleton in Hn. done.
  - destruct (Hok Hr) as (Hd & Hs & Hn).
    assert ((st <? 0) && negb (errno =? 2) = false) as ->.
    { destruct (w_disk w !! name) eqn:Hl.
      - rewrite Hs by eauto. done.
      - destruct (Hn eq_refl) as [-> ->]. done. }
    eexists _, _. split; [reflexivity|]. split_and!; try done.
    exists []. split; [done|]. intros n Hn'. by apply not_elem_of_nil in Hn'.
Qed.

(** [delete_dat_file] answers 0 when the file was there and has been
    removed, and a negative code otherwise. *)
Lemma delete_dat_file_run svc rt fid w :
  let name := dat_name svc rt fid in
  let r := default IoOk (head (w_io w)) in
  ∃ w' v,
    delete_dat_file svc rt fid w = (w', Val v) ∧
    w_fs w' = w_fs w ∧ w_io w' = tail (w_io w) ∧
    (∃ evs, w_log w' = w_log w ++ EvRemove name :: evs) ∧
    (r ≠ IoFail ∧ is_Some (w_disk w !! name) →
       negative v = false ∧ w_disk w' = delete name (w_disk w)) ∧
    (r = IoFail ∨ w_disk w !! name = None → negative v = true ∧ w_disk w' = w_disk w).
Proof.
  intros name r. unfold delete_dat_file. fold name.
  destruct (remove_run name w) as (w1 & st & errno & Hrm & Hfs & Hlog & Hio & _ & _ & Hf & Hok).
  rewrite (bind_val _ _ _ _ _ Hrm). cbv beta iota. fold r in Hf, Hok.
  destruct (decide (r ≠ IoFail ∧ is_Some (w_disk w !! name))) as [[Hr Hs]|Hn].
  - destruct (Hok Hr) as (Hd & Hst & _). rewrite (Hst Hs). simpl.
    eexists _, _. split; [reflexivity|]. split_and!; try done.
    + by exists [].
    + intros [? | Hnone]; [done|]. destruct Hs as [? Hs]. congruence.
  - assert (st = -1 ∧ w_disk w1 = w_disk w) as [-> Hd].
    { destruct (decide (r = IoFail)) as [Hr|Hr]; [by destruct (Hf Hr) as (? & ? & ?)|].
      destruct (Hok Hr) as (Hd & _ & Hst).
      destruct (w_disk w !! name) eqn:Hl; [exfalso; apply Hn; eauto|].
      destruct (Hst eq_refl) as [-> _]. split; [done|]. rewrite Hd. by apply delete_id. }
    simpl. unfold bplog. msimpl.
    eexists _, _. split; [reflexivity|]. simpl. split_and!; try done.
    rewrite Hlog, <- (assoc_L (++)). by eexists [_].
Qed.

(** The store record with slot [off] of the current bucket marked as
    relinquished. *)
Definition mark_slot (off : Z) (fs : file_store_t) : file_store_t :=
  set_relinquish_table
    {| freed := <[Z.to_nat off := 1]> (freed (relinquish_table fs));
       free_cnt := i32 (free_cnt (relinquish_table fs) + 1) |}
    (set_data_count (i32 (data_count fs - 1)) fs).

(** "Delete Associated Files". *)
Definition relinquish_delete (lk file_id : Z) : M unit :=
  svc ← get service_id;
  rt ← get root;
  delete_tbl_file (i32 svc) rt file_id;;
  dat_status ← delete_dat_file (i32 svc) rt file_id;
  if negative dat_status then
    bplib_os_unlock lk;; c ← bplog BP_FAILEDSTORE; return_ c
  else mret tt.

Lemma relinquish_mark_run lk fid off w :
  relinquish_mark lk fid off w =
    if freed (relinquish_table (w_fs w)) !!! Z.to_nat off =? 0 then
      if i32 (free_cnt (relinquish_table (w_fs w)) + 1) =? FILE_DATA_COUNT then
        relinquish_delete lk fid (with_fs (mark_slot off) w)
      else (with_fs (mark_slot off) w, Val tt)
    else (w, Val tt).
Proof.
  unfold relinquish_mark. rewrite bind_get.
  destruct (_ =? 0); [|done]. rewrite !bind_put, bind_get. simpl.
  destruct (_ =? FILE_DATA_COUNT); done.
Qed.

(** All of the store record but the cache array. *)
Definition but_cache (fs : file_store_t) : file_store_t := set_data_cache None fs.

Lemma relinquish_clear_cache_keeps d :
  pres (keeps but_cache any_ev) never (relinquish_clear_cache d).
Proof. unfold relinquish_clear_cache. pres_go. Qed.

Lemma relinquish_delete_fs lk fid w w' r :
  relinquish_delete lk fid w = (w', r) → w_fs w' = w_fs w.
Proof.
  intros H. eapply (keeps_fs _ _ _ _ _ H). Unshelve.
  unfold relinquish_delete, delete_tbl_file, delete_dat_file. pres_go.
Qed.

(** When the table in memory is the one of the bucket of [sid], the
    preparation only clears the cache slot. *)
Lemma relinquish_prepare_same_bucket sid w :
  GET_FILEID (GET_DATAID sid) = GET_FILEID (GET_DATAID (relinquish_data_id (w_fs w))) →
  ∃ w1, relinquish_prepare sid w = (w1, Val tt) ∧
        but_cache (w_fs w1) = but_cache (w_fs w) ∧ w_disk w1 = w_disk w ∧ w_io w1 = w_io w.
Proof.
  intros Hsame. unfold relinquish_prepare, bplib_os_lock, relinquish_load_table.
  rewrite bind_get, bind_emit, bind_get. simpl. rewrite <- Hsame, Z.eqb_refl. simpl.
  destruct (relinquish_clear_cache (GET_DATAID sid)
              (with_log (w_log w ++ [EvLock (lock (w_fs w))]) w)) as [w1 r] eqn:Hc.
  rewrite (bind_val _ _ _ w1 tt).
  - exists w1. split; [done|].
    pose proof Hc as Hc'. apply relinquish_clear_cache_keeps in Hc' as [[Hv _] _].
    split; [exact Hv|]. clear Hv. unfold relinquish_clear_cache in Hc.
    rewrite !bind_get in Hc. destruct (mem_ptr _); [|by injection Hc as <- <-].
    destruct (_ =? _); [|by injection Hc as <- <-].
    simpl in Hc. msimpl_in Hc. by injection Hc as <- <-.
  - pose proof Hc as Hc'.
    apply (pres_val _ _ _ _ _ (relinquish_clear_cache_keeps _)) in Hc' as [_ [[] ->]]. done.
Qed.

Lemma relinquish_delete_keeps lk fid :
  pres (keeps id any_ev) (λ e, e = BP_FAILEDSTORE) (relinquish_delete lk fid).
Proof. unfold relinquish_delete, delete_tbl_file, delete_dat_file. pres_go. Qed.

(** Relinquish of a sid of the current bucket, as the marking of the slot
    between the preparation and the unlock. *)
Lemma relinquish_same_bucket sid w :
  let fid := GET_FILEID (GET_DATAID sid) in
  let off := GET_DATAOFFSET (GET_DATAID sid) in
  fid = GET_FILEID (GET_DATAID (relinquish_data_id (w_fs w))) →
  ∃ w1, relinquish_prepare sid w = (w1, Val tt) ∧
        but_cache (w_fs w1) = but_cache (w_fs w) ∧ w_disk w1 = w_disk w ∧ w_io w1 = w_io w ∧
        call (bplib_store_file_relinquish sid) w =
          match relinquish_mark (lock (w_fs w1)) fid off w1 with
          | (w2, Val _) => (with_log (w_log w2 ++ [EvUnlock (lock (w_fs w1))]) w2, BP_SUCCESS)
          | (w2, Ret e) => (w2, e)
          end.
Proof.
  intros fid off Hsame.
  destruct (relinquish_prepare_same_bucket sid w Hsame) as (w1 & Hp & Hv & Hd & Hio).
  exists w1. split_and!; [done..|].
  unfold call, bplib_store_file_relinquish. fold fid off.
  rewrite (bind_val _ _ _ _ _ Hp), bind_get.
  destruct (relinquish_mark (lock (w_fs w1)) fid off w1) as [w2 [[]|e]] eqn:Hm.
  - rewrite (bind_val _ _ _ _ _ Hm). unfold bplib_os_unlock. by rewrite bind_emit.
  - by rewrite (bind_ret _ _ _ _ _ Hm).
Qed.

Lemma GET_DATAOFFSET_range d : 0 ≤ GET_DATAOFFSET d < 256.
Proof. unfold GET_DATAOFFSET, u8. apply Z.mod_pos_bound. lia. Qed.

(** ** C10 *)

(** C10.  When the relinquish table in memory is the one of the bucket of
    [sid]: a relinquish of a slot that is already marked freed returns
    [BP_SUCCESS] and leaves [data_count] and the table (the freed map and
    [free_cnt]) as they were; a relinquish of a slot that is not yet
    marked decrements [data_count], marks the slot and increments
    [free_cnt]; and so a second relinquish right after a successful one
    returns [BP_SUCCESS] and changes none of them. *)
Theorem relinquish_again_changes_nothing (w : world) (sid : Z) :
  let off := GET_DATAOFFSET (GET_DATAID sid) in
  let t := relinquish_table (w_fs w) in
  GET_FILEID (GET_DATAID sid) = GET_FILEID (GET_DATAID (relinquish_data_id (w_fs w))) →
  (freed t !!! Z.to_nat off ≠ 0 →
     ∃ w', call (bplib_store_file_relinquish sid) w = (w', BP_SUCCESS) ∧
           data_count (w_fs w') = data_count (w_fs w) ∧
           relinquish_table (w_fs w') = t) ∧
  (freed t !!! Z.to_nat off = 0 →
     ∀ w' r, call (bplib_store_file_relinquish sid) w = (w', r) →
       data_count (w_fs w') = i32 (data_count (w_fs w) - 1) ∧
       relinquish_table (w_fs w') =
         {| freed := <[Z.to_nat off := 1]> (freed t); free_cnt := i32 (free_cnt t + 1) |}) ∧
  (length (freed t) = 256%nat →
     ∀ w1, call (bplib_store_file_relinquish sid) w = (w1, BP_SUCCESS) →
       ∃ w2, call (bplib_store_file_relinquish sid) w1 = (w2, BP_SUCCESS) ∧
             data_count (w_fs w2) = data_count (w_fs w1) ∧
             relinquish_table (w_fs w2) = relinquish_table (w_fs w1)).
Proof.
  intros off t Hsame.
  assert (∀ v, GET_FILEID (GET_DATAID sid) = GET_FILEID (GET_DATAID (relinquish_data_id (w_fs v))) →
            freed (relinquish_table (w_fs v)) !!! Z.to_nat off ≠ 0 →
            ∃ v', call (bplib_store_file_relinquish sid) v = (v', BP_SUCCESS) ∧
                  data_count (w_fs v') = data_count (w_fs v) ∧
                  relinquish_table (w_fs v') = relinquish_table (w_fs v)) as Hagain.
  { intros v Hv Hfreed.
    destruct (relinquish_same_bucket sid v Hv) as (v1 & _ & Hb & _ & _ & ->).
    apply (f_equal data_count) in Hb as Hdc. apply (f_equal relinquish_table) in Hb as Htb.
    simpl in Hdc, Htb. fold off. rewrite relinquish_mark_run, Htb.
    apply Z.eqb_neq in Hfreed. rewrite Hfreed. eexists. split; [reflexivity|]. done. }
  destruct (relinquish_same_bucket sid w Hsame) as (w1 & _ & Hb & _ & _ & Hcall).
  apply (f_equal data_count) in Hb as Hdc. apply (f_equal relinquish_table) in Hb as Htb.
  apply (f_equal relinquish_data_id) in Hb as Hid.
  simpl in Hdc, Htb, Hid. fold off in Hcall. rewrite relinquish_mark_run, Htb in Hcall. fold t in Hcall.
  assert (freed t !!! Z.to_nat off = 0 →
          ∀ w' r, call (bplib_store_file_relinquish sid) w = (w', r) →
                  w_fs w' = mark_slot off (w_fs w1)) as Hfirst.
  { intros Hz w' r Hc. rewrite Hcall in Hc. rewrite Hz in Hc. simpl in Hc.
    destruct (_ =? FILE_DATA_COUNT).
    - destruct (relinquish_delete _ _ _) as [w2 [[]|e]] eqn:Hd;
        apply relinquish_delete_fs in Hd; injection Hc as <- <-; done.
    - by injection Hc as <- <-. }
  split_and!.
  - by apply Hagain.
  - intros Hz w' r Hc. rewrite (Hfirst Hz w' r Hc). simpl. rewrite Hdc, Htb. done.
  - intros Hlen w' Hc.
    destruct (Z.eqb_spec (freed t !!! Z.to_nat off) 0) as [Hz|Hnz].
    + pose proof (Hfirst Hz w' _ Hc) as Hfs.
      apply Hagain; rewrite Hfs; simpl; [by rewrite Hid|].
      rewrite Htb. fold t. rewrite list_lookup_total_insert_eq; [done|].
      pose proof (GET_DATAOFFSET_range (GET_DATAID sid)). fold off in H. lia.
    + rewrite Hcall in Hc. injection Hc as <-. apply Hagain; simpl; [by rewrite Hid|by rewrite Htb].
Qed.

(** Two enqueued records, none dequeued. *)
Definition two_enqueued : world :=
  after [enqueue1 97; enqueue1 98] (fresh_store 4 [] []).

Lemma relinquish_again_changes_nothing_witness :
  let w := two_enqueued in
  let off := GET_DATAOFFSET (GET_DATAID 1) in
  let t := relinquish_table (w_fs w) in
  (freed t !!! Z.to_nat off ≠ 0 →
     ∃ w', call (bplib_store_file_relinquish 1) w = (w', BP_SUCCESS) ∧
           data_count (w_fs w') = data_count (w_fs w) ∧
           relinquish_table (w_fs w') = t) ∧
  (freed t !!! Z.to_nat off = 0 →
     ∀ w' r, call (bplib_store_file_relinquish 1) w = (w', r) →
       data_count (w_fs w') = i32 (data_count (w_fs w) - 1) ∧
       relinquish_table (w_fs w') =
         {| freed := <[Z.to_nat off := 1]> (freed t); free_cnt := i32 (free_cnt t + 1) |}) ∧
  (length (freed t) = 256%nat →
     ∀ w1, call (bplib_store_file_relinquish 1) w = (w1, BP_SUCCESS) →
       ∃ w2, call (bplib_store_file_relinquish 1) w1 = (w2, BP_SUCCESS) ∧
             data_count (w_fs w2) = data_count (w_fs w1) ∧
             relinquish_table (w_fs w2) = relinquish_table (w_fs w1)).
Proof. apply (relinquish_again_changes_nothing two_enqueued 1). by vm_compute. Defined.

(** ** C7 *)

(** "Delete Associated Files", by the outcomes the environment has in
    store for the two removals. *)
Lemma relinquish_delete_run lk fid w :
  let svc := i32 (service_id (w_fs w)) in
  let tbl := tbl_name svc (root (w_fs w)) fid in
  let dat := dat_name svc (root (w_fs w)) fid in
  let r_tbl := default IoOk (head (w_io w)) in
  let r_dat := default IoOk (head (tail (w_io w))) in
  ∃ w' r evs,
    relinquish_delete lk fid w = (w', r) ∧
    w_fs w' = w_fs w ∧ w_log w' = w_log w ++ evs ∧
    EvRemove tbl ∈ evs ∧ EvRemove dat ∈ evs ∧
    (r_tbl ≠ IoFail → w_disk w' !! tbl = None) ∧
    (r_dat ≠ IoFail → is_Some (w_disk w !! dat) → r = Val tt ∧ w_disk w' !! dat = None) ∧
    (r_dat = IoFail ∨ w_disk w !! dat = None →
       r = Ret BP_FAILEDSTORE ∧ w_disk w' !! dat = w_disk w !! dat).
Proof.
  intros svc tbl dat r_tbl r_dat. unfold relinquish_delete. rewrite !bind_get. fold svc.
  destruct (delete_tbl_file_run svc (root (w_fs w)) fid w)
    as (w1 & v1 & Ht & Hfs1 & Hio1 & (evs1 & Hlog1 & _) & Htf & Htok).
  fold tbl in Hlog1, Htf, Htok. fold r_tbl in Htf, Htok.
  rewrite (bind_val _ _ _ _ _ Ht).
  destruct (delete_dat_file_run svc (root (w_fs w)) fid w1)
    as (w2 & v2 & Hd & Hfs2 & Hio2 & (evs2 & Hlog2) & Hdok & Hdf).
  fold dat in Hlog2, Hdok, Hdf. rewrite Hio1 in Hdok, Hdf. fold r_dat in Hdok, Hdf.
  rewrite (bind_val _ _ _ _ _ Hd).
  assert (tbl ≠ dat) as Hne by done.
  assert (w_disk w1 !! dat = w_disk w !! dat) as Hsame.
  { destruct (decide (r_tbl = IoFail)) as [Hr|Hr].
    - by destruct (Htf Hr) as [_ ->].
    - destruct (Htok Hr) as [_ ->]. by apply lookup_delete_ne. }
  assert (r_tbl ≠ IoFail → w_disk w1 !! tbl = None) as Hgone.
  { intros Hr. destruct (Htok Hr) as [_ ->]. apply lookup_delete_eq. }
  rewrite Hsame in Hdok, Hdf.
  destruct (decide (r_dat ≠ IoFail ∧ is_Some (w_disk w !! dat))) as [Hok|Hno].
  - destruct (Hdok Hok) as [-> Hdisk].
    eexists _, _, (EvRemove tbl :: evs1 ++ EvRemove dat :: evs2).
    split; [reflexivity|]. split_and!.
    + congruence.
    + rewrite Hlog2, Hlog1, <- !(assoc_L (++)). done.
    + apply list_elem_of_here.
    + apply list_elem_of_further, elem_of_app. right. apply list_elem_of_here.
    + intros Hr. rewrite Hdisk, lookup_delete_ne by done. auto.
    + intros _ _. split; [done|]. rewrite Hdisk. apply lookup_delete_eq.
    + intros [Hr|Hn]; [by destruct Hok|]. destruct Hok as [_ [? ?]]. congruence.
  - assert (r_dat = IoFail ∨ w_disk w !! dat = None) as Hf.
    { destruct (decide (r_dat = IoFail)); [by left|right].
      destruct (w_disk w !! dat) eqn:Hl; [|done]. exfalso. apply Hno. eauto. }
    destruct (Hdf Hf) as [-> Hdisk]. unfold bplib_os_unlock, bplog. msimpl.
    eexists _, _, (EvRemove tbl :: evs1 ++ EvRemove dat :: evs2 ++ [EvUnlock lk; EvLog BP_FAILEDSTORE]).
    split; [reflexivity|]. simpl. split_and!.
    + congruence.
    + rewrite Hlog2, Hlog1. repeat (rewrite <- (assoc_L (++)); simpl). done.
    + apply list_elem_of_here.
    + apply list_elem_of_further, elem_of_app. right. apply list_elem_of_here.
    + intros Hr. rewrite Hdisk. auto.
    + intros Hr Hs. exfalso. apply Hno. done.
    + intros _. split; [done|]. by rewrite Hdisk.
Qed.

(** C7.  When a relinquish brings [free_cnt] of the bucket's table to 256
    (the slot was not yet marked and the count stood at 255), the call
    asks for the removal of both the [.tbl] and the [.dat] file of the
    bucket; the [.tbl] file is gone afterwards unless its removal was
    refused; the call returns [BP_SUCCESS], with the [.dat] file gone,
    whenever the [.dat] file was there and its removal went through,
    whatever became of the [.tbl] file, and [BP_FAILEDSTORE] when the
    [.dat] file could not be removed; and [delete_tbl_file] on a [.tbl]
    file that does not exist answers 0. *)
Theorem relinquish_full_bucket_deletes_files (w : world) (sid : Z) :
  let fid := GET_FILEID (GET_DATAID sid) in
  let off := GET_DATAOFFSET (GET_DATAID sid) in
  let w1 := (relinquish_prepare sid w).1 in
  let t := relinquish_table (w_fs w1) in
  let svc := i32 (service_id (w_fs w1)) in
  let tbl := tbl_name svc (root (w_fs w1)) fid in
  let dat := dat_name svc (root (w_fs w1)) fid in
  let r_tbl := default IoOk (head (w_io w1)) in
  let r_dat := default IoOk (head (tail (w_io w1))) in
  (relinquish_prepare sid w).2 = Val tt →
  freed t !!! Z.to_nat off = 0 →
  i32 (free_cnt t + 1) = FILE_DATA_COUNT →
  ∃ w' r evs,
    call (bplib_store_file_relinquish sid) w = (w', r) ∧
    w_log w' = w_log w1 ++ evs ∧ EvRemove tbl ∈ evs ∧ EvRemove dat ∈ evs ∧
    (r_tbl ≠ IoFail → w_disk w' !! tbl = None) ∧
    (r_dat ≠ IoFail → is_Some (w_disk w1 !! dat) →
       r = BP_SUCCESS ∧ w_disk w' !! dat = None) ∧
    (r_dat = IoFail ∨ w_disk w1 !! dat = None → r = BP_FAILEDSTORE) ∧
    (w_disk w1 !! tbl = None → r_tbl ≠ IoFail →
       (delete_tbl_file svc (root (w_fs w1)) fid (with_fs (mark_slot off) w1)).2 = Val (Num 0)).
Proof.
  intros fid off w1 t svc tbl dat r_tbl r_dat Hp Hfreed Hcnt.
  destruct (relinquish_prepare sid w) as [w1' [[]|e]] eqn:Hprep; [|done].
  simpl in w1. subst w1. clear Hp.
  unfold call, bplib_store_file_relinquish. fold fid off.
  rewrite (bind_val _ _ _ _ _ Hprep), bind_get.
  destruct (relinquish_delete_run (lock (w_fs w1')) fid (with_fs (mark_slot off) w1'))
    as (w2 & r & evs & Hd & Hfs & Hlog & Htbl & Hdat & Htgone & Hok & Hfail).
  simpl in Hlog, Htbl, Hdat, Htgone, Hok, Hfail.
  fold svc in Htbl, Hdat, Htgone, Hok, Hfail. fold tbl in Htbl, Htgone. fold dat in Hdat, Hok, Hfail.
  fold r_tbl in Htgone. fold r_dat in Hok, Hfail.
  assert (w_disk w1' !! tbl = None → r_tbl ≠ IoFail →
          (delete_tbl_file svc (root (w_fs w1')) fid (with_fs (mark_slot off) w1')).2 = Val (Num 0))
    as Hzero.
  { intros _ Hr.
    destruct (delete_tbl_file_run svc (root (w_fs w1')) fid (with_fs (mark_slot off) w1'))
      as (w3 & v & -> & _ & _ & _ & _ & Hv).
    simpl in Hv. fold r_tbl in Hv. by destruct (Hv Hr) as [-> _]. }
  assert (relinquish_mark (lock (w_fs w1')) fid off w1' = (w2, r)) as Hm.
  { rewrite relinquish_mark_run. fold t. by rewrite Hfreed, Hcnt. }
  clear Hd. rename Hm into Hd.
  destruct r as [[]|e].
  - rewrite (bind_val _ _ _ _ _ Hd). unfold bplib_os_unlock. rewrite bind_emit.
    eexists _, _, (evs ++ [EvUnlock (lock (w_fs w1'))]). split; [reflexivity|]. simpl.
    split_and!; try done.
    + by rewrite Hlog, <- (assoc_L (++)).
    + apply elem_of_app. by left.
    + apply elem_of_app. by left.
    + intros Hr Hs. by destruct (Hok Hr Hs) as [_ ?].
    + intros Hf. by destruct (Hfail Hf).
  - rewrite (bind_ret _ _ _ _ _ Hd).
    eexists _, _, evs. split; [reflexivity|]. split_and!; try done.
    + intros Hr Hs. by destruct (Hok Hr Hs).
    + intros Hf. destruct (Hfail Hf) as [He _]. by injection He as ->.
Qed.

(** One record enqueued, and slots 0 to 254 of bucket 0 relinquished. *)
Definition one_slot_left : world :=
  after (bplib_store_file_relinquish <$> seqZ 1 255) (after [enqueue1 97] (fresh_store 4 [] [])).

Lemma relinquish_full_bucket_deletes_files_witness :
  let w := one_slot_left in
  let fid := GET_FILEID (GET_DATAID 256) in
  let w1 := (relinquish_prepare 256 w).1 in
  let svc := i32 (service_id (w_fs w1)) in
  let tbl := tbl_name svc (root (w_fs w1)) fid in
  let dat := dat_name svc (root (w_fs w1)) fid in
  ∃ w' r evs,
    call (bplib_store_file_relinquish 256) w = (w', r) ∧
    w_log w' = w_log w1 ++ evs ∧ EvRemove tbl ∈ evs ∧ EvRemove dat ∈ evs ∧
    (default IoOk (head (w_io w1)) ≠ IoFail → w_disk w' !! tbl = None) ∧
    (default IoOk (head (tail (w_io w1))) ≠ IoFail → is_Some (w_disk w1 !! dat) →
       r = BP_SUCCESS ∧ w_disk w' !! dat = None) ∧
    (default IoOk (head (tail (w_io w1))) = IoFail ∨ w_disk w1 !! dat = None →
       r = BP_FAILEDSTORE) ∧
    (w_disk w1 !! tbl = None → default IoOk (head (w_io w1)) ≠ IoFail →
       (delete_tbl_file svc (root (w_fs w1)) fid
          (with_fs (mark_slot (GET_DATAOFFSET (GET_DATAID 256))) w1)).2 = Val (Num 0)).
Proof. apply (relinquish_full_bucket_deletes_files one_slot_left 256); by vm_compute. Defined.

(** ** Enqueue when every stdio call goes through *)

(** The stream [fd] appends to the file [name]. *)
Definition appends_to (w : world) (fd : positive) (name : fname) : Prop :=
  ∃ s, w_streams w !! fd = Some s ∧ st_name s = name ∧ st_mode s = ModeAppend.

Lemma fopen_append_run name w :
  w_io w = [] →
  ∃ fd w', fopen name ModeAppend w = (w', Val (Some fd)) ∧
           w_fs w' = w_fs w ∧ w_io w' = [] ∧ appends_to w' fd name ∧
           ∀ n, file_of w' n = file_of w n.
Proof.
  intros Hio. unfold fopen. rewrite bind_emit, bind_next_io. simpl. rewrite Hio. simpl.
  unfold act. simpl.
  destruct (w_disk w !! name) eqn:Hl;
  (eexists _, _; split; [reflexivity|]; simpl; split_and!; try done;
   [ unfold appends_to; simpl; eexists; by rewrite lookup_insert_eq
   | intros n; unfold file_of; simpl;
     destruct (decide (n = name)) as [->|Hn];
     [ by rewrite lookup_insert_eq, Hl | by rewrite lookup_insert_ne ] ]).
Qed.


Lemma fwrite_append_run fd data name w :
  w_io w = [] → appends_to w fd name →
  ∃ w', fwrite fd data w = (w', Val (len data)) ∧
        w_fs w' = w_fs w ∧ w_io w' = [] ∧ appends_to w' fd name ∧
        file_of w' name = file_of w name ++ data ∧
        ∀ n, n ≠ name → file_of w' n = file_of w n.
Proof.
  intros Hio (s & Hs & Hname & Hmode). unfold fwrite. rewrite bind_next_io. rewrite Hio.
  unfold act. simpl. rewrite Hs. unfold written, write_through, advance. rewrite Hmode, Hname.
  destruct (bool_decide (data = [])) eqn:Hd.
  - apply bool_decide_eq_true in Hd as ->.
    eexists. split; [reflexivity|]. simpl. split_and!; try done.
    + by exists s.
    + by rewrite app_nil_r.
  - eexists. split; [reflexivity|]. simpl. split_and!; try done.
    + unfold appends_to. simpl. eexists. by rewrite lookup_insert_eq.
    + unfold file_of. simpl. by rewrite lookup_insert_eq.
    + intros n Hn. unfold file_of. simpl. by rewrite lookup_insert_ne.
Qed.

Lemma u32_small z : 0 ≤ z < 2 ^ 32 → u32 z = z.
Proof. apply Z.mod_small. Qed.

Lemma len_le_bytes n z : length (le_bytes n z) = n.
Proof. revert z. induction n; intros; simpl; [done|]. by rewrite IHn. Qed.

Lemma len_hdr_bytes h : len (hdr_bytes h) = HDR_SIZE.
Proof. unfold len, hdr_bytes. by rewrite !length_app, !len_le_bytes. Qed.

(** The bytes of one record of a bucket file: the size word, the header
    and the two buffers. *)
Definition record_bytes (handle : Z) (data1 data2 : list byte) : list byte :=
  let data_size := u32 (len data1 + len data2) in
  le_bytes 4 (u32 (HDR_SIZE + data_size)) ++
  hdr_bytes {| hdr_handle := handle; hdr_sid := BP_SID_VACANT; hdr_size := data_size |} ++
  data1 ++ data2.

Lemma enqueue_write_run fd h d1 d2 name w :
  w_io w = [] → appends_to w fd name →
  len d1 + len d2 + 20 < 2 ^ 32 →
  ∃ w', enqueue_write fd h d1 d2 w =
          (w', Val (u32 (HDR_SIZE + u32 (len d1 + len d2)) + 4, false)) ∧
        w_fs w' = w_fs w ∧ w_io w' = [] ∧ appends_to w' fd name ∧
        file_of w' name = file_of w name ++ record_bytes h d1 d2 ∧
        ∀ n, n ≠ name → file_of w' n = file_of w n.
Proof.
  intros Hio Hfd Hsz. unfold enqueue_write.
  destruct (fwrite_append_run fd (le_bytes 4 (u32 (HDR_SIZE + u32 (len d1 + len d2)))) name w Hio Hfd)
    as (w1 & H1 & Hfs1 & Hio1 & Hfd1 & Hf1 & Ho1).
  rewrite (bind_val _ _ _ _ _ H1).
  destruct (fwrite_append_run fd
              (hdr_bytes {| hdr_handle := h; hdr_sid := BP_SID_VACANT;
                            hdr_size := u32 (len d1 + len d2) |}) name w1 Hio1 Hfd1)
    as (w2 & H2 & Hfs2 & Hio2 & Hfd2 & Hf2 & Ho2).
  rewrite (bind_val _ _ _ _ _ H2).
  destruct (fwrite_append_run fd d1 name w2 Hio2 Hfd2) as (w3 & H3 & Hfs3 & Hio3 & Hfd3 & Hf3 & Ho3).
  rewrite (bind_val _ _ _ _ _ H3).
  destruct (fwrite_append_run fd d2 name w3 Hio3 Hfd3) as (w4 & H4 & Hfs4 & Hio4 & Hfd4 & Hf4 & Ho4).
  rewrite (bind_val _ _ _ _ _ H4).
  unfold file_flush, FILE_FLUSH_DEFAULT, fflush. msimpl. rewrite bind_next_io. simpl.
  rewrite Hio4. simpl. rewrite bind_mret. simpl. rewrite bind_mret.
  eexists. split.
  - unfold mret, M_ret. do 3 f_equal.
    rewrite len_hdr_bytes.
    pose proof (Nat2Z.is_nonneg (length d1)). pose proof (Nat2Z.is_nonneg (length d2)).
    unfold len in *. simpl length. unfold HDR_SIZE.
    set (L1 := Z.of_nat (length d1)) in *. set (L2 := Z.of_nat (length d2)) in *.
    rewrite (u32_small (L1 + L2)) by lia.
    rewrite (u32_small (16 + (L1 + L2))) by lia.
    rewrite (u32_small (0 + _)) by lia.
    rewrite (u32_small (0 + _ + 16)) by lia.
    rewrite (u32_small (0 + _ + 16 + L1)) by lia.
    rewrite (u32_small (0 + _ + 16 + L1 + L2)) by lia. lia.
  - change (file_of (with_io [] (with_log (w_log w4 ++ [EvFlush fd]) w4)))
      with (file_of w4).
    split_and!.
    + simpl. congruence.
    + done.
    + done.
    + rewrite Hf4, Hf3, Hf2, Hf1. unfold record_bytes. by rewrite <- !(assoc_L (++)).
    + intros n Hn. rewrite Ho4, Ho3, Ho2, Ho1; done.
Qed.

(** The write stream of the store, when it is open, appends to [name]. *)
Definition writes_to (w : world) (name : fname) : Prop :=
  match write_fd (w_fs w) with
  | Some fd => appends_to w fd name
  | None => True
  end.

(** The bucket file that record [data_id] belongs to. *)
Definition bucket_of (fs : file_store_t) (data_id : Z) : fname :=
  dat_name (i32 (service_id fs)) (root fs) (GET_FILEID data_id).

Lemma enqueue_open_run d w :
  w_io w = [] → write_error (w_fs w) = false → writes_to w (bucket_of (w_fs w) d) →
  ∃ fd w1, enqueue_open d w = (w1, Val fd) ∧
           w_fs w1 = set_write_fd (Some fd) (w_fs w) ∧ w_io w1 = [] ∧
           appends_to w1 fd (bucket_of (w_fs w) d) ∧
           ∀ n, file_of w1 n = file_of w n.
Proof.
  intros Hio Herr Hfd. unfold enqueue_open, writes_to in *. rewrite bind_get.
  destruct (write_fd (w_fs w)) as [fd|] eqn:Hw.
  - exists fd, w. split_and!; try done. destruct (w_fs w). simpl in *. by subst.
  - rewrite !bind_get. unfold open_dat_file.
    destruct (fopen_append_run (bucket_of (w_fs w) d) w Hio) as (fd & w1 & Ho & Hfs & Hio1 & Hs & Hf).
    unfold bucket_of in Ho. rewrite bind_assoc, (bind_val _ _ _ _ _ Ho). msimpl.
    simpl. rewrite Hfs, Herr. msimpl.
    exists fd. eexists. split; [reflexivity|]. simpl. split_and!; try done.
    by rewrite Hfs.
Qed.

Lemma enqueue_finish_run fd osz name w :
  w_io w = [] → write_fd (w_fs w) = Some fd → appends_to w fd name →
  ∃ w', enqueue_finish fd osz (osz + 4, false) w = (w', Val BP_SUCCESS) ∧
        w_fs w' =
          set_data_count (i32 (data_count (w_fs w) + 1))
            (set_write_data_id (u64 (write_data_id (w_fs w) + 1))
               (set_write_error false
                  (if write_data_id (w_fs w) mod FILE_DATA_COUNT =? 0
                   then set_write_fd None (w_fs w) else w_fs w))) ∧
        w_io w' = [] ∧
        (write_data_id (w_fs w) mod FILE_DATA_COUNT ≠ 0 → appends_to w' fd name) ∧
        ∀ n, file_of w' n = file_of w n.
Proof.
  intros Hio Hfd Hs. unfold enqueue_finish.
  rewrite bool_decide_eq_false_2 by (intros H; by apply H). simpl.
  rewrite bind_get.
  destruct (write_data_id (w_fs w) mod FILE_DATA_COUNT =? 0) eqn:Hm.
  - unfold fclose, bplib_os_signal. msimpl. simpl.
    eexists. split; [reflexivity|]. simpl. split_and!; try done.
    intros Hne. apply Z.eqb_eq in Hm. done.
  - unfold bplib_os_signal. msimpl. simpl.
    eexists. split; [reflexivity|]. simpl. split_and!; done.
Qed.

(** One enqueue when every stdio call goes through: the record is
    appended to the bucket file of [write_data_id]. *)
Lemma enqueue_appends h d1 d2 t w :
  let wid := write_data_id (w_fs w) in
  let name := bucket_of (w_fs w) (GET_DATAID wid) in
  w_io w = [] → write_error (w_fs w) = false → writes_to w name →
  len d1 + len d2 + 20 < 2 ^ 32 →
  ∃ w', call (bplib_store_file_enqueue h d1 d2 t) w = (w', BP_SUCCESS) ∧
        w_io w' = [] ∧ write_error (w_fs w') = false ∧
        write_data_id (w_fs w') = u64 (wid + 1) ∧
        data_count (w_fs w') = i32 (data_count (w_fs w) + 1) ∧
        service_id (w_fs w') = service_id (w_fs w) ∧ file_root (w_fs w') = file_root (w_fs w) ∧
        (write_fd (w_fs w') = None ↔ wid mod FILE_DATA_COUNT = 0) ∧
        writes_to w' name ∧
        file_of w' name = file_of w name ++ record_bytes h d1 d2 ∧
        ∀ n, n ≠ name → file_of w' n = file_of w n.
Proof.
  intros wid name Hio Herr Hfd Hsz.
  unfold call, bplib_store_file_enqueue. rewrite bind_get. fold wid.
  destruct (enqueue_open_run (GET_DATAID wid) w Hio Herr Hfd)
    as (fd & w1 & Ho & Hfs1 & Hio1 & Hs1 & Hf1).
  fold name in Hs1. rewrite (bind_val _ _ _ _ _ Ho).
  destruct (enqueue_write_run fd h d1 d2 name w1 Hio1 Hs1 Hsz)
    as (w2 & Hw & Hfs2 & Hio2 & Hs2 & Hf2 & Ho2).
  rewrite (bind_val _ _ _ _ _ Hw).
  assert (write_fd (w_fs w2) = Some fd) as Hwfd by (by rewrite Hfs2, Hfs1).
  destruct (enqueue_finish_run fd (u32 (HDR_SIZE + u32 (len d1 + len d2))) name w2 Hio2 Hwfd Hs2)
    as (w3 & Hfin & Hfs3 & Hio3 & Hs3 & Hf3).
  rewrite Hfin. exists w3. split; [done|].
  assert (write_data_id (w_fs w2) = wid) as Hwid by (by rewrite Hfs2, Hfs1).
  rewrite Hwid in Hfs3, Hs3.
  split_and!; try done.
  - by rewrite Hfs3.
  - by rewrite Hfs3.
  - rewrite Hfs3. simpl. by rewrite Hfs2, Hfs1.
  - rewrite Hfs3. simpl. destruct (_ =? 0); simpl; by rewrite Hfs2, Hfs1.
  - rewrite Hfs3. simpl. destruct (_ =? 0); simpl; by rewrite Hfs2, Hfs1.
  - rewrite Hfs3. simpl. destruct (Z.eqb_spec (wid mod FILE_DATA_COUNT) 0) as [Hz|Hz]; simpl.
    + done.
    + rewrite Hwfd. split; [done|]. intros ?. done.
  - unfold writes_to. rewrite Hfs3. simpl.
    destruct (Z.eqb_spec (wid mod FILE_DATA_COUNT) 0) as [Hz|Hz]; simpl; [done|].
    rewrite Hwfd. by apply Hs3.
  - by rewrite Hf3, Hf2, Hf1.
  - intros n Hn. by rewrite Hf3, Ho2, Hf1.
Qed.

(** ** Runs of enqueues *)

(** What one enqueue is given: the handle and the two buffers. *)
Definition item : Type := Z * list byte * list byte.

Definition item_bytes (x : item) : list byte := record_bytes x.1.1 x.1.2 x.2.

(** The sizes of the record fit the 32-bit size word. *)
Definition fits (x : item) : Prop := len x.1.2 + len x.2 + 20 < 2 ^ 32.


(** The records [256 * k], ..., [256 * k + 255] of [items]. *)
Definition bucket (k : Z) (items : list item) : list item :=
  take 256 (drop (Z.to_nat (256 * k)) items).

Lemma GET_DATAID_next n : 0 ≤ n < 2 ^ 32 → GET_DATAID (1 + n) = n.
Proof.
  intros Hn. unfold GET_DATAID, u64, u32.
  rewrite (Z.mod_small (1 + n)) by lia. replace (1 + n - 1) with n by lia.
  by apply Z.mod_small.
Qed.

Lemma GET_FILEID_div d : 0 ≤ d < 2 ^ 32 → GET_FILEID d = d / 256.
Proof.
  intros Hd. unfold GET_FILEID, u32. rewrite Z.shiftr_div_pow2 by lia.
  change (2 ^ 8) with 256. apply Z.mod_small.
  split; [apply Z.div_pos; lia|]. apply Z.div_lt_upper_bound; lia.
Qed.

Lemma bucket_snoc k (items : list item) x :
  0 ≤ k →
  bucket k (items ++ [x]) =
    if decide (k = len items / 256) then bucket k items ++ [x] else bucket k items.
Proof.
  intros Hk. unfold bucket, len.
  set (n := length items).
  pose proof (Z.div_mod (Z.of_nat n) 256 ltac:(lia)) as Hdm.
  pose proof (Z.mod_pos_bound (Z.of_nat n) 256 ltac:(lia)) as Hmod.
  destruct (decide (k = Z.of_nat n / 256)) as [->|Hne].
  - rewrite drop_app_le by (fold n; lia).
    rewrite take_app_ge by (rewrite length_drop; fold n; lia).
    rewrite (take_ge (drop _ items)) by (rewrite length_drop; fold n; lia).
    f_equal. apply take_ge. rewrite length_drop. fold n. simpl. lia.
  - destruct (Z.lt_ge_cases k (Z.of_nat n / 256)) as [Hlt|Hge].
    + assert (256 * k + 256 ≤ Z.of_nat n) by nia.
      rewrite drop_app_le by (fold n; lia).
      apply take_app_le. rewrite length_drop. fold n. lia.
    + assert (Z.of_nat n < 256 * k) by nia.
      rewrite !drop_ge; [done|fold n; lia|rewrite length_app; simpl; fold n; lia].
Qed.

(** What holds between the enqueues of a run that began with an empty
    store in a directory without bucket files. *)
Record filled (w0 w : world) (items : list item) : Prop := {
  filled_io : w_io w = [];
  filled_error : write_error (w_fs w) = false;
  filled_write_id : write_data_id (w_fs w) = 1 + len items;
  filled_count : data_count (w_fs w) = len items;
  filled_service : service_id (w_fs w) = service_id (w_fs w0);
  filled_root : file_root (w_fs w) = file_root (w_fs w0);
  filled_closed : write_fd (w_fs w) = None ↔ len items mod FILE_DATA_COUNT = 0;
  filled_stream : writes_to w (bucket_of (w_fs w0) (len items));
  filled_files : ∀ k, 0 ≤ k →
    file_of w (dat_name (i32 (service_id (w_fs w0))) (root (w_fs w0)) k) =
      concat (item_bytes <$> bucket k items);
}.

Lemma i32_small z : - 2 ^ 31 ≤ z < 2 ^ 31 → i32 z = z.
Proof. intros H. unfold i32. rewrite Z.mod_small; lia. Qed.

Lemma filled_step w0 w items x :
  filled w0 w items → fits x → len items + 1 < 2 ^ 31 →
  ∃ w', call (bplib_store_file_enqueue x.1.1 x.1.2 x.2 0) w = (w', BP_SUCCESS) ∧
        filled w0 w' (items ++ [x]).
Proof.
  intros [Hio Herr Hwid Hdc Hsvc Hrt Hcl Hst Hfiles] Hfit Hlen.
  assert (0 ≤ len items) as Hpos by (unfold len; lia).
  assert (len (items ++ [x]) = len items + 1) as Hlen'.
  { unfold len. rewrite length_app. simpl. lia. }
  assert (root (w_fs w) = root (w_fs w0)) as Hroot by (unfold root; by rewrite Hrt).
  assert (bucket_of (w_fs w) (GET_DATAID (write_data_id (w_fs w))) =
          dat_name (i32 (service_id (w_fs w0))) (root (w_fs w0)) (len items / 256)) as Hname.
  { unfold bucket_of. rewrite Hsvc, Hroot, Hwid, GET_DATAID_next, GET_FILEID_div by lia. done. }
  assert (bucket_of (w_fs w0) (len items) =
          dat_name (i32 (service_id (w_fs w0))) (root (w_fs w0)) (len items / 256)) as Hname0.
  { unfold bucket_of. by rewrite GET_FILEID_div by lia. }
  destruct (enqueue_appends x.1.1 x.1.2 x.2 0 w) as
    (w' & Hcall & Hio' & Herr' & Hwid' & Hdc' & Hsvc' & Hrt' & Hcl' & Hst' & Hf' & Ho');
    [done|done|by rewrite Hname, <- Hname0|done|].
  rewrite Hname in Hst', Hf', Ho'. rewrite Hwid in Hwid', Hcl'. rewrite Hdc in Hdc'.
  exists w'. split; [done|].
  pose proof (Z.div_mod (len items) 256 ltac:(lia)) as Hdm.
  pose proof (Z.mod_pos_bound (len items) 256 ltac:(lia)) as Hmod.
  pose proof (Z.div_mod (len items + 1) 256 ltac:(lia)) as Hdm1.
  pose proof (Z.mod_pos_bound (len items + 1) 256 ltac:(lia)) as Hmod1.
  split.
  - done.
  - done.
  - rewrite Hwid', Hlen'. unfold u64. rewrite Z.mod_small; lia.
  - rewrite Hdc', Hlen'. apply i32_small. lia.
  - congruence.
  - congruence.
  - rewrite Hcl', Hlen'. unfold FILE_DATA_COUNT. by replace (1 + len items) with (len items + 1) by lia.
  - unfold writes_to in *. destruct (write_fd (w_fs w')) as [fd|] eqn:Hfd; [|done].
    assert ((len items + 1) mod 256 ≠ 0) as Hnz.
    { intros Hz. unfold FILE_DATA_COUNT in Hcl'.
      replace (1 + len items) with (len items + 1) in Hcl' by lia.
      apply Hcl' in Hz. done. }
    unfold bucket_of. rewrite Hlen', GET_FILEID_div by lia.
    replace ((len items + 1) / 256) with (len items / 256) by nia. done.
  - intros k Hk. rewrite bucket_snoc by done.
    destruct (decide (k = len items / 256)) as [->|Hne].
    + rewrite Hf', Hfiles by (apply Z.div_pos; lia).
      rewrite fmap_app, concat_app. simpl. by rewrite app_nil_r.
    + rewrite Ho'; [by apply Hfiles|]. intros Heq. injection Heq as ?. done.
Qed.





(** ** C5 *)


Lemma fresh_store_no_files name : file_of (fresh_store 4 [] []) name = [].
Proof.
  unfold file_of.
  assert (w_disk (fresh_store 4 [] []) = ∅) as -> by (vm_compute; reflexivity).
  done.
Defined.


(** * Further properties of the code *)

(** ** The id macros *)

Lemma GET_DATAOFFSET_mod d : GET_DATAOFFSET d = d mod 256.
Proof.
  unfold GET_DATAOFFSET, u8. change 255 with (Z.ones 8). rewrite Z.land_ones by lia.
  change (2 ^ 8) with 256. apply Z.mod_mod. lia.
Qed.

(** X1.  For a sid between 1 and 2^32 the data id is [sid - 1]; the file id
    and the offset of a data id are its quotient and remainder by 256, the
    offset below 256 and the file id below 2^24; and the vacant sid 0 wraps
    to the last data id, slot 255 of the last bucket. *)
Theorem data_id_splits_into_file_and_offset (sid : Z) :
  1 ≤ sid ≤ 2 ^ 32 →
  let d := GET_DATAID sid in
  d = sid - 1 ∧
  d = 256 * GET_FILEID d + GET_DATAOFFSET d ∧
  0 ≤ GET_DATAOFFSET d < 256 ∧ 0 ≤ GET_FILEID d < 2 ^ 24 ∧
  GET_DATAID BP_SID_VACANT = 2 ^ 32 - 1 ∧
  GET_FILEID (GET_DATAID BP_SID_VACANT) = 2 ^ 24 - 1 ∧
  GET_DATAOFFSET (GET_DATAID BP_SID_VACANT) = 255.
Proof.
  intros Hsid d.
  assert (d = sid - 1) as Hd.
  { unfold d, GET_DATAID, u64, u32. rewrite (Z.mod_small sid) by lia. apply Z.mod_small. lia. }
  rewrite GET_DATAOFFSET_mod, GET_FILEID_div by lia.
  pose proof (Z.div_mod d 256 ltac:(lia)). pose proof (Z.mod_pos_bound d 256 ltac:(lia)).
  split_and!; try done; lia.
Qed.

Lemma data_id_splits_into_file_and_offset_witness :
  let d := GET_DATAID 257 in
  d = 257 - 1 ∧
  d = 256 * GET_FILEID d + GET_DATAOFFSET d ∧
  0 ≤ GET_DATAOFFSET d < 256 ∧ 0 ≤ GET_FILEID d < 2 ^ 24 ∧
  GET_DATAID BP_SID_VACANT = 2 ^ 32 - 1 ∧
  GET_FILEID (GET_DATAID BP_SID_VACANT) = 2 ^ 24 - 1 ∧
  GET_DATAOFFSET (GET_DATAID BP_SID_VACANT) = 255.
Proof. apply (data_id_splits_into_file_and_offset 257). lia. Defined.

(** ** The local functions *)

(** X2.  [delete_dat_file] answers a negative value exactly when the file
    is still there or never was: when [remove] is refused or the file does
    not exist (a missing file counts as a failure here, unlike in
    [delete_tbl_file]); in that case the failure is logged and the disk is
    as before; otherwise it answers 0 and the file is gone.  The store
    record is never touched. *)
Theorem delete_dat_file_fails_on_missing_file (svc : Z) (rt : string) (fid : Z) (w : world) :
  let name := dat_name svc rt fid in
  let refused := default IoOk (head (w_io w)) = IoFail in
  ∃ w' v evs,
    delete_dat_file svc rt fid w = (w', Val v) ∧
    w_fs w' = w_fs w ∧ w_log w' = w_log w ++ EvRemove name :: evs ∧
    (negative v = true ↔ refused ∨ w_disk w !! name = None) ∧
    (negative v = true → w_disk w' = w_disk w ∧ evs = [EvLog BP_FAILEDSTORE]) ∧
    (negative v = false → v = Num 0 ∧ w_disk w' = delete name (w_disk w) ∧ evs = []).
Proof.
  intros name refused. unfold delete_dat_file. fold name.
  destruct (remove_run name w) as (w1 & st & errno & Hrm & Hfs & Hlog & Hio & _ & _ & Hf & Hok).
  rewrite (bind_val _ _ _ _ _ Hrm). cbv beta iota.
  destruct (decide (default IoOk (head (w_io w)) = IoFail)) as [Hr|Hr].
  - destruct (Hf Hr) as (-> & _ & Hd). simpl. unfold bplog. msimpl.
    eexists _, _, _. split; [reflexivity|]. simpl. split_and!; try done.
    + by rewrite Hlog, <- (assoc_L (++)).
    + split; [by left|done].
  - destruct (Hok Hr) as (Hd & Hs & Hn).
    destruct (w_disk w !! name) as [c|] eqn:Hl.
    + rewrite Hs by eauto. simpl.
      eexists _, _, _. split; [reflexivity|]. split_and!; try done.
      split; [done|]. intros [?|?]; done.
    + destruct (Hn eq_refl) as [-> _]. simpl. unfold bplog. msimpl.
      eexists _, _, _. split; [reflexivity|]. simpl. split_and!; try done.
      * by rewrite Hlog, <- (assoc_L (++)).
      * split; [by right|done].
      * intros _. split; [|done]. rewrite Hd. by apply delete_id.
Qed.

(** What [fopen] does, by the outcome the environment has in store. *)
Lemma fopen_run name mode w :
  let r := default IoOk (head (w_io w)) in
  let fails := r = IoFail ∨ (mode = ModeRead ∧ w_disk w !! name = None) in
  ∃ w' ofd,
    fopen name mode w = (w', Val ofd) ∧
    w_fs w' = w_fs w ∧ w_log w' = w_log w ++ [EvOpen name mode] ∧
    w_io w' = tail (w_io w) ∧ w_heap w' = w_heap w ∧
    (fails → ofd = None ∧ w_disk w' = w_disk w ∧ w_streams w' = w_streams w) ∧
    (¬ fails →
       ∃ fd, ofd = Some fd ∧ w_streams w !! fd = None ∧
             w_streams w' = <[fd := {| st_name := name; st_mode := mode;
                                       st_pos := start_pos mode (file_of w name) |}]>
                              (w_streams w) ∧
             (∀ n, n ≠ name → file_of w' n = file_of w n) ∧
             file_of w' name = (if decide (mode = ModeWrite) then [] else file_of w name) ∧
             is_Some (w_disk w' !! name)).
Proof.
  intros r fails. unfold fopen. rewrite bind_emit, bind_next_io. unfold act. simpl. fold r.
  assert (w_streams w !! fresh (dom (w_streams w)) = None) as Hfresh.
  { apply not_elem_of_dom, is_fresh. }
  assert (∀ (c : list byte) n, n ≠ name →
            default [] (<[name := c]> (w_disk w) !! n) = default [] (w_disk w !! n)) as Hother.
  { intros c n Hn. by rewrite lookup_insert_ne. }
  unfold fails, file_of.
  destruct r eqn:Hr; destruct mode; destruct (w_disk w !! name) as [c|] eqn:Hn; simpl;
    eexists _, _; (split; [reflexivity|]); simpl; (split_and!; try done);
    try (intros _; split_and!; done);
    try (intros [?|[? ?]]; done);
    try (intros Hnf; exfalso; apply Hnf; by auto);
    try (intros _; eexists; split; [reflexivity|]; split_and!; try done;
         [ intros ? ?; by rewrite lookup_insert_ne
         | rewrite lookup_insert_eq; simpl; by rewrite ?Hn
         | rewrite lookup_insert_eq; eauto ]);
    try (intros _; rewrite Hn; simpl; eexists; split; [reflexivity|]; split_and!; try done;
         [ intros ? ?; by rewrite lookup_insert_ne
         | by rewrite lookup_insert_eq
         | rewrite lookup_insert_eq; eauto ]).
Qed.

(** X3.  Opened read-only, a bucket file or a table file is found by its
    name; the open returns NULL exactly when it is refused or the file does
    not exist; nothing is logged through [bplog] in either case, no file
    changes, and the stream returned is a new one that stands at the start
    of the file. *)
Theorem read_only_open_never_logs (svc : Z) (rt : string) (fid : Z) (w : world) :
  let refused := default IoOk (head (w_io w)) = IoFail in
  ∀ open name,
    (open = open_dat_file ∧ name = dat_name svc rt fid) ∨
    (open = open_tbl_file ∧ name = tbl_name svc rt fid) →
    ∃ w' ofd,
      open svc rt fid true w = (w', Val ofd) ∧
      w_fs w' = w_fs w ∧ w_log w' = w_log w ++ [EvOpen name ModeRead] ∧
      (∀ n, file_of w' n = file_of w n) ∧
      (ofd = None ↔ refused ∨ w_disk w !! name = None) ∧
      (∀ fd, ofd = Some fd →
         w_streams w !! fd = None ∧
         w_streams w' !! fd = Some {| st_name := name; st_mode := ModeRead; st_pos := 0 |}).
Proof.
  intros refused open name Hopen.
  assert (open svc rt fid true = fopen name ModeRead) as ->.
  { by destruct Hopen as [[-> ->]|[-> ->]]. }
  destruct (fopen_run name ModeRead w) as (w' & ofd & Hrun & Hfs & Hlog & _ & _ & Hfail & Hok).
  exists w', ofd. split_and!; try done.
  - intros n.
    destruct (decide (default IoOk (head (w_io w)) = IoFail ∨
                      ModeRead = ModeRead ∧ w_disk w !! name = None)) as [Hf|Hs].
    + destruct (Hfail Hf) as (_ & Hd & _). unfold file_of. by rewrite Hd.
    + destruct (Hok Hs) as (fd & _ & _ & _ & Hother & Hname & _).
      destruct (decide (n = name)) as [->|Hn]; [done|by apply Hother].
  - split.
    + intros ->.
      destruct (decide (default IoOk (head (w_io w)) = IoFail ∨
                        ModeRead = ModeRead ∧ w_disk w !! name = None)) as [[?|[_ ?]]|Hs];
        [by left|by right|].
      by destruct (Hok Hs) as (fd & ? & _).
    + intros Hf. apply Hfail. destruct Hf; [by left|by right].
  - intros fd ->.
    destruct (decide (default IoOk (head (w_io w)) = IoFail ∨
                      ModeRead = ModeRead ∧ w_disk w !! name = None)) as [Hf|Hs].
    + by destruct (Hfail Hf) as (? & _).
    + destruct (Hok Hs) as (fd' & [= <-] & Hnew & -> & _). split; [done|].
      by rewrite lookup_insert_eq.
Qed.

Lemma read_only_open_never_logs_witness :
  let w := fresh_store 4 [] [] in
  ∃ w' ofd,
    open_dat_file 0 ".pfile" 0 true w = (w', Val ofd) ∧
    w_fs w' = w_fs w ∧ w_log w' = w_log w ++ [EvOpen (dat_name 0 ".pfile" 0) ModeRead] ∧
    (∀ n, file_of w' n = file_of w n) ∧
    (ofd = None ↔ default IoOk (head (w_io w)) = IoFail ∨
                  w_disk w !! dat_name 0 ".pfile" 0 = None) ∧
    (∀ fd, ofd = Some fd →
       w_streams w !! fd = None ∧
       w_streams w' !! fd =
         Some {| st_name := dat_name 0 ".pfile" 0; st_mode := ModeRead; st_pos := 0 |}).
Proof.
  apply (read_only_open_never_logs 0 ".pfile" 0 (fresh_store 4 [] []) open_dat_file).
  left. split; reflexivity.
Defined.

(** X4.  Opened for writing, a bucket file is opened for appending: it
    keeps its bytes and the new stream stands at its end; a table file is
    truncated to length 0 and the new stream stands at 0; a file that does
    not exist is created empty; the open fails only when it is refused, and
    then NULL is returned, [BP_FAILEDSTORE] is logged and no file has
    changed. *)
Theorem open_for_writing_appends_or_truncates (svc : Z) (rt : string) (fid : Z) (w : world) :
  let refused := default IoOk (head (w_io w)) = IoFail in
  ∀ open name mode,
    (open = open_dat_file ∧ name = dat_name svc rt fid ∧ mode = ModeAppend) ∨
    (open = open_tbl_file ∧ name = tbl_name svc rt fid ∧ mode = ModeWrite) →
    ∃ w' ofd,
      open svc rt fid false w = (w', Val ofd) ∧ w_fs w' = w_fs w ∧
      (∀ n, n ≠ name → file_of w' n = file_of w n) ∧
      (refused →
         ofd = None ∧ w_disk w' = w_disk w ∧
         w_log w' = w_log w ++ [EvOpen name mode; EvLog BP_FAILEDSTORE]) ∧
      (¬ refused →
         is_Some (w_disk w' !! name) ∧
         file_of w' name = (if decide (mode = ModeWrite) then [] else file_of w name) ∧
         w_log w' = w_log w ++ [EvOpen name mode] ∧
         ∃ fd, ofd = Some fd ∧ w_streams w !! fd = None ∧
               w_streams w' !! fd =
                 Some {| st_name := name; st_mode := mode;
                         st_pos := if decide (mode = ModeWrite) then 0
                                   else len (file_of w name) |}).
Proof.
  intros refused open name mode Hopen.
  assert (mode ≠ ModeRead) as Hmode by (by destruct Hopen as [(_ & _ & ->)|(_ & _ & ->)]).
  assert (open svc rt fid false =
          (fd ← fopen name mode;
           match fd with
           | None => bplog BP_FAILEDSTORE;; mret fd
           | Some _ => mret fd
           end)) as ->.
  { by destruct Hopen as [(-> & -> & ->)|(-> & -> & ->)]. }
  destruct (fopen_run name mode w) as (w1 & ofd & Hrun & Hfs & Hlog & _ & _ & Hfail & Hok).
  rewrite (bind_val _ _ _ _ _ Hrun).
  destruct (decide (default IoOk (head (w_io w)) = IoFail)) as [Hr|Hr].
  - destruct Hfail as (-> & Hd & Hs); [by left|]. unfold bplog. msimpl.
    eexists _, _. split; [reflexivity|]. simpl. split_and!; try done.
    + intros n _. unfold file_of. simpl. by rewrite Hd.
    + intros _. split_and!; [done|done|]. by rewrite Hlog, <- (assoc_L (++)).
  - destruct Hok as (fd & -> & Hnew & Hst & Hother & Hname & Hthere).
    { intros [?|[? _]]; done. }
    exists w1, (Some fd). split_and!; try done.
    intros _. split_and!; try done.
    exists fd. split_and!; [done..|]. rewrite Hst, lookup_insert_eq.
    by destruct Hopen as [(_ & _ & ->)|(_ & _ & ->)].
Qed.

Lemma open_for_writing_appends_or_truncates_witness :
  let w := two_enqueued in
  let name := dat_name 0 ".pfile" 0 in
  ∃ w' ofd,
    open_dat_file 0 ".pfile" 0 false w = (w', Val ofd) ∧ w_fs w' = w_fs w ∧
    (∀ n, n ≠ name → file_of w' n = file_of w n) ∧
    (default IoOk (head (w_io w)) = IoFail →
       ofd = None ∧ w_disk w' = w_disk w ∧
       w_log w' = w_log w ++ [EvOpen name ModeAppend; EvLog BP_FAILEDSTORE]) ∧
    (¬ default IoOk (head (w_io w)) = IoFail →
       is_Some (w_disk w' !! name) ∧
       file_of w' name = (if decide (ModeAppend = ModeWrite) then [] else file_of w name) ∧
       w_log w' = w_log w ++ [EvOpen name ModeAppend] ∧
       ∃ fd, ofd = Some fd ∧ w_streams w !! fd = None ∧
             w_streams w' !! fd =
               Some {| st_name := name; st_mode := ModeAppend;
                       st_pos := if decide (ModeAppend = ModeWrite) then 0
                                 else len (file_of w name) |}).
Proof.
  apply (open_for_writing_appends_or_truncates 0 ".pfile" 0 two_enqueued open_dat_file).
  left. split_and!; reflexivity.
Defined.

(** ** Create and destroy *)

(** The root path and the cache size that create takes from its
    parameter. *)
Definition root_of (attr : option bp_file_attr_t) : string :=
  match attr with
  | Some a => default FILE_DEFAULT_ROOT (root_path a)
  | None => FILE_DEFAULT_ROOT
  end.

Definition cache_size_of (attr : option bp_file_attr_t) : Z :=
  match attr with
  | Some a => if attr_cache_size a =? 0 then FILE_DEFAULT_CACHE_SIZE else attr_cache_size a
  | None => FILE_DEFAULT_CACHE_SIZE
  end.

(** The slot that a successful create hands out. *)
Definition new_store (attr : option bp_file_attr_t) (service lk : Z) : file_store_t :=
  {| in_use := true; lock := lk; service_id := u64 service;
     file_root := Some (root_of attr); data_count := 0;
     write_fd := None; write_data_id := 1; write_error := false;
     read_fd := None; read_data_id := 1; read_error := false;
     retrieve_fd := None; retrieve_data_id := 1;
     relinquish_fd := None; relinquish_data_id := 1; relinquish_table := zero_table;
     data_cache := Some (replicate (Z.to_nat (cache_size_of attr)) zero_cache_entry);
     cache_size := cache_size_of attr |}.

Definition nth_io (w : world) (n : nat) : io_resp := default IoOk (w_io w !! n).

Lemma nth_io_head w :
  nth_io w 0 = default IoOk (head (w_io w)) ∧
  nth_io w 1 = default IoOk (head (tail (w_io w))) ∧
  nth_io w 2 = default IoOk (head (tail (tail (w_io w)))).
Proof. unfold nth_io. destruct (w_io w) as [|? [|? [|? ?]]]; done. Qed.

Ltac run :=
  repeat (first [ rewrite bind_assoc | rewrite bind_get | rewrite bind_put | rewrite bind_mret
                | rewrite bind_emit | rewrite bind_next_io ]; cbn [w_fs w_env with_fs with_io
                    with_log e_io e_log e_disk e_streams e_heap e_object e_wait]).

Lemma create_slot_run attr svc w :
  let granted :=
    nth_io w 0 ≠ IoFail ∧ (String.length (root_of attr) < 256)%nat ∧
    nth_io w 1 ≠ IoFail ∧ nth_io w 2 ≠ IoFail ∧ 0 ≤ cache_size_of attr in
  ∃ w' ok, create_slot attr svc w = (w', Val ok) ∧
    (granted → ok = true ∧ ∃ lk, 0 ≤ lk ∧ w_fs w' = new_store attr svc lk) ∧
    (¬ granted → ok = false ∧ in_use (w_fs w') = false).
Proof.
  intros granted. subst granted.
  destruct (nth_io_head w) as (-> & -> & ->).
  assert (∀ e v, ∃ v',
            (bplog e ≫= λ _, bplib_store_file_destroy ≫= λ _, mret false) v = (v', Val false) ∧
            in_use (w_fs v') = false) as Hgive.
  { intros e v.
    destruct ((bplog e ≫= λ _, bplib_store_file_destroy ≫= λ _, mret false) v) as [v' r] eqn:H.
    apply give_up_spec in H as (-> & ? & _). eauto. }
  unfold create_slot, bplib_os_createlock, malloc_ok.
  fold (root_of attr). fold (cache_size_of attr).
  run.
  set (r1 := default IoOk (head (w_io w))).
  set (lk := match r1 with IoOk => 0 | IoFail => -1 | IoShort n => Z.abs n end).
  destruct (Z.ltb_spec lk 0) as [Hlk|Hlk].
  { destruct (Hgive BP_FAILEDOS (with_fs (set_lock lk)
       (with_io (tail (w_io w))
          (with_fs (λ _, set_relinquish_data_id 1 (set_retrieve_data_id 1 (set_read_data_id 1
             (set_write_data_id 1 (set_lock BP_INVALID_HANDLE (set_service_id (u64 svc)
               (set_in_use true zero_store))))))) w)))) as (v' & Hrun & Hu).
    exists v', false. split; [exact Hrun|]. split; [|done].
    intros (Hr1 & _). exfalso. subst lk. destruct r1; [lia|done|lia]. }
  assert (r1 ≠ IoFail) as Hr1 by (intros Heq; subst lk; rewrite Heq in Hlk; lia).
  lazymatch goal with |- ∃ w' ok, ?m ?v = _ ∧ _ => set (v1 := v) end.
  assert (w_fs v1 = set_cache_size 0 (set_data_cache None
                      (set_file_root None (new_store attr svc lk))) ∧
          w_io v1 = tail (w_io w)) as [Hfs1 Hio1] by done.
  clearbody v1.
  set (r2 := default IoOk (head (tail (w_io w)))).
  set (r3 := default IoOk (head (tail (tail (w_io w))))).
  destruct (Z.leb_spec (Z.of_nat (String.length (root_of attr)) `min` FILE_MAX_FILENAME + 1)
              FILE_MAX_FILENAME) as [Hlen|Hlen].
  2:{ run. rewrite Hfs1. simpl.
      destruct (Hgive BP_FAILEDMEM v1) as (v' & Hrun & Hu).
      exists v', false. split; [exact Hrun|]. split; [|done].
      intros (_ & Hl & _). exfalso. unfold FILE_MAX_FILENAME in Hlen. lia. }
  assert (String.length (root_of attr) < 256)%nat as Hlen'.
  { unfold FILE_MAX_FILENAME in Hlen. lia. }
  run. rewrite Hio1. fold r2.
  destruct (decide (r2 = IoFail)) as [Hr2|Hr2].
  { rewrite Hr2. run. rewrite Hfs1. simpl.
    lazymatch goal with |- ∃ w' ok, ?m ?v = _ ∧ _ =>
      destruct (Hgive BP_FAILEDMEM v) as (v' & Hrun & Hu) end.
    exists v', false. split; [exact Hrun|]. split; [|done].
    intros (_ & _ & ? & _). done. }
  assert (match r2 with IoFail => false | _ => true end = true) as -> by (by destruct r2).
  run. simpl. run. fold r3.
  destruct (decide (r3 ≠ IoFail ∧ 0 ≤ cache_size_of attr)) as [[Hr3 Hcsz]|Hno].
  - assert (match r3 with IoFail => false | _ => true end && (0 <=? cache_size_of attr) = true)
      as ->.
    { apply andb_true_intro. split; [by destruct r3|]. by apply Z.leb_le. }
    run. simpl.
    eexists _, _. split; [reflexivity|]. split; [|intros Hng; exfalso; apply Hng; done].
    intros _. split; [done|]. exists lk. split; [done|]. simpl. rewrite Hfs1. done.
  - assert (match r3 with IoFail => false | _ => true end && (0 <=? cache_size_of attr) = false)
      as ->.
    { apply andb_false_iff. destruct (decide (r3 = IoFail)) as [->|?]; [by left|right].
      apply Z.leb_gt. destruct r3; try done; apply Z.nle_gt; intros ?; apply Hno; done. }
    run. rewrite Hfs1. simpl.
    lazymatch goal with |- ∃ w' ok, ?m ?v = _ ∧ _ =>
      destruct (Hgive BP_FAILEDMEM v) as (v' & Hrun & Hu) end.
    exists v', false. split; [exact Hrun|]. split; [|done].
    intros (_ & _ & _ & ? & ?). exfalso. apply Hno. done.
Qed.

(** X5.  [bplib_store_file_create] takes the first slot of the table that
    is not in use.  With no such slot among the 60 it returns
    [BP_INVALID_HANDLE] and changes nothing.  Otherwise it consumes one
    service id, whether it succeeds or not, and touches no other slot;
    when the lock and the two blocks are granted (and the root path is
    shorter than 256 characters) it returns the index of the slot, which
    is then in use, with all four data ids at 1, a count of 0, no stream
    open, no error flag set, a zeroed relinquish table, and the root path
    and a zeroed cache of the size asked for (".pfile" and 16384 entries
    by default); when one of them is refused it returns
    [BP_INVALID_HANDLE] and leaves the slot not in use. *)
Theorem create_takes_first_free_slot (attr : option bp_file_attr_t) (s : system) :
  let w := focus s zero_store in
  let granted :=
    nth_io w 0 ≠ IoFail ∧ (String.length (root_of attr) < 256)%nat ∧
    nth_io w 1 ≠ IoFail ∧ nth_io w 2 ≠ IoFail ∧ 0 ≤ cache_size_of attr in
  let s' := (bplib_store_file_create attr s).1 in
  let h := (bplib_store_file_create attr s).2 in
  match first_unused (take FILE_MAX_STORES (file_stores s)) with
  | None => s' = s ∧ h = BP_INVALID_HANDLE
  | Some i =>
      (i < FILE_MAX_STORES)%nat ∧
      (∃ fs, file_stores s !! i = Some fs ∧ in_use fs = false) ∧
      (∀ j fs, (j < i)%nat → file_stores s !! j = Some fs → in_use fs = true) ∧
      file_service_id s' = u64 (file_service_id s + 1) ∧
      (∀ j, j ≠ i → file_stores s' !! j = file_stores s !! j) ∧
      (granted →
         h = Z.of_nat i ∧
         ∃ lk, 0 ≤ lk ∧ file_stores s' !! i = Some (new_store attr (file_service_id s) lk)) ∧
      (¬ granted →
         h = BP_INVALID_HANDLE ∧ ∃ fs', file_stores s' !! i = Some fs' ∧ in_use fs' = false)
  end.
Proof.
  intros w granted s' h. subst s' h. unfold bplib_store_file_create.
  destruct (first_unused (take FILE_MAX_STORES (file_stores s))) as [i|] eqn:Hfirst; [|done].
  unfold first_unused in Hfirst. apply fmap_Some in Hfirst as ([i' fs] & Hfind & ->).
  apply list_find_Some in Hfind as (Hi & Hfree & Hbefore). simpl.
  apply lookup_take_Some in Hi as [Hi Hlt].
  set (s1 := {| file_stores := file_stores s;
                file_service_id := u64 (file_service_id s + 1);
                sys_env := sys_env s |}).
  destruct (create_slot_run attr (file_service_id s) (focus s1 zero_store))
    as (w' & ok & Hrun & Hok & Hno).
  change (nth_io (focus s1 zero_store)) with (nth_io w) in Hok, Hno. fold granted in Hok, Hno.
  rewrite Hrun.
  assert (i' < length (file_stores s))%nat as Hlen by (by eapply lookup_lt_Some).
  split_and!.
  - done.
  - eauto.
  - intros j fs' Hj Hl.
    destruct (in_use fs') eqn:Hu; [done|]. exfalso.
    eapply (Hbefore j fs'); [|done..]. apply lookup_take_Some. split; [done|]. lia.
  - by destruct ok.
  - intros j Hj. destruct ok; simpl; by rewrite list_lookup_insert_ne.
  - intros Hg. destruct (Hok Hg) as (-> & lk & Hlk & Hfs). split; [done|].
    exists lk. split; [done|]. simpl. by rewrite list_lookup_insert_eq, Hfs.
  - intros Hg. destruct (Hno Hg) as (-> & Hu). split; [done|].
    exists (w_fs w'). split; [|done]. simpl. by rewrite list_lookup_insert_eq.
Qed.

Lemma in3 {A} (x a b c : A) : x ∈ [a; b; c] ↔ x = a ∨ x = b ∨ x = c.
Proof. rewrite !elem_of_cons, elem_of_nil. tauto. Qed.

(** X6.  [bplib_store_file_destroy] returns [BP_SUCCESS] and clears
    [in_use].  Its calls are, in this order: the close of the write, the
    read and the retrieve stream, each when it is open; [free] of
    [file_root] when it is not NULL; [bplib_os_destroylock] when the lock
    is not [BP_INVALID_HANDLE]; [free] of [data_cache] when it is not NULL.
    The relinquish stream is not closed, the objects held in the cache are
    not freed, every other field of the slot is left as it was and no file
    is changed. *)
Theorem destroy_closes_three_streams (w : world) :
  let fs := w_fs w in
  ∃ w',
    bplib_store_file_destroy w = (w', Val BP_SUCCESS) ∧
    w_fs w' = set_in_use false fs ∧
    w_disk w' = w_disk w ∧ w_heap w' = w_heap w ∧
    (∀ fd, w_streams w' !! fd =
             if bool_decide (Some fd ∈ [write_fd fs; read_fd fs; retrieve_fd fs])
             then None else w_streams w !! fd) ∧
    w_log w' =
      w_log w ++ (EvClose <$> omap id [write_fd fs; read_fd fs; retrieve_fd fs]) ++
      match file_root fs with Some _ => [EvFreeBlock RootPath] | None => [] end ++
      (if bool_decide (lock fs ≠ BP_INVALID_HANDLE) then [EvDestroyLock (lock fs)] else []) ++
      match data_cache fs with Some _ => [EvFreeBlock DataCache] | None => [] end.
Proof.
  intros fs. eexists. split; [apply destroy_run|]. fold fs.
  set (c1 := closed (write_fd fs) w). set (c2 := closed (read_fd fs) c1).
  set (c3 := closed (retrieve_fd fs) c2).
  set (n1 := noted (frees_root fs) c3). set (n2 := noted (destroys_lock fs) n1).
  set (n3 := noted (frees_cache fs) n2).
  destruct (closed_facts (write_fd fs) w) as (F1 & D1 & P1 & L1 & S1).
  destruct (closed_facts (read_fd fs) c1) as (F2 & D2 & P2 & L2 & S2).
  destruct (closed_facts (retrieve_fd fs) c2) as (F3 & D3 & P3 & L3 & S3).
  destruct (noted_facts (frees_root fs) c3) as (F4 & D4 & P4 & S4 & L4).
  destruct (noted_facts (destroys_lock fs) n1) as (F5 & D5 & P5 & S5 & L5).
  destruct (noted_facts (frees_cache fs) n2) as (F6 & D6 & P6 & S6 & L6).
  fold c1 in F1, D1, P1, L1, S1 |- *. fold c2 in F2, D2, P2, L2, S2 |- *.
  fold c3 in F3, D3, P3, L3, S3 |- *. fold n1 in F4, D4, P4, L4, S4 |- *.
  fold n2 in F5, D5, P5, L5, S5 |- *. fold n3 in F6, D6, P6, L6, S6 |- *.
  change (w_fs (with_fs (set_in_use false) n3)) with (set_in_use false (w_fs n3)).
  change (w_disk (with_fs (set_in_use false) n3)) with (w_disk n3).
  change (w_heap (with_fs (set_in_use false) n3)) with (w_heap n3).
  change (w_streams (with_fs (set_in_use false) n3)) with (w_streams n3).
  change (w_log (with_fs (set_in_use false) n3)) with (w_log n3).
  split_and!.
  - unfold fs. congruence.
  - congruence.
  - congruence.
  - intros fd. rewrite S6, S5, S4, S3, S2, S1.
    destruct (write_fd fs) as [f1|], (read_fd fs) as [f2|], (retrieve_fd fs) as [f3|];
      rewrite ?lookup_delete; case_bool_decide as Hin; rewrite in3 in Hin;
      repeat case_decide; intuition congruence.
  - rewrite L6, L5, L4, L3, L2, L1. unfold frees_root, destroys_lock, frees_cache. fold fs.
    destruct (write_fd fs), (read_fd fs), (retrieve_fd fs), (file_root fs),
      (bool_decide (lock fs ≠ BP_INVALID_HANDLE)), (data_cache fs); simpl;
      rewrite <- ?(assoc_L (++)), ?app_nil_r; reflexivity.
Qed.

(** ** The operations that only read *)

(** No file has changed. *)
Definition same_files (w w' : world) : Prop := ∀ n, file_of w' n = file_of w n.

Global Instance same_files_preorder : PreOrder same_files.
Proof.
  split; [done|]. intros x y z H1 H2 n. by rewrite H2, H1.
Qed.

(** The events of a computation that opens files for reading only and
    neither writes, flushes nor removes. *)
Definition reads_only (e : event) : bool :=
  match e with
  | EvWrite _ _ _ | EvFlush _ | EvRemove _ => false
  | EvOpen _ m => bool_decide (m = ModeRead)
  | _ => true
  end.

(** A view of the store record stays, the log grows by events of
    [reads_only], and no file changes. *)
Definition quiet {X} (π : file_store_t → X) : world → world → Prop :=
  both (keeps π reads_only) same_files.

Global Instance quiet_preorder {X} (π : file_store_t → X) : PreOrder (quiet π).
Proof. unfold quiet, keeps. apply _. Qed.

Lemma quiet_prim {A X} (π : file_store_t → X) E (m : M A) :
  pres (out reads_only) never m →
  (∀ w w' r, m w = (w', r) → same_files w w') →
  pres (quiet π) E m.
Proof.
  intros Hout Hfiles w w' r H. pose proof (Hfiles _ _ _ H) as Hf.
  apply Hout in H as [Ho Hr]. split; [|by destruct r].
  split; [by apply out_keeps|done].
Qed.

Lemma put_quiet {X} (π : file_store_t → X) E f :
  (∀ fs, π (f fs) = π fs) → pres (quiet π) E (put f).
Proof.
  intros Hf w w' r [= <- <-]. split; [|done]. split; [|done].
  split; [apply Hf|]. exists []. by rewrite app_nil_r.
Qed.

Lemma bplog_return_quiet {A X} (π : file_store_t → X) (E : bp_status → Prop) c :
  E c → pres (quiet π) E (e ← bplog c; @return_ A e).
Proof.
  intros HE w w' r H. unfold bplog, emit in H. injection H as <- <-. split; [|done].
  split; [|done]. split; [done|]. by exists [EvLog c].
Qed.

Lemma emit_files ev w w' (r : res unit) : emit ev w = (w', r) → same_files w w'.
Proof. by intros [= <- <-]. Qed.

Lemma fopen_read_files name w w' r : fopen name ModeRead w = (w', r) → same_files w w'.
Proof.
  intros H n.
  destruct (fopen_run name ModeRead w) as (w1 & ofd & Hrun & _ & _ & _ & _ & Hfail & Hok).
  rewrite H in Hrun. injection Hrun as <- _.
  destruct (decide (default IoOk (head (w_io w)) = IoFail ∨
                    ModeRead = ModeRead ∧ w_disk w !! name = None)) as [Hf|Hs].
  - destruct (Hfail Hf) as (_ & Hd & _). unfold file_of. by rewrite Hd.
  - destruct (Hok Hs) as (fd & _ & _ & _ & Hother & Hname & _).
    destruct (decide (n = name)) as [->|Hn]; [done|by apply Hother].
Qed.

Lemma fread_files fd k w w' r : fread fd k w = (w', r) → same_files w w'.
Proof. unfold fread. rewrite bind_next_io. unfold act. by intros [= <- <-]. Qed.

Lemma fseek_files fd o wh w w' r : fseek fd o wh w = (w', r) → same_files w w'.
Proof.
  unfold fseek. rewrite bind_emit, bind_next_io. unfold act. simpl.
  intros H n. repeat case_match; by injection H as <- <-.
Qed.

Lemma fclose_files fd w w' r : fclose fd w = (w', r) → same_files w w'.
Proof. unfold fclose. rewrite bind_emit. unfold act. by intros [= <- <-]. Qed.

Lemma malloc_files k w w' r : malloc k w = (w', r) → same_files w w'.
Proof. unfold malloc. by intros [= <- <-]. Qed.

Lemma free_files p w w' r : free p w = (w', r) → same_files w w'.
Proof.
  destruct p as [a|]; simpl; [|by intros [= <- <-]].
  rewrite bind_emit. unfold act. by intros [= <- <-].
Qed.

Lemma fread_into_files p fd k w w' r : fread_into p fd k w = (w', r) → same_files w w'.
Proof.
  unfold fread_into, store_bytes. intros H.
  apply bind_inv in H as [(w1 & a & H1 & H)|(? & H1 & ?)]; [|by apply fread_files in H1].
  apply fread_files in H1. unfold mbind, M_bind, mret, M_ret in H. simpl in H.
  injection H as <- <-. etrans; [exact H1|]. done.
Qed.

Lemma waiton_files l t w w' r : bplib_os_waiton l t w = (w', r) → same_files w w'.
Proof. unfold bplib_os_waiton. by intros [= <- <-]. Qed.

Lemma bplog_files e w w' r : bplog e w = (w', r) → same_files w w'.
Proof. unfold bplog. rewrite bind_emit. by intros [= <- <-]. Qed.

Lemma act_quiet {A X} (π : file_store_t → X) E (f : world → world * res A) :
  (∀ w, w_fs (f w).1 = w_fs w ∧ w_log (f w).1 = w_log w ∧ ∃ a, (f w).2 = Val a) →
  (∀ w, w_disk (f w).1 = w_disk w) →
  pres (quiet π) E (act f).
Proof.
  intros H1 H2. apply quiet_prim; [by apply act_out|].
  intros w w' r H n. unfold act in H. unfold file_of.
  specialize (H2 w). rewrite H in H2. simpl in H2. by rewrite H2.
Qed.

Ltac quiet_step :=
  lazymatch goal with
  | |- pres _ _ (mbind (λ e, return_ e) (bplog _)) => apply bplog_return_quiet; pres_side
  | |- pres _ _ (mbind _ _) => apply pres_bind; [|intros ?]
  | |- pres _ _ (mret _) => apply pres_ret
  | |- pres _ _ (return_ _) => apply pres_return; pres_side
  | |- pres _ _ (get _) => apply pres_get
  | |- pres _ _ (put _) => apply put_quiet; pres_side
  | |- pres _ _ (act _) => apply act_quiet; [act_side|intros; reflexivity]
  | |- pres _ _ (bplog _) => apply quiet_prim; [by apply bplog_out|apply bplog_files]
  | |- pres _ _ (bplib_os_lock _) => apply quiet_prim; [by apply lock_out|apply emit_files]
  | |- pres _ _ (bplib_os_unlock _) => apply quiet_prim; [by apply unlock_out|apply emit_files]
  | |- pres _ _ (bplib_os_signal _) => apply quiet_prim; [by apply signal_out|apply emit_files]
  | |- pres _ _ (bplib_os_waiton _ _) =>
      apply quiet_prim; [by apply waiton_out|apply waiton_files]
  | |- pres _ _ (fopen _ ModeRead) =>
      apply quiet_prim; [by apply fopen_out|apply fopen_read_files]
  | |- pres _ _ (fclose _) => apply quiet_prim; [by apply fclose_out|apply fclose_files]
  | |- pres _ _ (fread _ _) => apply quiet_prim; [by apply fread_out|apply fread_files]
  | |- pres _ _ (fseek _ _ _) => apply quiet_prim; [by apply fseek_out|apply fseek_files]
  | |- pres _ _ (malloc _) => apply quiet_prim; [by apply malloc_out|apply malloc_files]
  | |- pres _ _ (free _) => apply quiet_prim; [by apply free_out|apply free_files]
  | |- pres _ _ (fread_into _ _ _) =>
      apply quiet_prim; [by apply fread_into_out|apply fread_into_files]
  | |- pres _ _ (match ?x with _ => _ end) => destruct x
  end.

Lemma skip_records_quiet {X} (π : file_store_t → X) E cleanup fd n :
  E BP_FAILEDSTORE → pres (quiet π) E cleanup → pres (quiet π) E (skip_records cleanup fd n).
Proof.
  intros HE Hc. induction n as [|n IH]; simpl; [apply pres_ret|].
  repeat lazymatch goal with
  | |- pres _ _ (skip_records _ _ _) => exact IH
  | |- pres _ _ cleanup => exact Hc
  | |- _ => quiet_step
  end.
Qed.

Ltac quiet_go :=
  repeat lazymatch goal with
  | |- pres _ _ (skip_records _ _ _) => apply skip_records_quiet; [done|]
  | |- _ => quiet_step
  end.

(** The fields that dequeue, retrieve and release all leave alone. *)
Definition write_side (fs : file_store_t) :=
  (in_use fs, lock fs, service_id fs, file_root fs, data_count fs,
   write_fd fs, write_data_id fs, write_error fs,
   relinquish_fd fs, relinquish_data_id fs, relinquish_table fs, cache_size fs).

Lemma dequeue_quiet t : pres (quiet write_side) any_code (bplib_store_file_dequeue t).
Proof.
  unfold bplib_store_file_dequeue, dequeue_wait, dequeue_open, dequeue_read, dequeue_finish,
    install_in_cache, read_object, open_dat_file.
  quiet_go.
Qed.

Lemma retrieve_quiet sid t : pres (quiet write_side) any_code (bplib_store_file_retrieve sid t).
Proof.
  unfold bplib_store_file_retrieve, install_in_cache, read_object, open_dat_file.
  quiet_go.
Qed.

Lemma release_quiet sid : pres (quiet write_side) any_code (bplib_store_file_release sid).
Proof. unfold bplib_store_file_release. quiet_go. Qed.

(** What a call leaves of the store and of the files, and the events it
    adds to the log. *)
Definition only_reads (m : M bp_status) (w : world) : Prop :=
  let w' := (call m w).1 in
  write_side (w_fs w') = write_side (w_fs w) ∧
  (∀ n, file_of w' n = file_of w n) ∧
  w_log w' = w_log w ++ events_of m w ∧
  forallb reads_only (events_of m w) = true.

Lemma quiet_only_reads m w : pres (quiet write_side) any_code m → only_reads m w.
Proof.
  intros Hm. unfold only_reads, events_of, call. destruct (m w) as [w' r] eqn:H.
  apply Hm in H as [[[Hv (evs & Hlog & Hevs)] Hf] _].
  assert (w_log w' = w_log w ++ drop (length (w_log w)) (w_log w') ∧
          forallb reads_only (drop (length (w_log w)) (w_log w')) = true) as [? ?].
  { by rewrite Hlog, drop_app_length. }
  by destruct r.
Qed.

(** X7.  [bplib_store_file_dequeue], [bplib_store_file_retrieve] and
    [bplib_store_file_release] never write: whatever the state of the
    store and whatever the outcome of the call, no file has changed, the
    only files opened are opened for reading, nothing is written, flushed
    or removed, and [in_use], the lock, the service id, the root path,
    [data_count], the write stream with [write_data_id] and
    [write_error], the relinquish stream and table and [cache_size] are
    as they were. *)
Theorem read_operations_never_write (w : world) (sid timeout : Z) :
  only_reads (bplib_store_file_dequeue timeout) w ∧
  only_reads (bplib_store_file_retrieve sid timeout) w ∧
  only_reads (bplib_store_file_release sid) w.
Proof.
  split_and!; apply quiet_only_reads.
  - apply dequeue_quiet.
  - apply retrieve_quiet.
  - apply release_quiet.
Qed.

(** X8.  On an empty queue ([read_data_id = write_data_id])
    [bplib_store_file_dequeue] waits once on the lock and gives up: it
    returns [BP_FAILEDSTORE] when the wait reports [BP_ERROR] and
    [BP_TIMEOUT] otherwise, also when the wait reports success, since in a
    caller running alone nothing has been enqueued meanwhile.  The store
    record, the files, the streams, the heap and the caller's object
    pointer are as before, and the lock is released. *)
Theorem dequeue_on_empty_queue (w : world) (timeout : Z) :
  read_data_id (w_fs w) = write_data_id (w_fs w) →
  let status := default BP_TIMEOUT (head (w_wait w)) in
  let lk := lock (w_fs w) in
  ∃ w',
    call (bplib_store_file_dequeue timeout) w =
      (w', if bool_decide (status = BP_ERROR) then BP_FAILEDSTORE else BP_TIMEOUT) ∧
    w_fs w' = w_fs w ∧ w_disk w' = w_disk w ∧ w_streams w' = w_streams w ∧
    w_heap w' = w_heap w ∧ w_object w' = w_object w ∧ w_io w' = w_io w ∧
    w_log w' =
      w_log w ++ [EvLock lk; EvWaiton lk timeout; EvUnlock lk] ++
      (if bool_decide (status = BP_ERROR) then [EvLog BP_FAILEDSTORE] else []).
Proof.
  intros Heq status lk. subst status lk.
  unfold call, bplib_store_file_dequeue, dequeue_wait, bplib_os_lock, bplib_os_unlock, bplog.
  msimpl. simpl.
  rewrite Heq, Z.eqb_refl. msimpl. simpl.
  destruct (head (w_wait w)) as [[]|]; simpl; try done; msimpl; simpl;
    rewrite ?Heq, ?Z.eqb_refl; msimpl; simpl;
    (eexists; split; [reflexivity|]); simpl; split_and!; try done;
    by rewrite <- !(assoc_L (++)).
Qed.

Lemma dequeue_on_empty_queue_witness :
  let w := fresh_store 4 [] [BP_ERROR] in
  let status := default BP_TIMEOUT (head (w_wait w)) in
  let lk := lock (w_fs w) in
  ∃ w',
    call (bplib_store_file_dequeue 0) w =
      (w', if bool_decide (status = BP_ERROR) then BP_FAILEDSTORE else BP_TIMEOUT) ∧
    w_fs w' = w_fs w ∧ w_disk w' = w_disk w ∧ w_streams w' = w_streams w ∧
    w_heap w' = w_heap w ∧ w_object w' = w_object w ∧ w_io w' = w_io w ∧
    w_log w' =
      w_log w ++ [EvLock lk; EvWaiton lk 0; EvUnlock lk] ++
      (if bool_decide (status = BP_ERROR) then [EvLog BP_FAILEDSTORE] else []).
Proof. apply (dequeue_on_empty_queue (fresh_store 4 [] [BP_ERROR]) 0). reflexivity. Defined.

(** X9.  Whatever its outcome, [bplib_store_file_dequeue] returns
    [BP_SUCCESS], [BP_TIMEOUT] or [BP_FAILEDSTORE]; it returns
    [BP_SUCCESS] only when the queue was not empty, and then
    [read_data_id] has moved on by one (modulo 2^64); with the other two
    results [read_data_id] is as before, also when the record had already
    been read from the file. *)
Theorem dequeue_moves_on_only_with_success (w : world) (timeout : Z) :
  let w' := (call (bplib_store_file_dequeue timeout) w).1 in
  let r := (call (bplib_store_file_dequeue timeout) w).2 in
  (r = BP_SUCCESS ∨ r = BP_TIMEOUT ∨ r = BP_FAILEDSTORE) ∧
  (r = BP_SUCCESS →
     read_data_id (w_fs w) ≠ write_data_id (w_fs w) ∧
     read_data_id (w_fs w') = u64 (read_data_id (w_fs w) + 1)) ∧
  (r ≠ BP_SUCCESS → read_data_id (w_fs w') = read_data_id (w_fs w)).
Proof.
  intros w' r. subst w' r.
  destruct (call (bplib_store_file_dequeue timeout) w) as [w' r] eqn:H. simpl.
  apply dequeue_result in H as (_ & _ & _ & [(-> & Hne & Hid)|([->| ->] & Hid)]).
  - split_and!; [by left|done|done].
  - split_and!; [by right; right|done|done].
  - split_and!; [by right; left|done|done].
Qed.

(** X10.  A retrieve of a sid whose object is resident in its cache slot
    (the slot holds a block under the data id of the sid) returns
    [BP_SUCCESS] and hands out the cached block; between taking and
    releasing the lock it makes no call to stdio or to the heap, and it
    leaves the store record as it was, so the slot is not marked
    locked. *)
Theorem retrieve_of_resident_object (w : world) (sid timeout : Z) (p : positive) :
  let data_id := GET_DATAID sid in
  let e := cache_at (w_fs w) (cache_index_of data_id (w_fs w)) in
  mem_ptr e = Some p → mem_data_id e = data_id →
  ∃ w',
    call (bplib_store_file_retrieve sid timeout) w = (w', BP_SUCCESS) ∧
    w_object w' = Some p ∧ w_fs w' = w_fs w ∧
    w_disk w' = w_disk w ∧ w_streams w' = w_streams w ∧ w_heap w' = w_heap w ∧
    w_io w' = w_io w ∧
    w_log w' = w_log w ++ [EvLock (lock (w_fs w)); EvUnlock (lock (w_fs w))].
Proof.
  intros data_id e Hp Hid. eexists. split; [by apply (retrieve_cache_hit w sid timeout p)|].
  done.
Qed.

Lemma retrieve_of_resident_object_witness :
  let w := one_dequeued in
  ∃ p w',
    call (bplib_store_file_retrieve 1 0) w = (w', BP_SUCCESS) ∧
    w_object w' = Some p ∧ w_fs w' = w_fs w ∧
    w_disk w' = w_disk w ∧ w_streams w' = w_streams w ∧ w_heap w' = w_heap w ∧
    w_io w' = w_io w ∧
    w_log w' = w_log w ++ [EvLock (lock (w_fs w)); EvUnlock (lock (w_fs w))].
Proof.
  intros w. subst w.
  destruct (mem_ptr (cache_at (w_fs one_dequeued)
                       (cache_index_of (GET_DATAID 1) (w_fs one_dequeued)))) as [p|] eqn:Hp;
    [|by vm_compute in Hp].
  exists p. apply (retrieve_of_resident_object one_dequeued 1 0 p).
  - exact Hp.
  - vm_compute. reflexivity.
Defined.

(** ** The lock is released on every path *)

(** The number of events of [l] in the class [f]. *)
Fixpoint tally (f : event → bool) (l : list event) : nat :=
  match l with
  | [] => 0
  | e :: l' => (if f e then 1 else 0) + tally f l'
  end.

Lemma tally_app f l1 l2 : tally f (l1 ++ l2) = (tally f l1 + tally f l2)%nat.
Proof. induction l1 as [|e l1 IH]; simpl; [done|]. rewrite IH. lia. Qed.

Definition is_lock (e : event) : bool := match e with EvLock _ => true | _ => false end.
Definition is_unlock (e : event) : bool := match e with EvUnlock _ => true | _ => false end.
Definition other_ev (e : event) : bool := negb (is_lock e || is_unlock e).

Lemma tally_other f l :
  (∀ e, other_ev e = true → f e = false) → forallb other_ev l = true → tally f l = 0%nat.
Proof.
  intros Hf. induction l as [|e l IH]; simpl; [done|].
  intros [He Hl]%andb_true_iff. rewrite (Hf e He), IH; done.
Qed.

(** A part of a locked region: it takes no lock, and it releases the lock
    exactly when it leaves the function. *)
Definition balanced {A} (m : M A) : Prop :=
  ∀ w w' r, m w = (w', r) →
    ∃ evs, w_log w' = w_log w ++ evs ∧ tally is_lock evs = 0%nat ∧
           tally is_unlock evs = match r with Val _ => 0%nat | Ret _ => 1%nat end.

(** The rest of a locked region: it takes no lock and releases the lock
    exactly once, however it ends. *)
Definition releases {A} (m : M A) : Prop :=
  ∀ w w' r, m w = (w', r) →
    ∃ evs, w_log w' = w_log w ++ evs ∧ tally is_lock evs = 0%nat ∧
           tally is_unlock evs = 1%nat.

Lemma balanced_bind {A B} (m : M A) (k : A → M B) :
  balanced m → (∀ a, balanced (k a)) → balanced (m ≫= k).
Proof.
  intros Hm Hk w w' r H. apply bind_inv in H as [(w1 & a & H1 & H2)|(e & H1 & ->)].
  - apply Hm in H1 as (evs1 & L1 & A1 & B1). apply Hk in H2 as (evs2 & L2 & A2 & B2).
    exists (evs1 ++ evs2). rewrite L2, L1, !tally_app, A1, A2, B1, B2, (assoc_L (++)). done.
  - by apply Hm in H1.
Qed.

Lemma releases_bind {A B} (m : M A) (k : A → M B) :
  balanced m → (∀ a, releases (k a)) → releases (m ≫= k).
Proof.
  intros Hm Hk w w' r H. apply bind_inv in H as [(w1 & a & H1 & H2)|(e & H1 & ->)].
  - apply Hm in H1 as (evs1 & L1 & A1 & B1). apply Hk in H2 as (evs2 & L2 & A2 & B2).
    exists (evs1 ++ evs2). rewrite L2, L1, !tally_app, A1, A2, B1, B2, (assoc_L (++)). done.
  - by apply Hm in H1.
Qed.

Lemma balanced_prim {A} (m : M A) : pres (out other_ev) never m → balanced m.
Proof.
  intros Hm w w' r H. apply Hm in H as [[_ (evs & Hlog & Hevs)] Hr].
  exists evs. split; [done|]. destruct r; [|done].
  split; apply tally_other; try done; intros e; unfold other_ev; destruct e; done.
Qed.

Lemma balanced_pure {A} (m : M A) :
  (∀ w, ∃ w' a, m w = (w', Val a) ∧ w_log w' = w_log w) → balanced m.
Proof.
  intros Hm w w' r H. destruct (Hm w) as (w1 & a & H1 & Hl). rewrite H in H1.
  injection H1 as -> ->. exists []. by rewrite app_nil_r.
Qed.

Lemma balanced_unlock_return {A} lk e :
  balanced (bplib_os_unlock lk ≫= λ _, @return_ A e).
Proof. intros w w' r [= <- <-]. by exists [EvUnlock lk]. Qed.

Lemma balanced_unlock_bplog_return {A} lk e :
  balanced (bplib_os_unlock lk ≫= λ _, c ← bplog e; @return_ A c).
Proof.
  intros w w' r [= <- <-]. exists [EvUnlock lk; EvLog e]. simpl.
  by rewrite <- (assoc_L (++)).
Qed.

Lemma releases_unlock_mret {A} lk (a : A) : releases (bplib_os_unlock lk ≫= λ _, mret a).
Proof. intros w w' r [= <- <-]. by exists [EvUnlock lk]. Qed.

Ltac bal_step :=
  lazymatch goal with
  | |- balanced (mbind (λ _, mbind (λ c, return_ c) (bplog _)) (bplib_os_unlock _)) =>
      apply balanced_unlock_bplog_return
  | |- balanced (mbind (λ _, return_ _) (bplib_os_unlock _)) => apply balanced_unlock_return
  | |- balanced (mbind _ _) => apply balanced_bind; [|intros ?]
  | |- balanced (mret _) => apply balanced_pure; intros; eexists _, _; split; reflexivity
  | |- balanced (get _) => apply balanced_pure; intros; eexists _, _; split; reflexivity
  | |- balanced (put _) => apply balanced_pure; intros; eexists _, _; split; reflexivity
  | |- balanced (act _) => apply balanced_prim, act_out; act_side
  | |- balanced (bplog _) => apply balanced_prim, bplog_out; reflexivity
  | |- balanced (bplib_os_signal _) => apply balanced_prim, signal_out; reflexivity
  | |- balanced (bplib_os_waiton _ _) => apply balanced_prim, waiton_out; reflexivity
  | |- balanced (fopen _ _) => apply balanced_prim, fopen_out; reflexivity
  | |- balanced (fclose _) => apply balanced_prim, fclose_out; reflexivity
  | |- balanced (fread _ _) => apply balanced_prim, fread_out; intros; reflexivity
  | |- balanced (fwrite _ _) => apply balanced_prim, fwrite_out; intros; reflexivity
  | |- balanced (fseek _ _ _) => apply balanced_prim, fseek_out; reflexivity
  | |- balanced (remove _) => apply balanced_prim, remove_out; reflexivity
  | |- balanced (malloc _) => apply balanced_prim, malloc_out; intros; reflexivity
  | |- balanced (free _) => apply balanced_prim, free_out; intros; reflexivity
  | |- balanced (fread_into _ _ _) => apply balanced_prim, fread_into_out; intros; reflexivity
  | |- balanced (match ?x with _ => _ end) => destruct x
  end.

Lemma skip_records_balanced lk fd n : balanced (skip_records (bplib_os_unlock lk) fd n).
Proof.
  induction n as [|n IH]; simpl; [bal_step|].
  repeat lazymatch goal with
  | |- balanced (skip_records _ _ _) => exact IH
  | |- _ => bal_step
  end.
Qed.

Ltac bal_go :=
  repeat lazymatch goal with
  | |- balanced (skip_records _ _ _) => apply skip_records_balanced
  | |- _ => bal_step
  end.

Ltac rel_go :=
  repeat lazymatch goal with
  | |- releases (mbind (λ _, mret _) (bplib_os_unlock _)) => apply releases_unlock_mret
  | |- releases (mbind _ _) => apply releases_bind; [bal_go|intros ?]
  | |- releases (match ?x with _ => _ end) => destruct x
  end.

(** The events of a call that takes the lock of the store first, takes no
    other lock, and releases a lock exactly once. *)
Definition locks_once (m : M bp_status) (w : world) : Prop :=
  ∃ evs, events_of m w = EvLock (lock (w_fs w)) :: evs ∧
         tally is_lock evs = 0%nat ∧ tally is_unlock evs = 1%nat.

Lemma locks_once_intro (k : Z → M bp_status) w :
  (∀ lk, releases (k lk)) →
  locks_once (lk ← get lock; bplib_os_lock lk;; k lk) w.
Proof.
  intros Hk. unfold locks_once, events_of, call, bplib_os_lock. msimpl.
  destruct (k (lock (w_fs w)) _) as [w' r] eqn:H.
  apply Hk in H as (evs & Hlog & Hl & Hu). simpl in Hlog.
  exists evs. split; [|done].
  assert (w_log w' = w_log w ++ EvLock (lock (w_fs w)) :: evs) as Hlog'.
  { rewrite Hlog. by rewrite <- (assoc_L (++)). }
  destruct r; simpl; by rewrite Hlog', drop_app_length.
Qed.

(** X11.  On every path through [bplib_store_file_dequeue],
    [bplib_store_file_retrieve], [bplib_store_file_release] and
    [bplib_store_file_relinquish], whatever the stdio calls and the waits
    answer, the call begins by taking the lock of the store, takes no lock
    after that, and releases a lock exactly once before it returns: no
    path returns with the lock held and none releases it twice. *)
Theorem lock_released_on_every_path (w : world) (sid timeout : Z) :
  locks_once (bplib_store_file_dequeue timeout) w ∧
  locks_once (bplib_store_file_retrieve sid timeout) w ∧
  locks_once (bplib_store_file_release sid) w ∧
  locks_once (bplib_store_file_relinquish sid) w.
Proof.
  split_and!.
  - apply (locks_once_intro (λ lk, _)). intros lk.
    unfold dequeue_wait, dequeue_open, dequeue_read, dequeue_finish, install_in_cache,
      read_object, open_dat_file.
    rel_go.
  - apply (locks_once_intro (λ lk, _)). intros lk.
    unfold install_in_cache, read_object, open_dat_file.
    rel_go.
  - apply (locks_once_intro (λ lk, _)). intros lk. rel_go.
  - unfold locks_once, events_of, call, bplib_store_file_relinquish, relinquish_prepare,
      bplib_os_lock.
    rewrite bind_assoc, bind_get, bind_assoc, bind_emit.
    lazymatch goal with
    | |- context [match ?m ?v with _ => _ end] =>
        assert (releases m) as Hm; [|destruct (m v) as [w' r] eqn:H]
    end.
    { unfold relinquish_clear_cache, relinquish_load_table, relinquish_mark, delete_tbl_file,
        delete_dat_file, open_tbl_file.
      rel_go. }
    apply Hm in H as (evs & Hlog & Hl & Hu). simpl in Hlog.
    exists evs. split; [|done].
    assert (w_log w' = w_log w ++ EvLock (lock (w_fs w)) :: evs) as Hlog'.
    { rewrite Hlog. by rewrite <- (assoc_L (++)). }
    destruct r; simpl; by rewrite Hlog', drop_app_length.
Qed.

(** ** Enqueue after a failed write *)

Lemma fseek_keeps_mode fd o wh w w' r fd' s :
  fseek fd o wh w = (w', r) → w_streams w !! fd' = Some s →
  ∃ s', w_streams w' !! fd' = Some s' ∧ st_mode s' = st_mode s ∧ st_name s' = st_name s.
Proof.
  unfold fseek. rewrite bind_emit, bind_next_io. unfold act. simpl. intros H Hs.
  repeat case_match; injection H as <- <-; simpl; eauto;
    (destruct (decide (fd = fd')) as [->|Hne];
     [rewrite lookup_insert_eq; eexists; split; [done|]; simpl; split; congruence
     |rewrite lookup_insert_ne by done; eauto]).
Qed.

Lemma fread_write_only fd n w w' got s :
  fread fd n w = (w', Val got) → w_streams w !! fd = Some s → st_mode s ≠ ModeRead → got = [].
Proof.
  unfold fread. rewrite bind_next_io. unfold act. simpl. intros H Hs Hm.
  rewrite Hs in H. injection H as _ <-. destruct (st_mode s); try done; by case_match.
Qed.

(** The replay cannot get past its first record: the stream it reads from
    has been opened for appending. *)
Lemma enqueue_replay_stuck d w w1 fd :
  0 < GET_DATAOFFSET d → enqueue_replay d w = (w1, Val fd) → False.
Proof.
  intros Hoff H. unfold enqueue_replay, open_dat_file in H.
  rewrite !bind_get, bind_assoc in H.
  destruct (fopen_run (dat_name (i32 (service_id (w_fs w))) (root (w_fs w)) (GET_FILEID d))
              ModeAppend w) as (w2 & ofd & Hopen & _ & _ & _ & _ & Hfail & Hok).
  rewrite (bind_val _ _ _ _ _ Hopen) in H.
  destruct ofd as [fd0|].
  2:{ unfold bplog in H. msimpl_in H. done. }
  cbv beta iota in H. rewrite bind_mret, bind_put in H.
  destruct Hok as (fd1 & [= <-] & _ & Hst & _).
  { intros Hf. by destruct (Hfail Hf). }
  apply bind_inv in H as [(w3 & st & Hseek & H)|(e & Hseek & ?)]; [|done].
  destruct (st <? 0); [unfold bplog in H; msimpl_in H; done|].
  apply bind_inv in H as [(w4 & u & Hskip & H)|(e & Hskip & ?)]; [|done].
  destruct (fseek_keeps_mode fd0 0 SEEK_SET _ w3 (Val st) fd0 _ Hseek
              ltac:(simpl; rewrite Hst; apply lookup_insert_eq)) as (s' & Hs' & Hmode & _).
  simpl in Hmode.
  destruct (Z.to_nat (GET_DATAOFFSET d)) as [|n] eqn:Hn; [lia|].
  simpl in Hskip.
  apply bind_inv in Hskip as [(w5 & got & Hread & Hskip)|(e & Hread & ?)]; [|done].
  apply (fread_write_only _ _ _ _ _ s') in Hread; [|done|by rewrite Hmode].
  subst got. simpl in Hskip. unfold bplog in Hskip. msimpl_in Hskip. done.
Qed.

Lemma prim_files {A} (m : M A) :
  (∀ w w' r, m w = (w', r) → same_files w w') → pres same_files any_code m.
Proof. intros Hm w w' r H. split; [by eapply Hm|by destruct r]. Qed.

Lemma fopen_append_files name w w' r : fopen name ModeAppend w = (w', r) → same_files w w'.
Proof.
  intros H n.
  destruct (fopen_run name ModeAppend w) as (w1 & ofd & Hrun & _ & _ & _ & _ & Hfail & Hok).
  rewrite H in Hrun. injection Hrun as <- _.
  destruct (decide (default IoOk (head (w_io w)) = IoFail ∨
                    ModeAppend = ModeRead ∧ w_disk w !! name = None)) as [Hf|Hs].
  - destruct (Hfail Hf) as (_ & Hd & _). unfold file_of. by rewrite Hd.
  - destruct (Hok Hs) as (fd & _ & _ & _ & Hother & Hname & _).
    destruct (decide (n = name)) as [->|Hn]; [done|by apply Hother].
Qed.

Lemma enqueue_replay_files d : pres same_files any_code (enqueue_replay d).
Proof.
  unfold enqueue_replay, open_dat_file.
  assert (∀ cleanup fd n, pres same_files any_code cleanup →
            pres same_files any_code (skip_records cleanup fd n)) as Hskip.
  { intros cleanup fd n Hc. induction n as [|n IH]; simpl; [apply pres_ret|].
    repeat lazymatch goal with
    | |- pres _ _ (skip_records _ _ _) => exact IH
    | |- pres _ _ cleanup => exact Hc
    | |- pres _ _ (mbind _ _) => apply pres_bind; [|intros ?]
    | |- pres _ _ (return_ _) => by apply pres_return
    | |- pres _ _ (bplog _) => apply prim_files, bplog_files
    | |- pres _ _ (fread _ _) => apply prim_files, fread_files
    | |- pres _ _ (fseek _ _ _) => apply prim_files, fseek_files
    | |- pres _ _ (match ?x with _ => _ end) => destruct x
    end. }
  repeat lazymatch goal with
  | |- pres _ _ (skip_records _ _ _) => apply Hskip
  | |- pres _ _ (mbind _ _) => apply pres_bind; [|intros ?]
  | |- pres _ _ (mret _) => apply pres_ret
  | |- pres _ _ (return_ _) => by apply pres_return
  | |- pres _ _ (get _) => apply pres_get
  | |- pres _ _ (put _) => apply pres_put; by intros
  | |- pres _ _ (bplog _) => apply prim_files, bplog_files
  | |- pres _ _ (fopen _ ModeAppend) => apply prim_files, fopen_append_files
  | |- pres _ _ (fseek _ _ _) => apply prim_files, fseek_files
  | |- pres _ _ (match ?x with _ => _ end) => destruct x
  end.
Qed.

(** X12.  After a failed write ([write_error] set, write stream closed)
    the next enqueue to a slot other than the first of its bucket cannot
    succeed: the bucket file is opened for appending, and the replay that
    has to step over the records before the slot reads from that stream.
    The call returns [BP_FAILEDSTORE] whatever the stdio calls answer,
    writes nothing, and leaves [write_data_id], [data_count] and
    [write_error] as they were. *)
Theorem enqueue_replay_fails_past_first_slot (w : world) (handle : Z) (d1 d2 : list byte)
    (timeout : Z) :
  write_fd (w_fs w) = None → write_error (w_fs w) = true →
  0 < GET_DATAOFFSET (GET_DATAID (write_data_id (w_fs w))) →
  let w' := (call (bplib_store_file_enqueue handle d1 d2 timeout) w).1 in
  (call (bplib_store_file_enqueue handle d1 d2 timeout) w).2 = BP_FAILEDSTORE ∧
  write_data_id (w_fs w') = write_data_id (w_fs w) ∧
  data_count (w_fs w') = data_count (w_fs w) ∧
  write_error (w_fs w') = true ∧
  (∀ n, file_of w' n = file_of w n).
Proof.
  intros Hfd Herr Hoff w'. subst w'.
  destruct (call (bplib_store_file_enqueue handle d1 d2 timeout) w) as [w' r] eqn:H. simpl.
  destruct (enqueue_run _ _ _ _ _ _ _ H)
    as [(-> & Hv & e & Ho)|(w1 & fd & w2 & x & Ho & _)].
  2:{ rewrite enqueue_open_replay in Ho by done. by apply enqueue_replay_stuck in Ho. }
  rewrite enqueue_open_replay in Ho by done.
  apply (f_equal write_data_id) in Hv as H1. apply (f_equal data_count) in Hv as H2.
  apply (f_equal write_error) in Hv as H3. simpl in H1, H2, H3.
  pose proof Ho as Hfiles. apply enqueue_replay_files in Hfiles as [Hfiles _].
  split_and!; [done|done|done|congruence|exact Hfiles].
Qed.

(** A store whose second enqueue has failed on a short write. *)
Definition after_failed_write : world :=
  after [enqueue1 97; enqueue1 98]
    (fresh_store 4 [IoOk; IoOk; IoOk; IoOk; IoOk; IoOk; IoShort 3] []).

Lemma enqueue_replay_fails_past_first_slot_witness :
  let w := after_failed_write in
  let w' := (call (bplib_store_file_enqueue 0 [99] [] 0) w).1 in
  (call (bplib_store_file_enqueue 0 [99] [] 0) w).2 = BP_FAILEDSTORE ∧
  write_data_id (w_fs w') = write_data_id (w_fs w) ∧
  data_count (w_fs w') = data_count (w_fs w) ∧
  write_error (w_fs w') = true ∧
  (∀ n, file_of w' n = file_of w n).
Proof.
  apply (enqueue_replay_fails_past_first_slot after_failed_write 0 [99] [] 0);
    vm_compute; reflexivity.
Defined.

(** ** C2 *)

(** A first enqueue whose header write is cut short after 4 bytes and
    whose two payload writes fail: 8 bytes reach the bucket file. *)
Definition cut_write_store : world :=
  fresh_store 4 [IoOk; IoOk; IoShort 4; IoFail; IoFail] [].

(** C2 (the code departs from the claim).  A failed enqueue returns
    [BP_FAILEDSTORE], sets [write_error], closes the stream and keeps
    [write_data_id] and [data_count], as the claim says; but the next
    enqueue does not replay the position of the record.  The bucket file
    is opened for appending, so the write goes behind the bytes of the cut
    record wherever the stream was placed, and the stream cannot be read.

    At slot 0 (first part): the retry returns [BP_SUCCESS] with the 8 bytes
    of the cut record still at offset 0 and the new record behind them;
    the dequeue of sid 1 then returns [BP_SUCCESS] with an object made of
    the bytes at offset 4, whose size field is 0 and whose payload is not
    the "b" that was enqueued.

    At slot 1 (second part, in [after_failed_write]): the retry opens the
    file, fails on the first size word of the replay loop and returns
    [BP_FAILEDSTORE], leaving the stream open and [write_error] set; the
    enqueue after that skips the replay, since [write_fd] is not NULL, and
    appends its record behind the cut one, at offset 41 where the position
    of record 1 is offset 21. *)
Theorem enqueue_retry_lands_behind_cut_record :
  let name := dat_name 0 ".pfile" 0 in
  let w := cut_write_store in
  let w1 := (call (enqueue1 97) w).1 in
  let w2 := (call (enqueue1 98) w1).1 in
  let w3 := (call (bplib_store_file_dequeue 0) w2).1 in
  let v := after_failed_write in
  let v1 := (call (enqueue1 99) v).1 in
  let v2 := (call (enqueue1 100) v1).1 in
  ((call (enqueue1 97) w).2 = BP_FAILEDSTORE ∧
   write_error (w_fs w1) = true ∧ write_fd (w_fs w1) = None ∧
   write_data_id (w_fs w1) = 1 ∧ data_count (w_fs w1) = 0 ∧
   file_of w1 name = [17; 0; 0; 0; 0; 0; 0; 0] ∧
   (call (enqueue1 98) w1).2 = BP_SUCCESS ∧
   write_data_id (w_fs w2) = 2 ∧ data_count (w_fs w2) = 1 ∧
   file_of w2 name = file_of w1 name ++ record_bytes 0 [98] [] ∧
   (call (bplib_store_file_dequeue 0) w2).2 = BP_SUCCESS ∧
   object_sid (object_at w3 (w_object w3)) = 1 ∧
   object_size_field (object_at w3 (w_object w3)) = 0 ∧
   object_payload (object_at w3 (w_object w3)) = [0]) ∧
  (write_error (w_fs v) = true ∧ write_fd (w_fs v) = None ∧
   write_data_id (w_fs v) = 2 ∧ data_count (w_fs v) = 1 ∧
   take 21 (file_of v name) = record_bytes 0 [97] [] ∧ len (file_of v name) = 41 ∧
   (call (enqueue1 99) v).2 = BP_FAILEDSTORE ∧
   write_error (w_fs v1) = true ∧ write_fd (w_fs v1) ≠ None ∧
   write_data_id (w_fs v1) = 2 ∧ data_count (w_fs v1) = 1 ∧
   file_of v1 name = file_of v name ∧
   (call (enqueue1 100) v1).2 = BP_SUCCESS ∧
   write_error (w_fs v2) = false ∧
   write_data_id (w_fs v2) = 3 ∧ data_count (w_fs v2) = 2 ∧
   file_of v2 name = file_of v name ++ record_bytes 0 [100] []).
Proof. cbv zeta. split; split_and!; by vm_compute. Qed.

(** ** Dequeue when every stdio call goes through *)

(** Stream [fd] reads file [name] and stands at offset [pos]. *)
Definition reads_from (w : world) (fd : positive) (name : fname) (pos : Z) : Prop :=
  w_streams w !! fd = Some {| st_name := name; st_mode := ModeRead; st_pos := pos |}.

(** The streams other than [fd] are as they were. *)
Definition other_streams (fd : positive) (w w' : world) : Prop :=
  ∀ fd', fd' ≠ fd → w_streams w' !! fd' = w_streams w !! fd'.

Ltac mrun :=
  repeat first [ rewrite bind_assoc | rewrite bind_get | rewrite bind_put | rewrite bind_mret
               | rewrite bind_emit | progress cbv beta iota ].

Lemma fopen_read_run name w :
  w_io w = [] → is_Some (w_disk w !! name) →
  ∃ fd w', fopen name ModeRead w = (w', Val (Some fd)) ∧
           w_fs w' = w_fs w ∧ w_io w' = [] ∧ w_heap w' = w_heap w ∧
           same_files w w' ∧ w_streams w !! fd = None ∧
           reads_from w' fd name 0 ∧ other_streams fd w w'.
Proof.
  intros Hio [c Hc].
  assert (w_streams w !! fresh (dom (w_streams w)) = None) as Hfresh.
  { apply not_elem_of_dom, is_fresh. }
  unfold fopen. rewrite bind_emit, bind_next_io. unfold act. simpl. rewrite Hio, Hc. simpl.
  eexists _, _. split; [reflexivity|]. simpl. split_and!; try done.
  - intros n. unfold file_of. simpl. rewrite Hc. simpl.
    destruct (decide (n = name)) as [->|Hn];
      [by rewrite lookup_insert_eq, Hc|by rewrite lookup_insert_ne].
  - unfold reads_from. simpl. by rewrite lookup_insert_eq.
  - intros fd' Hne. simpl. by rewrite lookup_insert_ne.
Qed.

Lemma fread_run fd n name pos w :
  w_io w = [] → reads_from w fd name pos →
  let got := take (Z.to_nat n) (drop (Z.to_nat pos) (file_of w name)) in
  ∃ w', fread fd n w = (w', Val got) ∧
        w_fs w' = w_fs w ∧ w_io w' = [] ∧ w_heap w' = w_heap w ∧ w_disk w' = w_disk w ∧
        reads_from w' fd name (pos + len got) ∧ other_streams fd w w'.
Proof.
  intros Hio Hs got. unfold reads_from in Hs.
  unfold fread. rewrite bind_next_io. unfold act. simpl. rewrite Hio, Hs. simpl. fold got.
  eexists. split; [reflexivity|]. simpl. split_and!; try done.
  - unfold reads_from. simpl. by rewrite lookup_alter_eq, Hs.
  - intros fd' Hne. simpl. by rewrite lookup_alter_ne.
Qed.

(** The read stream of the store, when it is open, reads [name] and stands
    at [pos]; when it is closed, [name] exists and [pos] is 0. *)
Definition reads_at (w : world) (name : fname) (pos : Z) : Prop :=
  match read_fd (w_fs w) with
  | Some fd => reads_from w fd name pos
  | None => pos = 0 ∧ is_Some (w_disk w !! name)
  end.

Lemma dequeue_open_run lk d pos w :
  w_io w = [] → read_error (w_fs w) = false → reads_at w (bucket_of (w_fs w) d) pos →
  ∃ fd w1, dequeue_open lk d w = (w1, Val fd) ∧
           w_fs w1 = set_read_fd (Some fd) (w_fs w) ∧ w_io w1 = [] ∧ w_heap w1 = w_heap w ∧
           same_files w w1 ∧ reads_from w1 fd (bucket_of (w_fs w) d) pos ∧
           other_streams fd w w1 ∧
           (∀ s, w_streams w !! fd = Some s → st_mode s = ModeRead).
Proof.
  intros Hio Herr Hat. unfold dequeue_open, reads_at in *. rewrite bind_get.
  destruct (read_fd (w_fs w)) as [fd|] eqn:Hfd.
  - rewrite bind_mret, bind_get, Herr, bind_mret. exists fd, w.
    split_and!; try done.
    + destruct (w_fs w); simpl in *; by subst.
    + intros s Hs. unfold reads_from in Hat. rewrite Hat in Hs. by injection Hs as <-.
  - destruct Hat as [-> Hthere]. unfold open_dat_file. cbv beta iota zeta.
    repeat first [ rewrite bind_assoc | rewrite bind_get ].
    destruct (fopen_read_run (bucket_of (w_fs w) d) w Hio Hthere)
      as (fd & w1 & Ho & Hfs & Hio1 & Hheap & Hfiles & Hnew & Hs & Hoth).
    unfold bucket_of in Ho. rewrite (bind_val _ _ _ _ _ Ho).
    mrun. simpl. rewrite Hfs, Herr. mrun.
    exists fd. eexists. split; [reflexivity|]. simpl. split_and!; try done.
    + by rewrite Hfs.
    + intros s' Hs'. congruence.
Qed.

Lemma le_value_le_bytes n z : le_value (le_bytes n z) = z mod 256 ^ Z.of_nat n.
Proof.
  revert z. induction n as [|n IH]; intros z.
  - simpl. by rewrite Z.mod_1_r.
  - cbn [le_bytes le_value]. rewrite IH, Nat2Z.inj_succ, Z.pow_succ_r by lia.
    rewrite (Z.mul_comm 256), Z.rem_mul_r by lia. lia.
Qed.

Lemma bind_malloc {B} size (k : positive → M B) w :
  (malloc size ≫= k) w =
  k (fresh (dom (w_heap w)))
    (with_log (w_log w ++ [EvMalloc (fresh (dom (w_heap w))) size])
       (with_heap (<[fresh (dom (w_heap w)) := replicate (Z.to_nat size) 0]>) w)).
Proof. done. Qed.

Lemma bind_store_bytes {B} p data (k : unit → M B) w :
  (store_bytes p data ≫= k) w =
  k tt (with_heap (alter (λ old, data ++ drop (length data) old) p) w).
Proof. done. Qed.

(** "Read Data" on a stream that stands at a record: the size word
    [osz], then the [osz] bytes [obj] of the object, which are placed in a
    new block and stamped with [sid]. *)
Lemma read_object_run fd sid name pos osz obj pre post w :
  w_io w = [] → reads_from w fd name pos →
  file_of w name = pre ++ le_bytes 4 osz ++ obj ++ post →
  len pre = pos → len obj = osz → osz < 2 ^ 32 →
  let p := fresh (dom (w_heap w)) in
  ∃ w', read_object fd sid w = (w', Val (Some p, osz, true)) ∧
        w_fs w' = w_fs w ∧ w_io w' = [] ∧ w_disk w' = w_disk w ∧
        w_heap w' = <[p := stamp_sid sid obj]> (w_heap w) ∧
        reads_from w' fd name (pos + 4 + osz) ∧ other_streams fd w w'.
Proof.
  intros Hio Hs Hfile Hpre Hobj Hosz p. unfold read_object.
  assert (0 ≤ osz) as Hpos by (unfold len in Hobj; lia).
  destruct (fread_run fd 4 name pos w Hio Hs) as (w1 & Hr1 & Hfs1 & Hio1 & Hh1 & Hd1 & Hs1 & Ho1).
  assert (take (Z.to_nat 4) (drop (Z.to_nat pos) (file_of w name)) = le_bytes 4 osz) as Hword.
  { rewrite Hfile, drop_app_length' by (unfold len in Hpre; lia).
    by rewrite take_app_length' by (by rewrite len_le_bytes). }
  rewrite Hword in Hr1, Hs1. rewrite (bind_val _ _ _ _ _ Hr1).
  assert (len (le_bytes 4 osz) = 4) as Hl4 by (unfold len; by rewrite len_le_bytes).
  rewrite Hl4 in *. simpl (4 =? 4). cbv iota.
  rewrite le_value_le_bytes. change (256 ^ Z.of_nat 4) with (2 ^ 32).
  rewrite Z.mod_small by lia.
  rewrite bind_malloc, Hh1. fold p.
  set (w2 := with_log _ (with_heap _ w1)).
  assert (w_io w2 = [] ∧ reads_from w2 fd name (pos + 4) ∧ file_of w2 name = file_of w name)
    as (Hio2 & Hs2 & Hf2).
  { subst w2. split_and!; [done|exact Hs1|]. unfold file_of. simpl. by rewrite Hd1. }
  unfold fread_into.
  destruct (fread_run fd osz name (pos + 4) w2 Hio2 Hs2)
    as (w3 & Hr3 & Hfs3 & Hio3 & Hh3 & Hd3 & Hs3 & Ho3).
  assert (take (Z.to_nat osz) (drop (Z.to_nat (pos + 4)) (file_of w2 name)) = obj) as Hgot.
  { rewrite Hf2, Hfile, (assoc_L (++) pre), drop_app_length'.
    - apply take_app_length'. unfold len in Hobj. lia.
    - rewrite length_app, len_le_bytes. unfold len in Hpre. lia. }
  rewrite Hgot in Hr3, Hs3. rewrite bind_assoc, (bind_val _ _ _ _ _ Hr3).
  rewrite bind_assoc, bind_store_bytes, bind_mret. cbv beta iota. rewrite Hobj, Z.eqb_refl. unfold act.
  eexists. split; [reflexivity|]. simpl.
  split_and!.
  - rewrite Hfs3. subst w2. simpl. exact Hfs1.
  - done.
  - rewrite Hd3. subst w2. simpl. exact Hd1.
  - rewrite Hh3. subst w2. simpl. rewrite !alter_insert_eq. f_equal; [|exact Hh1].
    rewrite drop_ge; [by rewrite app_nil_r|].
    rewrite length_replicate. unfold len in Hobj. lia.
  - unfold reads_from in *. simpl. rewrite Hs3. do 2 f_equal. lia.
  - intros fd' Hne. simpl. rewrite (Ho3 fd' Hne). subst w2. simpl. by apply Ho1.
Qed.

(** "Check State of Data Cache" to "Update Data Cache" on a slot that is
    not locked. *)
Lemma install_in_cache_run lk t idx d p w :
  mem_locked (cache_at (w_fs w) idx) = 0 →
  ∃ w', install_in_cache lk t idx d (Some p) w = (w', Val tt) ∧
        w_fs w' = set_cache_at idx {| mem_ptr := Some p; mem_locked := FILE_MEM_LOCKED;
                                      mem_data_id := d |} (w_fs w) ∧
        w_io w' = w_io w ∧ w_disk w' = w_disk w ∧ w_streams w' = w_streams w ∧
        w_heap w' = match mem_ptr (cache_at (w_fs w) idx) with
                    | Some old => delete old (w_heap w)
                    | None => w_heap w
                    end.
Proof.
  intros Hfree. unfold install_in_cache. mrun. rewrite Hfree. simpl. mrun.
  destruct (mem_ptr (cache_at (w_fs w) idx)) as [old|]; simpl; mrun.
  - rewrite bind_act. cbv beta iota. mrun. eexists. split; [reflexivity|]. done.
  - eexists. split; [reflexivity|]. done.
Qed.

(** "Check Need to Open New File", "Set Read State", "Return Object". *)
Lemma dequeue_finish_run lk fd p w :
  let rid := read_data_id (w_fs w) in
  ∃ w', dequeue_finish lk fd (Some p) w = (w', Val BP_SUCCESS) ∧
        w_fs w' = set_read_data_id (u64 (rid + 1))
                    (set_read_error false
                       (if rid mod FILE_DATA_COUNT =? 0 then set_read_fd None (w_fs w)
                        else w_fs w)) ∧
        w_io w' = w_io w ∧ w_disk w' = w_disk w ∧ w_heap w' = w_heap w ∧
        w_object w' = Some p ∧
        w_streams w' = (if rid mod FILE_DATA_COUNT =? 0 then delete fd (w_streams w)
                        else w_streams w).
Proof.
  intros rid. unfold dequeue_finish, fclose, bplib_os_unlock. mrun. fold rid.
  destruct (rid mod FILE_DATA_COUNT =? 0); mrun; repeat (rewrite bind_act; cbv beta iota; mrun);
    (eexists; split; [reflexivity|]); done.
Qed.

(** Release of a sid whose object is resident in its slot. *)
Lemma release_run sid w :
  let idx := cache_index_of (GET_DATAID sid) (w_fs w) in
  let e := cache_at (w_fs w) idx in
  mem_ptr e ≠ None → mem_data_id e = GET_DATAID sid →
  ∃ w', call (bplib_store_file_release sid) w = (w', BP_SUCCESS) ∧
        w_fs w' = set_cache_at idx {| mem_ptr := mem_ptr e; mem_locked := FILE_MEM_AVAIABLE;
                                      mem_data_id := mem_data_id e |} (w_fs w) ∧
        w_io w' = w_io w ∧ w_disk w' = w_disk w ∧ w_heap w' = w_heap w ∧
        w_streams w' = w_streams w ∧ w_object w' = w_object w.
Proof.
  intros idx e Hp Hd. subst idx e.
  unfold call, bplib_store_file_release, bplib_os_lock, bplib_os_unlock, bplib_os_signal.
  mrun. simpl. rewrite Hd, Z.eqb_refl, bool_decide_eq_false_2 by done. simpl. mrun.
  eexists. split; [reflexivity|]. done.
Qed.

(** Dequeue on an empty queue: it gives up and nothing changes. *)
Lemma dequeue_empty_run t w :
  read_data_id (w_fs w) = write_data_id (w_fs w) →
  ∃ w' r, call (bplib_store_file_dequeue t) w = (w', r) ∧ r ≠ BP_SUCCESS ∧
          w_fs w' = w_fs w ∧ w_io w' = w_io w ∧ w_disk w' = w_disk w ∧
          w_heap w' = w_heap w ∧ w_streams w' = w_streams w.
Proof.
  intros Heq.
  unfold call, bplib_store_file_dequeue, dequeue_wait, bplib_os_lock, bplib_os_unlock, bplog.
  msimpl. simpl. rewrite Heq, Z.eqb_refl. msimpl. simpl.
  destruct (head (w_wait w)) as [[]|]; simpl; try done; msimpl; simpl;
    rewrite ?Heq, ?Z.eqb_refl; msimpl; simpl;
    (eexists _, _; split; [reflexivity|]); done.
Qed.

(** ** What enqueue leaves of the heap and of the streams that read *)

(** The heap is as it was, and so is every stream that was open for
    reading. *)
Definition kept (w w' : world) : Prop :=
  w_heap w' = w_heap w ∧
  ∀ fd s, w_streams w !! fd = Some s → st_mode s = ModeRead → w_streams w' !! fd = Some s.

Global Instance kept_preorder : PreOrder kept.
Proof.
  split.
  - intros w. by split.
  - intros x y z [H1 S1] [H2 S2]. split; [congruence|]. intros fd s Hs Hm. eauto.
Qed.

Lemma kept_prim {A} (m : M A) : (∀ w, kept w (m w).1) → pres kept any_code m.
Proof.
  intros Hm w w' r H. specialize (Hm w). rewrite H in Hm. split; [done|by destruct r].
Qed.

Lemma kept_same_env w w' :
  w_heap w' = w_heap w → w_streams w' = w_streams w → kept w w'.
Proof. intros Hh Hs. split; [done|]. intros fd s. by rewrite Hs. Qed.

Lemma fopen_kept name mode w : kept w (fopen name mode w).1.
Proof.
  unfold fopen. rewrite bind_emit, bind_next_io. unfold act. simpl.
  assert (∀ d pos, kept w (with_streams (<[fresh (dom (w_streams w)) :=
                                          {| st_name := name; st_mode := mode; st_pos := pos |}]>)
                        (with_disk d (with_io (tail (w_io w))
                           (with_log (w_log w ++ [EvOpen name mode]) w))))) as Hnew.
  { intros d pos. split; [done|]. intros fd s Hs _. simpl.
    rewrite lookup_insert_ne; [done|]. intros <-.
    assert (w_streams w !! fresh (dom (w_streams w)) = None) as Hf
      by apply not_elem_of_dom, is_fresh.
    congruence. }
  repeat case_match; simpl; first [ by apply kept_same_env | apply Hnew ].
Qed.

Lemma fwrite_kept fd data w : kept w (fwrite fd data w).1.
Proof.
  unfold fwrite. rewrite bind_next_io. unfold act. simpl.
  destruct (w_streams w !! fd) as [s|] eqn:Hs; simpl; [|by apply kept_same_env].
  case_bool_decide as Hput; simpl; [by apply kept_same_env|].
  split; [done|]. intros fd' s' Hs' Hm. simpl.
  rewrite lookup_insert_ne; [done|]. intros <-.
  assert (s' = s) as -> by congruence. apply Hput. unfold written. by rewrite Hm.
Qed.

Lemma fflush_kept fd w : kept w (fflush fd w).1.
Proof. unfold fflush. rewrite bind_emit, bind_next_io. by apply kept_same_env. Qed.

Lemma bplog_kept e w : kept w (bplog e w).1.
Proof. unfold bplog. rewrite bind_emit. by apply kept_same_env. Qed.

Lemma fclose_kept fd name w : appends_to w fd name → kept w (fclose fd w).1.
Proof.
  intros (s & Hs & _ & Hmode). unfold fclose. rewrite bind_emit. unfold act. simpl.
  split; [done|]. intros fd' s' Hs' Hm. simpl.
  rewrite lookup_delete_ne; [done|]. intros <-. congruence.
Qed.

Lemma enqueue_write_kept fd h d1 d2 : pres kept any_code (enqueue_write fd h d1 d2).
Proof.
  unfold enqueue_write, file_flush, FILE_FLUSH_DEFAULT.
  repeat lazymatch goal with
  | |- pres _ _ (mbind _ _) => apply pres_bind; [|intros ?]
  | |- pres _ _ (mret _) => apply pres_ret
  | |- pres _ _ (fwrite _ _) => apply kept_prim, fwrite_kept
  | |- pres _ _ (fflush _) => apply kept_prim, fflush_kept
  | |- pres _ _ (bplog _) => apply kept_prim, bplog_kept
  | |- pres _ _ (match ?x with _ => _ end) => destruct x
  end.
Qed.

(** One enqueue when every stdio call goes through. *)
Lemma enqueue_kept h d1 d2 t w :
  let name := bucket_of (w_fs w) (GET_DATAID (write_data_id (w_fs w))) in
  w_io w = [] → write_error (w_fs w) = false → writes_to w name →
  len d1 + len d2 + 20 < 2 ^ 32 →
  kept w (call (bplib_store_file_enqueue h d1 d2 t) w).1.
Proof.
  intros name Hio Herr Hfd Hsz.
  unfold call, bplib_store_file_enqueue. rewrite bind_get.
  destruct (enqueue_open_run (GET_DATAID (write_data_id (w_fs w))) w Hio Herr Hfd)
    as (fd & w1 & Ho & Hfs1 & Hio1 & Hs1 & Hf1).
  fold name in Hs1. rewrite (bind_val _ _ _ _ _ Ho).
  destruct (enqueue_write_run fd h d1 d2 name w1 Hio1 Hs1 Hsz)
    as (w2 & Hw & Hfs2 & Hio2 & Hs2 & Hf2 & Ho2).
  rewrite (bind_val _ _ _ _ _ Hw).
  assert (write_fd (w_fs w2) = Some fd) as Hwfd by (by rewrite Hfs2, Hfs1).
  assert (kept w w1) as K1.
  { revert Ho. unfold enqueue_open. rewrite bind_get.
    destruct (write_fd (w_fs w)) as [f|]; [by intros [= <- _]|].
    rewrite !bind_get. unfold open_dat_file. rewrite bind_assoc.
    pose proof (fopen_kept (dat_name (i32 (service_id (w_fs w))) (root (w_fs w))
                              (GET_FILEID (GET_DATAID (write_data_id (w_fs w))))) ModeAppend w)
      as Hk.
    destruct (fopen _ ModeAppend w) as [v [ofd|e]] eqn:Hopen; simpl in Hk.
    2:{ by rewrite (bind_ret _ _ _ _ _ Hopen). }
    rewrite (bind_val _ _ _ _ _ Hopen).
    pose proof Hopen as Hfsv. apply keeps_fs in Hfsv; [|pres_go].
    destruct ofd as [f|]; cbv beta iota.
    - rewrite bind_mret, bind_put, bind_get. simpl. rewrite Hfsv, Herr, !bind_mret.
      intros [= <- _]. destruct Hk as [Hh Hst]. split; [done|]. intros. simpl. eauto.
    - unfold bplog. msimpl. done. }
  assert (kept w1 w2) as K2 by (by apply enqueue_write_kept in Hw as [? _]).
  assert (kept w2 (enqueue_finish fd (u32 (HDR_SIZE + u32 (len d1 + len d2)))
                     (u32 (HDR_SIZE + u32 (len d1 + len d2)) + 4, false) w2).1) as K3.
  { unfold enqueue_finish.
    rewrite bool_decide_eq_false_2 by (intros H; by apply H). simpl. rewrite bind_get.
    pose proof (fclose_kept fd name w2 Hs2) as Hc. revert Hc.
    unfold fclose, bplib_os_signal. rewrite bind_emit. unfold act. simpl. intros [Hh Hst].
    destruct (_ =? 0); msimpl; simpl; (split; [done|]); intros; simpl; eauto. }
  destruct (enqueue_finish _ _ _ w2) as [w3 r] eqn:Hfin. simpl in K3.
  assert (kept w w3) as K by (etrans; [exact K1|]; etrans; [exact K2|exact K3]).
  by destruct r.
Qed.

(** ** The queue under enqueues and dequeues *)

(** The fields of the reading side and the cache. *)
Definition read_view (fs : file_store_t) :=
  (read_fd fs, read_data_id fs, read_error fs, data_cache fs, cache_size fs).

Lemma enqueue_read_view h d1 d2 t :
  pres (keeps read_view no_lock) any_code (bplib_store_file_enqueue h d1 d2 t).
Proof.
  unfold bplib_store_file_enqueue, enqueue_finish.
  repeat lazymatch goal with
  | |- pres _ _ (enqueue_open _) => apply enqueue_open_keeps; done
  | |- pres _ _ (enqueue_write _ _ _ _) => apply enqueue_write_keeps; done
  | |- _ => pres_step
  end.
Qed.

(** The object of a record: the header and the two buffers. *)
Definition object_of (x : item) : list byte :=
  hdr_bytes {| hdr_handle := x.1.1; hdr_sid := BP_SID_VACANT;
               hdr_size := u32 (len x.1.2 + len x.2) |} ++ x.1.2 ++ x.2.

Definition object_size (x : item) : Z := u32 (HDR_SIZE + u32 (len x.1.2 + len x.2)).

Lemma item_bytes_object x : item_bytes x = le_bytes 4 (object_size x) ++ object_of x.
Proof. done. Qed.

Lemma object_size_fits x :
  fits x → len (object_of x) = object_size x ∧ object_size x < 2 ^ 32.
Proof.
  unfold fits, object_of, object_size. intros Hfit.
  assert (∀ h, Z.of_nat (length (hdr_bytes h)) = 16) as Hh by (intros; apply len_hdr_bytes).
  unfold len in *. rewrite !length_app, !Nat2Z.inj_add, Hh. unfold HDR_SIZE.
  set (L1 := Z.of_nat (length x.1.2)) in *. set (L2 := Z.of_nat (length x.2)) in *.
  assert (0 ≤ L1 ∧ 0 ≤ L2) as [? ?] by (subst L1 L2; lia).
  rewrite (u32_small (L1 + L2)) by lia. rewrite (u32_small (16 + (L1 + L2))) by lia. lia.
Qed.

(** The offset in its bucket file of record [j]. *)
Definition read_pos (items : list item) (j : Z) : Z :=
  len (concat (item_bytes <$> take (Z.to_nat (j mod 256)) (bucket (j / 256) items))).

(** What holds of the reading side between the calls: [j] records have
    been dequeued and released. *)
Record reading (w0 w : world) (items : list item) (j : Z) : Prop := {
  rd_id : read_data_id (w_fs w) = 1 + j;
  rd_range : 0 ≤ j ≤ len items;
  rd_error : read_error (w_fs w) = false;
  rd_stream :
    match read_fd (w_fs w) with
    | Some fd =>
        reads_from w fd (dat_name (i32 (service_id (w_fs w0))) (root (w_fs w0)) (j / 256))
          (read_pos items j) ∧ j mod 256 ≠ 0
    | None => j mod 256 = 0
    end;
  rd_cache : cache_ok (w_fs w);
  rd_unlocked : ∀ i e, cache (w_fs w) !! i = Some e → mem_locked e = 0;
  rd_live : ∀ i e q, cache (w_fs w) !! i = Some e → mem_ptr e = Some q →
                     is_Some (w_heap w !! q);
  rd_distinct : ∀ i i' e e' q,
    cache (w_fs w) !! i = Some e → cache (w_fs w) !! i' = Some e' →
    mem_ptr e = Some q → mem_ptr e' = Some q → i = i';
}.

Lemma bucket_lookup (items : list item) j :
  0 ≤ j →
  bucket (j / 256) items !! Z.to_nat (j mod 256) = items !! Z.to_nat j.
Proof.
  intros Hj. unfold bucket.
  pose proof (Z.div_mod j 256 ltac:(lia)). pose proof (Z.mod_pos_bound j 256 ltac:(lia)).
  assert (0 ≤ j / 256) by (apply Z.div_pos; lia).
  rewrite lookup_take_lt by lia. rewrite lookup_drop. f_equal. lia.
Qed.

Lemma bucket_length_ge (items : list item) j :
  0 ≤ j ≤ len items → (Z.to_nat (j mod 256) ≤ length (bucket (j / 256) items))%nat.
Proof.
  intros Hj. unfold bucket, len in *.
  pose proof (Z.div_mod j 256 ltac:(lia)). pose proof (Z.mod_pos_bound j 256 ltac:(lia)).
  assert (0 ≤ j / 256) by (apply Z.div_pos; lia).
  rewrite length_take, length_drop. lia.
Qed.

Lemma read_pos_snoc items x j : 0 ≤ j ≤ len items → read_pos (items ++ [x]) j = read_pos items j.
Proof.
  intros Hj. unfold read_pos. rewrite bucket_snoc by (apply Z.div_pos; lia).
  case_decide; [|done]. rewrite take_app_le; [done|]. by apply bucket_length_ge.
Qed.

Lemma read_pos_next items j x :
  0 ≤ j → items !! Z.to_nat j = Some x → (j + 1) mod 256 ≠ 0 →
  (j + 1) / 256 = j / 256 ∧
  read_pos items (j + 1) = read_pos items j + 4 + len (object_of x).
Proof.
  intros Hj Hx Hnz.
  pose proof (Z.div_mod j 256 ltac:(lia)). pose proof (Z.mod_pos_bound j 256 ltac:(lia)).
  pose proof (Z.div_mod (j + 1) 256 ltac:(lia)).
  pose proof (Z.mod_pos_bound (j + 1) 256 ltac:(lia)).
  assert ((j + 1) / 256 = j / 256) as Hk by nia.
  assert ((j + 1) mod 256 = j mod 256 + 1) as Hm by lia.
  split; [done|]. unfold read_pos. rewrite Hk, Hm.
  replace (Z.to_nat (j mod 256 + 1)) with (S (Z.to_nat (j mod 256))) by lia.
  rewrite <- bucket_lookup in Hx by done.
  rewrite (take_S_r _ _ x) by done.
  rewrite fmap_app, concat_app.
  change (concat (item_bytes <$> [x])) with (item_bytes x ++ []).
  rewrite app_nil_r, item_bytes_object.
  unfold len. rewrite !length_app, len_le_bytes. lia.
Qed.

Lemma bucket_file_split items j x :
  0 ≤ j → items !! Z.to_nat j = Some x →
  concat (item_bytes <$> bucket (j / 256) items) =
    concat (item_bytes <$> take (Z.to_nat (j mod 256)) (bucket (j / 256) items)) ++
    le_bytes 4 (object_size x) ++ object_of x ++
    concat (item_bytes <$> drop (S (Z.to_nat (j mod 256))) (bucket (j / 256) items)).
Proof.
  intros Hj Hx. rewrite <- bucket_lookup in Hx by done.
  rewrite <- (take_drop_middle _ _ _ Hx) at 1.
  rewrite fmap_app, concat_app, fmap_cons.
  change (concat (item_bytes x :: ?l)) with (item_bytes x ++ concat l).
  rewrite item_bytes_object. by rewrite <- !(assoc_L (++)).
Qed.

Lemma dequeue_wait_skip lk t w :
  read_data_id (w_fs w) ≠ write_data_id (w_fs w) → dequeue_wait lk t w = (w, Val tt).
Proof.
  intros Hne. unfold dequeue_wait. rewrite !bind_get.
  by apply Z.eqb_neq in Hne as ->.
Qed.

Lemma object_sid_stamp sid obj :
  (12 ≤ length obj)%nat → object_sid (stamp_sid sid obj) = sid mod 2 ^ 64.
Proof.
  intros Hlen. unfold object_sid, stamp_sid.
  rewrite (take_ge (take 4 obj ++ _)).
  2:{ rewrite !length_app, length_take, len_le_bytes, length_drop. lia. }
  rewrite drop_app_length' by (rewrite length_take; lia).
  rewrite take_app_length' by (by rewrite len_le_bytes).
  apply le_value_le_bytes.
Qed.

Lemma object_of_length x : (16 ≤ length (object_of x))%nat.
Proof.
  assert (∀ h, length (hdr_bytes h) = 16%nat) as Hh.
  { intros h. pose proof (len_hdr_bytes h) as H. unfold len, HDR_SIZE in H. lia. }
  unfold object_of. rewrite length_app, Hh. lia.
Qed.

(** A dequeue of record [j] and the release of its sid. *)
Lemma dequeue_release_step w0 w items j t :
  filled w0 w items → reading w0 w items j → j < len items → len items < 2 ^ 31 →
  Forall fits items →
  ∃ x w1 w2 p,
    items !! Z.to_nat j = Some x ∧
    call (bplib_store_file_dequeue t) w = (w1, BP_SUCCESS) ∧
    w_object w1 = Some p ∧ w_heap w1 !! p = Some (stamp_sid (1 + j) (object_of x)) ∧
    call (bplib_store_file_release (1 + j)) w1 = (w2, BP_SUCCESS) ∧
    filled w0 w2 items ∧ reading w0 w2 items (j + 1).
Proof.
  intros [Hio Hwerr Hwid Hdc Hsvc Hrt Hcl Hst Hfiles]
         [Hrid Hrange Hrerr Hrs Hcache Hunl Hlive Hdist] Hj Hn Hfits.
  assert (is_Some (items !! Z.to_nat j)) as [x Hx].
  { apply lookup_lt_is_Some. unfold len in *. lia. }
  assert (fits x) as Hfit by (eapply Forall_lookup_1; eauto).
  destruct (object_size_fits x Hfit) as [Hosz Hlt].
  exists x.
  pose proof (Z.div_mod j 256 ltac:(lia)) as Hdm.
  pose proof (Z.mod_pos_bound j 256 ltac:(lia)) as Hmod.
  assert (0 ≤ j / 256) as Hk by (apply Z.div_pos; lia).
  set (name := dat_name (i32 (service_id (w_fs w0))) (root (w_fs w0)) (j / 256)).
  assert (root (w_fs w) = root (w_fs w0)) as Hroot by (unfold root; by rewrite Hrt).
  assert (GET_DATAID (1 + j) = j) as Hdid by (apply GET_DATAID_next; lia).
  assert (bucket_of (w_fs w) j = name) as Hname.
  { unfold bucket_of, name. rewrite Hsvc, Hroot, GET_FILEID_div by lia. done. }
  assert (file_of w name = concat (item_bytes <$> bucket (j / 256) items)) as Hfile
    by (by apply Hfiles).
  (* the lock and the test for data *)
  unfold call at 1, bplib_store_file_dequeue, bplib_os_lock.
  rewrite bind_get, bind_emit, bind_get.
  set (wl := with_log _ w).
  assert (w_fs wl = w_fs w ∧ w_io wl = [] ∧ w_heap wl = w_heap w ∧
          w_streams wl = w_streams w ∧ w_disk wl = w_disk w) as (Hfl & Hiol & Hhl & Hsl & Hdl)
    by done.
  clearbody wl. rewrite Hfl, Hrid, Hdid.
  rewrite (bind_val _ _ _ _ _ (dequeue_wait_skip _ _ wl ltac:(rewrite Hfl, Hrid, Hwid; lia))).
  (* the stream *)
  destruct (dequeue_open_run (lock (w_fs w)) j (read_pos items j) wl)
    as (fd & w1 & Hopen & Hfs1 & Hio1 & Hh1 & Hf1 & Hs1 & Ho1 & Hwas).
  { done. }
  { by rewrite Hfl. }
  { unfold reads_at. rewrite Hfl, Hname. destruct (read_fd (w_fs w)) as [f|] eqn:Hrf.
    - unfold reads_from in *. rewrite Hsl. by destruct Hrs.
    - split.
      + unfold read_pos. rewrite Hrs. done.
      + rewrite Hdl. destruct (w_disk w !! name) eqn:Hl; [eauto|]. exfalso.
        unfold file_of in Hfile. rewrite Hl in Hfile. simpl in Hfile.
        rewrite (bucket_file_split items j x) in Hfile by (done || lia).
        apply (f_equal length) in Hfile. rewrite !length_app, len_le_bytes in Hfile.
        simpl in Hfile. lia. }
  rewrite Hfl, Hname in Hs1. rewrite (bind_val _ _ _ _ _ Hopen).
  (* the record *)
  unfold dequeue_read. rewrite bind_assoc, bind_get, bind_assoc.
  assert (read_data_id (w_fs w1) = 1 + j) as Hrid1 by (by rewrite Hfs1, Hfl).
  rewrite Hrid1. rewrite (u64_small (1 + j)) by lia.
  destruct (read_object_run fd (1 + j) name (read_pos items j) (object_size x) (object_of x)
              (concat (item_bytes <$> take (Z.to_nat (j mod 256)) (bucket (j / 256) items)))
              (concat (item_bytes <$> drop (S (Z.to_nat (j mod 256))) (bucket (j / 256) items)))
              w1)
    as (w2 & Hread & Hfs2 & Hio2 & Hd2 & Hh2 & Hs2 & Ho2); [done|done| |done|done|done|].
  { rewrite Hf1. unfold file_of in *. rewrite Hdl, Hfile.
    apply bucket_file_split; [lia|done]. }
  set (p := fresh (dom (w_heap w1))) in *.
  rewrite (bind_val _ _ _ _ _ Hread). cbv beta iota. simpl negb. cbv iota. mrun.
  (* the cache *)
  assert (cache_index_of j (w_fs w2) = cache_index_of j (w_fs w)) as Hidx.
  { unfold cache_index_of. by rewrite Hfs2, Hfs1, Hfl. }
  set (idx := cache_index_of j (w_fs w)) in *.
  assert (Z.to_nat idx < length (cache (w_fs w)))%nat as Hin
    by (apply cache_index_in_range; [done|lia]).
  assert (cache (w_fs w2) = cache (w_fs w)) as Hc2.
  { unfold cache. by rewrite Hfs2, Hfs1, Hfl. }
  destruct (lookup_lt_is_Some_2 _ _ Hin) as [e He].
  assert (cache_at (w_fs w2) idx = e) as Hat.
  { unfold cache_at. rewrite Hc2. by apply list_lookup_total_correct. }
  rewrite Hidx.
  destruct (install_in_cache_run (lock (w_fs w)) t idx j p w2)
    as (w3 & Hinst & Hfs3 & Hio3 & Hd3 & Hs3 & Hh3).
  { rewrite Hat. by eapply Hunl. }
  rewrite (bind_val _ _ _ _ _ Hinst). rewrite Hat in Hh3.
  (* the read position *)
  destruct (dequeue_finish_run (lock (w_fs w)) fd p w3)
    as (w4 & Hfin & Hfs4 & Hio4 & Hd4 & Hh4 & Hobj4 & Hs4).
  assert (read_data_id (w_fs w3) = 1 + j) as Hrid3 by (by rewrite Hfs3; simpl; rewrite Hfs2).
  rewrite Hrid3 in Hfs4, Hs4. rewrite Hfin.
  (* the heap after the dequeue *)
  assert (w_heap w1 = w_heap w) as Hheap1 by congruence.
  assert (w_heap w !! p = None) as Hfresh.
  { rewrite <- Hheap1. apply not_elem_of_dom, is_fresh. }
  assert (w_heap w4 !! p = Some (stamp_sid (1 + j) (object_of x))) as Hp.
  { rewrite Hh4, Hh3. destruct (mem_ptr e) as [old|] eqn:Hold.
    - rewrite lookup_delete_ne, Hh2, lookup_insert_eq; [done|].
      intros ->. destruct (Hlive _ _ _ He Hold) as [? Hq]. congruence.
    - by rewrite Hh2, lookup_insert_eq. }
  (* the release *)
  set (e1 := {| mem_ptr := Some p; mem_locked := FILE_MEM_LOCKED; mem_data_id := j |}).
  assert (cache (w_fs w4) = <[Z.to_nat idx := e1]> (cache (w_fs w))) as Hc4.
  { rewrite Hfs4. unfold cache at 1. simpl.
    transitivity (cache (w_fs w3)).
    { unfold cache. by destruct (_ =? 0). }
    rewrite Hfs3. unfold cache at 1, set_cache_at. simpl. by rewrite Hc2. }
  assert (cache_size (w_fs w4) = cache_size (w_fs w)) as Hcs4.
  { rewrite Hfs4. simpl.
    transitivity (cache_size (w_fs w3)); [by destruct (_ =? 0)|].
    rewrite Hfs3. simpl. by rewrite Hfs2, Hfs1, Hfl. }
  assert (cache_index_of (GET_DATAID (1 + j)) (w_fs w4) = idx) as Hidx4.
  { rewrite Hdid. unfold idx, cache_index_of. by rewrite Hcs4. }
  assert (cache_at (w_fs w4) idx = e1) as Hat4.
  { unfold cache_at. rewrite Hc4. by apply list_lookup_total_insert_eq. }
  destruct (release_run (1 + j) w4) as (w5 & Hrel & Hfs5 & Hio5 & Hd5 & Hh5 & Hs5 & Hobj5).
  { by rewrite Hidx4, Hat4. }
  { by rewrite Hidx4, Hat4. }
  rewrite Hidx4, Hat4 in Hfs5. simpl in Hfs5.
  set (e2 := {| mem_ptr := Some p; mem_locked := FILE_MEM_AVAIABLE; mem_data_id := j |}) in *.
  exists w4, w5, p. split_and!; [done|done|done|done|done| |].
  - (* the writing side *)
    assert (∀ {X} (π : file_store_t → X),
              (∀ v fs, π (set_read_fd v fs) = π fs) →
              (∀ v fs, π (set_read_data_id v fs) = π fs) →
              (∀ v fs, π (set_read_error v fs) = π fs) →
              (∀ v fs, π (set_data_cache v fs) = π fs) →
              π (w_fs w5) = π (w_fs w)) as Hsame.
    { intros X π P1 P2 P3 P4. rewrite Hfs5, Hfs4. unfold set_cache_at. rewrite P4, P2, P3.
      destruct (_ =? 0); rewrite ?P1, Hfs3; unfold set_cache_at; rewrite P4, Hfs2, Hfs1, P1, Hfl;
        done. }
    assert (w_disk w5 = w_disk w1) as Hdisk5 by congruence.
    assert (∀ n, file_of w5 n = file_of w n) as Hfiles5.
    { intros n. transitivity (file_of w1 n); [unfold file_of; by rewrite Hdisk5|].
      rewrite Hf1. unfold file_of. by rewrite Hdl. }
    assert (write_fd (w_fs w5) = write_fd (w_fs w)) as H7 by (by apply Hsame).
    split.
    + congruence.
    + by rewrite (Hsame _ write_error).
    + by rewrite (Hsame _ write_data_id).
    + by rewrite (Hsame _ data_count).
    + by rewrite (Hsame _ service_id).
    + by rewrite (Hsame _ file_root).
    + by rewrite H7.
    + unfold writes_to in *. rewrite H7.
      destruct (write_fd (w_fs w)) as [wfd|]; [|done].
      destruct Hst as (s & Hs & Hsn & Hsm). exists s. split; [|done].
      assert (wfd ≠ fd) as Hne.
      { intros ->. rewrite <- Hsl in Hs. apply Hwas in Hs. congruence. }
      rewrite Hs5, Hs4.
      assert (w_streams w3 !! wfd = Some s) as Hs3'.
      { rewrite Hs3, (Ho2 _ Hne), (Ho1 _ Hne), Hsl. done. }
      destruct (_ =? 0); [by rewrite lookup_delete_ne|done].
    + intros k Hk'. rewrite Hfiles5. by apply Hfiles.
  - (* the reading side *)
    assert (cache (w_fs w5) = <[Z.to_nat idx := e2]> (cache (w_fs w))) as Hc5.
    { rewrite Hfs5. unfold cache at 1, set_cache_at. simpl. rewrite Hc4.
      apply list_insert_insert_eq. }
    assert (w_heap w5 = match mem_ptr e with
                        | Some old => delete old (<[p := stamp_sid (1 + j) (object_of x)]> (w_heap w))
                        | None => <[p := stamp_sid (1 + j) (object_of x)]> (w_heap w)
                        end) as Hheap5.
    { rewrite Hh5, Hh4, Hh3, Hh2, Hheap1. done. }
    assert (w_heap w5 !! p = Some (stamp_sid (1 + j) (object_of x))) as Hp5 by congruence.
    assert (∀ q, q ≠ p → is_Some (w_heap w !! q) → mem_ptr e ≠ Some q →
                 is_Some (w_heap w5 !! q)) as Hstill.
    { intros q Hqp Hq Hqe. rewrite Hheap5. destruct (mem_ptr e) as [old|].
      - rewrite lookup_delete_ne by congruence. by rewrite lookup_insert_ne.
      - by rewrite lookup_insert_ne. }
    assert (∀ i e' q, cache (w_fs w) !! i = Some e' → mem_ptr e' = Some q → q ≠ p) as Hold.
    { intros i e' q Hi Hq ->. destruct (Hlive _ _ _ Hi Hq) as [? ?]. congruence. }
    split.
    + rewrite Hfs5. simpl. rewrite Hfs4. simpl. rewrite u64_small by lia. lia.
    + lia.
    + rewrite Hfs5. simpl. by rewrite Hfs4.
    + rewrite Hfs5. simpl. rewrite Hfs4. simpl.
      replace (1 + j) with (j + 1) by lia.
      destruct (Z.eqb_spec ((j + 1) mod FILE_DATA_COUNT) 0) as [Hz|Hz]; simpl.
      * done.
      * rewrite Hfs3. simpl. rewrite Hfs2, Hfs1. simpl.
        destruct (read_pos_next items j x ltac:(lia) Hx Hz) as [Hk1 Hp1].
        split; [|done]. rewrite Hk1, Hp1, Hosz. fold name.
        unfold reads_from in *. rewrite Hs5, Hs4.
        replace (1 + j) with (j + 1) by lia.
        apply Z.eqb_neq in Hz. rewrite Hz. by rewrite Hs3.
    + destruct Hcache as [Hsz Hlen]. split.
      * rewrite Hfs5. simpl. by rewrite Hcs4.
      * unfold len in *. rewrite Hc5, length_insert, Hfs5. simpl. by rewrite Hcs4.
    + intros i e' Hi. rewrite Hc5 in Hi.
      destruct (decide (i = Z.to_nat idx)) as [->|Hne].
      * rewrite list_lookup_insert_eq in Hi by done. by injection Hi as <-.
      * rewrite list_lookup_insert_ne in Hi by done. by eapply Hunl.
    + intros i e' q Hi Hq. rewrite Hc5 in Hi.
      destruct (decide (i = Z.to_nat idx)) as [->|Hne].
      * rewrite list_lookup_insert_eq in Hi by done. injection Hi as <-.
        injection Hq as <-. eauto.
      * rewrite list_lookup_insert_ne in Hi by done.
        apply Hstill; [by eapply Hold|by eapply Hlive|].
        intros Hqe. apply Hne. by eapply (Hdist i (Z.to_nat idx) e' e q).
    + intros i i' e' e'' q Hi Hi' Hq Hq'. rewrite Hc5 in Hi, Hi'.
      destruct (decide (i = Z.to_nat idx)) as [->|Hne];
        destruct (decide (i' = Z.to_nat idx)) as [->|Hne']; [done| | |].
      * rewrite list_lookup_insert_eq in Hi by done. injection Hi as <-. injection Hq as <-.
        rewrite list_lookup_insert_ne in Hi' by done. by destruct (Hold _ _ _ Hi' Hq').
      * rewrite list_lookup_insert_eq in Hi' by done. injection Hi' as <-. injection Hq' as <-.
        rewrite list_lookup_insert_ne in Hi by done. by destruct (Hold _ _ _ Hi Hq).
      * rewrite list_lookup_insert_ne in Hi, Hi' by done. by eapply Hdist.
Qed.

(** An enqueue leaves the reading side as it is. *)
Lemma enqueue_step_reading w0 w items j x :
  filled w0 w items → reading w0 w items j → fits x → len items + 1 < 2 ^ 31 →
  reading w0 (call (bplib_store_file_enqueue x.1.1 x.1.2 x.2 0) w).1 (items ++ [x]) j.
Proof.
  intros [Hio Hwerr Hwid Hdc Hsvc Hrt Hcl Hst Hfiles]
         [Hrid Hrange Hrerr Hrs Hcache Hunl Hlive Hdist] Hfit Hlen.
  assert (0 ≤ len items) as Hpos by (unfold len; lia).
  assert (root (w_fs w) = root (w_fs w0)) as Hroot by (unfold root; by rewrite Hrt).
  assert (bucket_of (w_fs w) (GET_DATAID (write_data_id (w_fs w))) =
          bucket_of (w_fs w0) (len items)) as Hname.
  { unfold bucket_of. rewrite Hsvc, Hroot, Hwid, GET_DATAID_next by lia. done. }
  pose proof (enqueue_kept x.1.1 x.1.2 x.2 0 w Hio Hwerr ltac:(by rewrite Hname) Hfit)
    as [Hheap Hstreams].
  pose proof (enqueue_read_view x.1.1 x.1.2 x.2 0) as Hview.
  unfold call in *.
  destruct (bplib_store_file_enqueue x.1.1 x.1.2 x.2 0 w) as [w' r] eqn:Hrun.
  apply Hview in Hrun as [[Hv _] _]. unfold same_on, read_view in Hv.
  assert (w_fs (match r with Val e | Ret e => (w', e) end).1 = w_fs w' ∧
          w_heap (match r with Val e | Ret e => (w', e) end).1 = w_heap w' ∧
          w_streams (match r with Val e | Ret e => (w', e) end).1 = w_streams w')
    as (Hf & Hh & Hs) by (by destruct r).
  rewrite Hh in Hheap. rewrite Hs in Hstreams.
  set (w'' := (match r with Val e | Ret e => (w', e) end).1) in *. clearbody w''.
  injection Hv as V1 V2 V3 V4 V5.
  assert (cache (w_fs w'') = cache (w_fs w)) as Hc by (unfold cache; by rewrite Hf, V4).
  assert (len (items ++ [x]) = len items + 1) as Hlen'.
  { unfold len. rewrite length_app. simpl. lia. }
  split.
  - by rewrite Hf, V2.
  - lia.
  - by rewrite Hf, V3.
  - rewrite Hf, V1. destruct (read_fd (w_fs w)) as [fd|]; [|done].
    destruct Hrs as [Hrs Hnz]. split; [|done].
    rewrite read_pos_snoc by done. unfold reads_from in *.
    rewrite Hs. by apply Hstreams.
  - destruct Hcache as [Hsz Hl]. split; [by rewrite Hf, V5|].
    unfold len in *. by rewrite Hc, Hf, V5.
  - intros i e. rewrite Hc. apply Hunl.
  - intros i e q. rewrite Hc, Hh, Hheap. apply Hlive.
  - intros i i' e e' q. rewrite Hc. apply Hdist.
Qed.

(** The invariants only look at the store record, the oracle of stdio,
    the files, the heap and the streams. *)
Lemma filled_reading_same w0 w w' items j :
  w_fs w' = w_fs w → w_io w' = w_io w → w_disk w' = w_disk w →
  w_heap w' = w_heap w → w_streams w' = w_streams w →
  filled w0 w items → reading w0 w items j → filled w0 w' items ∧ reading w0 w' items j.
Proof.
  intros Hf Hi Hd Hh Hs [] []. split; split;
    unfold writes_to, appends_to, reads_from, file_of in *; rewrite ?Hf, ?Hi, ?Hd, ?Hh, ?Hs;
    done.
Qed.

(** ** The store as a queue *)

(** A client that enqueues, and that releases each object right after it
    has dequeued it, under the sid found in the object. *)
Inductive qop :=
| Enq (x : item)
| DeqRel (timeout : Z).

(** What the client sees of a call: the status of an enqueue; the object
    handed out by a dequeue and the status of its release, or nothing when
    the dequeue did not succeed. *)
Inductive qout :=
| EnqOut (r : bp_status)
| DeqOut (o : option (list byte * bp_status)).

Definition dequeue_release (timeout : Z) (w : world) : world * qout :=
  let '(w1, r) := call (bplib_store_file_dequeue timeout) w in
  if bool_decide (r = BP_SUCCESS) then
    let obj := object_at w1 (w_object w1) in
    let '(w2, r2) := call (bplib_store_file_release (object_sid obj)) w1 in
    (w2, DeqOut (Some (obj, r2)))
  else (w1, DeqOut None).

Fixpoint queue_run (ops : list qop) (w : world) : world * list qout :=
  match ops with
  | [] => (w, [])
  | Enq x :: ops' =>
      let '(w1, r) := call (bplib_store_file_enqueue x.1.1 x.1.2 x.2 0) w in
      let '(w2, outs) := queue_run ops' w1 in
      (w2, EnqOut r :: outs)
  | DeqRel t :: ops' =>
      let '(w1, o) := dequeue_release t w in
      let '(w2, outs) := queue_run ops' w1 in
      (w2, o :: outs)
  end.

(** The same client on a queue in memory: [pending] holds the records not
    yet dequeued, [sid] is the sid of the next one. *)
Fixpoint fifo (ops : list qop) (pending : list item) (sid : Z) : list qout :=
  match ops with
  | [] => []
  | Enq x :: ops' => EnqOut BP_SUCCESS :: fifo ops' (pending ++ [x]) sid
  | DeqRel _ :: ops' =>
      match pending with
      | [] => DeqOut None :: fifo ops' [] sid
      | x :: rest =>
          DeqOut (Some (stamp_sid sid (object_of x), BP_SUCCESS)) :: fifo ops' rest (sid + 1)
      end
  end.

Definition op_fits (op : qop) : Prop :=
  match op with
  | Enq x => fits x
  | DeqRel _ => True
  end.

Lemma queue_run_fifo w0 ops items j w :
  filled w0 w items → reading w0 w items j → Forall fits items → Forall op_fits ops →
  len items + len ops < 2 ^ 31 →
  (queue_run ops w).2 = fifo ops (drop (Z.to_nat j) items) (1 + j).
Proof.
  revert items j w.
  induction ops as [|op ops IH]; intros items j w Hf Hr Hitems Hfits Hlen; [done|].
  apply Forall_cons in Hfits as [Hfit Hfits].
  assert (len (op :: ops) = len ops + 1) as Hl by (unfold len; simpl; lia).
  assert (0 ≤ len ops) by (unfold len; lia).
  pose proof (rd_range _ _ _ _ Hr) as Hj.
  destruct op as [x|t]; simpl.
  - destruct (filled_step w0 w items x Hf Hfit ltac:(lia)) as (w1 & Hcall & Hf1).
    pose proof (enqueue_step_reading w0 w items j x Hf Hr Hfit ltac:(lia)) as Hr1.
    rewrite Hcall in Hr1 |- *. simpl in Hr1.
    specialize (IH (items ++ [x]) j w1 Hf1 Hr1).
    destruct (queue_run ops w1) as [w2 outs]. simpl in *. rewrite IH.
    + f_equal. f_equal. rewrite drop_app_le; [done|]. unfold len in *. lia.
    + apply Forall_app. split; [done|]. by apply Forall_singleton.
    + done.
    + unfold len in *. rewrite length_app. simpl. lia.
  - unfold dequeue_release.
    destruct (decide (j = len items)) as [->|Hne].
    + destruct (dequeue_empty_run t w) as (w1 & r & Hcall & Hr' & E1 & E2 & E3 & E4 & E5).
      { rewrite (rd_id _ _ _ _ Hr), (filled_write_id _ _ _ Hf). done. }
      rewrite Hcall, bool_decide_eq_false_2 by done.
      destruct (filled_reading_same w0 w w1 items (len items) E1 E2 E3 E4 E5 Hf Hr) as [Hf1 Hr1].
      specialize (IH items (len items) w1 Hf1 Hr1 Hitems Hfits ltac:(lia)).
      destruct (queue_run ops w1) as [w2 outs]. simpl in *. rewrite IH.
      rewrite drop_ge by (unfold len; lia). done.
    + destruct (dequeue_release_step w0 w items j t Hf Hr ltac:(lia) ltac:(lia) Hitems)
        as (x & w1 & w2 & p & Hx & Hdeq & Hobj & Hp & Hrel & Hf2 & Hr2).
      rewrite Hdeq, bool_decide_eq_true_2 by done.
      assert (object_at w1 (w_object w1) = stamp_sid (1 + j) (object_of x)) as Hobj1.
      { unfold object_at. by rewrite Hobj, Hp. }
      rewrite Hobj1.
      rewrite object_sid_stamp.
      2:{ pose proof (object_of_length x). lia. }
      rewrite Z.mod_small by lia. rewrite Hrel.
      specialize (IH items (j + 1) w2 Hf2 Hr2 Hitems Hfits ltac:(lia)).
      destruct (queue_run ops w2) as [w3 outs]. simpl in *. rewrite IH.
      rewrite (drop_S _ x _ Hx). replace (Z.to_nat (j + 1)) with (S (Z.to_nat j)) by lia.
      replace (1 + (j + 1)) with (1 + j + 1) by lia. done.
Qed.

(** X13.  The file store is a first-in first-out queue.  Take a store as
    [bplib_store_file_create] hands it out, in a directory without bucket
    files, with no stdio call failing, and a client that enqueues records
    and dequeues them in any order of calls, releasing each object right
    after it got it under the sid it finds in the object.  Then every
    enqueue returns [BP_SUCCESS]; every dequeue on a queue that is not
    empty hands out the oldest record not yet dequeued: the object is
    the header followed by the two buffers given to the enqueue, stamped
    with the next sid (1, 2, ...), and its release returns [BP_SUCCESS];
    and every dequeue on an empty queue fails and hands out nothing.
    This holds across the bucket files, whatever the size of the cache. *)
Theorem file_store_is_a_fifo (w0 : world) (attr : option bp_file_attr_t) (svc lk : Z)
    (ops : list qop) :
  w_fs w0 = new_store attr svc lk → 0 < cache_size_of attr < 2 ^ 31 →
  w_io w0 = [] →
  (∀ k, 0 ≤ k → file_of w0 (dat_name (i32 (u64 svc)) (root_of attr) k) = []) →
  Forall op_fits ops → len ops < 2 ^ 31 →
  (queue_run ops w0).2 = fifo ops [] 1.
Proof.
  intros Hfs Hcsz Hio Hfiles Hfits Hlen.
  apply (queue_run_fifo w0 ops [] 0 w0); [| |done|done|done].
  - split; rewrite ?Hfs; try done.
    + unfold writes_to. by rewrite Hfs.
    + intros k Hk. unfold bucket. rewrite drop_nil, take_nil. by apply Hfiles.
  - split; rewrite ?Hfs; try done.
    + split; [done|]. unfold cache, len. simpl. rewrite length_replicate. lia.
    + intros i e. unfold cache. simpl. intros [-> _]%lookup_replicate. done.
    + intros i e q. unfold cache. simpl. intros [-> _]%lookup_replicate. done.
    + intros i i' e e' q. unfold cache. simpl. intros [-> _]%lookup_replicate. done.
Qed.

Lemma file_store_is_a_fifo_witness :
  let ops := [Enq (0, [97], []); DeqRel 0; DeqRel 0; Enq (7, [98], [99]); Enq (0, [], []);
              DeqRel 0] in
  (queue_run ops (fresh_store 4 [] [])).2 = fifo ops [] 1.
Proof.
  apply (file_store_is_a_fifo (fresh_store 4 [] [])
           (Some {| root_path := None; attr_cache_size := 4 |}) 0 0).
  - vm_compute. reflexivity.
  - vm_compute. split; reflexivity.
  - reflexivity.
  - intros k _. apply fresh_store_no_files.
  - repeat constructor; vm_compute; reflexivity.
  - vm_compute. reflexivity.
Defined.

(** ** The relinquish table counts what it marks *)

(** The number of slots of the table that are marked as freed. *)
Definition marked (t : free_table_t) : Z := len (filter (λ b, b ≠ 0) (freed t)).

(** The table has its 256 flags and [free_cnt] is the number of flags set. *)
Definition table_ok (t : free_table_t) : Prop :=
  length (freed t) = 256%nat ∧ free_cnt t = marked t.

Lemma marked_le l : len (filter (λ b : byte, b ≠ 0) l) ≤ len l.
Proof. unfold len. pose proof (length_filter (λ b : byte, b ≠ 0) l). lia. Qed.

Lemma marked_insert (l : list byte) (i : nat) :
  (i < length l)%nat → l !!! i = 0 →
  len (filter (λ b : byte, b ≠ 0) (<[i := 1]> l)) = len (filter (λ b : byte, b ≠ 0) l) + 1 ∧
  len (filter (λ b : byte, b ≠ 0) l) < len l.
Proof.
  intros Hi H0.
  pose proof (list_lookup_lookup_total_lt l i Hi) as Hl. rewrite H0 in Hl.
  rewrite (insert_take_drop l i 1 Hi).
  assert (∀ l', l' = l → len (filter (λ b : byte, b ≠ 0) l') =
            len (filter (λ b : byte, b ≠ 0) (take i l ++ 0 :: drop (S i) l)) ∧
            len l' = len (take i l ++ 0 :: drop (S i) l)) as Hsplit.
  { intros l' ->. by rewrite (take_drop_middle l i 0 Hl). }
  destruct (Hsplit l eq_refl) as [-> ->]. clear Hsplit.
  rewrite !filter_app, !filter_cons. unfold len.
  destruct (decide (1 ≠ 0)) as [_|?]; [|lia].
  destruct (decide (0 ≠ 0)) as [?|_]; [lia|].
  rewrite !length_app. simpl.
  pose proof (length_filter (λ b : byte, b ≠ 0) (take i l)).
  pose proof (length_filter (λ b : byte, b ≠ 0) (drop (S i) l)).
  lia.
Qed.

(** X14: while the table in memory is the one of the bucket of [sid] and
    counts its own flags, a call of relinquish leaves it so; either nothing
    of the table and of the count of stored objects changes, or one more
    slot is marked and the count of stored objects goes down by one. *)
Theorem relinquish_counts_marked_slots (w : world) (sid : Z) :
  GET_FILEID (GET_DATAID sid) = GET_FILEID (GET_DATAID (relinquish_data_id (w_fs w))) →
  table_ok (relinquish_table (w_fs w)) →
  let t := relinquish_table (w_fs w) in
  let w' := (call (bplib_store_file_relinquish sid) w).1 in
  let t' := relinquish_table (w_fs w') in
  table_ok t' ∧
  ((t' = t ∧ data_count (w_fs w') = data_count (w_fs w)) ∨
   (marked t' = marked t + 1 ∧ data_count (w_fs w') = i32 (data_count (w_fs w) - 1))).
Proof.
  intros Hsame [Hlen Hcnt] t w' t'.
  destruct (relinquish_same_bucket sid w Hsame) as (w1 & _ & Hfs1 & _ & _ & Hcall).
  assert (relinquish_table (w_fs w1) = t ∧ data_count (w_fs w1) = data_count (w_fs w))
    as [Ht1 Hdc1].
  { unfold t. split.
    - change (relinquish_table (but_cache (w_fs w1)) = relinquish_table (but_cache (w_fs w))).
      by rewrite Hfs1.
    - change (data_count (but_cache (w_fs w1)) = data_count (but_cache (w_fs w))).
      by rewrite Hfs1. }
  pose proof (GET_DATAOFFSET_range (GET_DATAID sid)) as Hoff.
  set (off := GET_DATAOFFSET (GET_DATAID sid)) in *.
  assert (∀ w2 r, relinquish_mark (lock (w_fs w1)) (GET_FILEID (GET_DATAID sid)) off w1 = (w2, r) →
            w_fs w2 = w_fs w1 ∨ w_fs w2 = mark_slot off (w_fs w1) ∧ freed t !!! Z.to_nat off = 0)
    as Hmark.
  { intros w2 r. rewrite relinquish_mark_run, Ht1.
    destruct (Z.eqb_spec (freed t !!! Z.to_nat off) 0) as [H0|H0].
    - destruct (_ =? FILE_DATA_COUNT).
      + intros H. apply relinquish_delete_fs in H. right. done.
      + intros [= <- _]. right. done.
    - intros [= <- _]. by left. }
  assert (w_fs w' = w_fs w1 ∨ w_fs w' = mark_slot off (w_fs w1) ∧ freed t !!! Z.to_nat off = 0)
    as Hw'.
  { unfold w'. rewrite Hcall.
    destruct (relinquish_mark _ _ off w1) as [w2 r] eqn:Hm.
    specialize (Hmark w2 r eq_refl). destruct r; exact Hmark. }
  unfold t'. destruct Hw' as [->|[-> H0]].
  - rewrite Ht1, Hdc1. split; [by split|]. by left.
  - unfold mark_slot. simpl. rewrite Ht1, Hdc1.
    destruct (marked_insert (freed t) (Z.to_nat off)) as [Hins Hlt]; [|done|].
    { unfold t. rewrite Hlen. lia. }
    assert (free_cnt t = len (filter (λ b : byte, b ≠ 0) (freed t))) as Hc by exact Hcnt.
    pose proof (marked_le (freed t)) as Hle.
    assert (len (freed t) = 256) as Hl256 by (unfold len, t; rewrite Hlen; done).
    assert (i32 (free_cnt t + 1) = free_cnt t + 1) as ->.
    { apply i32_small. clear -Hc Hle Hl256. unfold len in *. lia. }
    unfold table_ok, marked. simpl. rewrite length_insert, Hins.
    split; [split; [exact Hlen|unfold len in *; lia]|]. right. done.
Qed.

Lemma relinquish_counts_marked_slots_witness :
  let w := two_enqueued in
  let t := relinquish_table (w_fs w) in
  let w' := (call (bplib_store_file_relinquish 2) w).1 in
  let t' := relinquish_table (w_fs w') in
  table_ok t' ∧
  ((t' = t ∧ data_count (w_fs w') = data_count (w_fs w)) ∨
   (marked t' = marked t + 1 ∧ data_count (w_fs w') = i32 (data_count (w_fs w) - 1))).
Proof.
  apply (relinquish_counts_marked_slots two_enqueued 2).
  - by vm_compute.
  - split; by vm_compute.
Defined.

(** ** Relinquish and the cache *)

(** The heap and the cache table are as they were. *)
Definition held (w w' : world) : Prop :=
  w_heap w' = w_heap w ∧ data_cache (w_fs w') = data_cache (w_fs w).

Global Instance held_preorder : PreOrder held.
Proof.
  split.
  - intros w. by split.
  - intros x y z [H1 S1] [H2 S2]. split; congruence.
Qed.

Lemma held_prim {A} (m : M A) :
  (∀ w, w_heap (m w).1 = w_heap w ∧ w_fs (m w).1 = w_fs w) → pres held any_code m.
Proof.
  intros Hm w w' r H. destruct (Hm w) as [Hh Hf]. rewrite H in Hh, Hf. simpl in *.
  split; [|by destruct r]. split; [done|by rewrite Hf].
Qed.

Lemma fopen_held name mode : pres held any_code (fopen name mode).
Proof.
  apply held_prim. intros w. unfold fopen. rewrite bind_emit, bind_next_io. unfold act.
  repeat case_match; done.
Qed.

Lemma fclose_held fd : pres held any_code (fclose fd).
Proof. apply held_prim. intros w. unfold fclose. rewrite bind_emit. done. Qed.

Lemma fread_held fd n : pres held any_code (fread fd n).
Proof. apply held_prim. intros w. unfold fread. rewrite bind_next_io. done. Qed.

Lemma fwrite_held fd data : pres held any_code (fwrite fd data).
Proof.
  apply held_prim. intros w. unfold fwrite. rewrite bind_next_io. unfold act.
  repeat case_match; done.
Qed.

Lemma remove_held name : pres held any_code (remove name).
Proof.
  apply held_prim. intros w. unfold remove. rewrite bind_emit, bind_next_io. unfold act.
  repeat case_match; done.
Qed.

Lemma emit_held ev : pres held any_code (emit ev).
Proof. apply held_prim. done. Qed.

Lemma bplog_held e : pres held any_code (bplog e).
Proof. apply held_prim. done. Qed.

Ltac held_go :=
  repeat lazymatch goal with
  | |- pres _ _ (mbind _ _) => apply pres_bind; [|intros ?]
  | |- pres _ _ (mret _) => apply pres_ret
  | |- pres _ _ (return_ _) => apply pres_return; done
  | |- pres _ _ (get _) => apply pres_get
  | |- pres _ _ (put _) => apply pres_put; intros; split; reflexivity
  | |- pres _ _ (bplog _) => apply bplog_held
  | |- pres _ _ (bplib_os_unlock _) => apply emit_held
  | |- pres _ _ (fopen _ _) => apply fopen_held
  | |- pres _ _ (fclose _) => apply fclose_held
  | |- pres _ _ (fread _ _) => apply fread_held
  | |- pres _ _ (fwrite _ _) => apply fwrite_held
  | |- pres _ _ (remove _) => apply remove_held
  | |- pres _ _ (match ?x with _ => _ end) => destruct x
  end.

(** Loading the table, marking the slot and deleting the files leave the
    heap and the cache alone. *)
Lemma relinquish_load_table_held lk sid fid prev :
  pres held any_code (relinquish_load_table lk sid fid prev).
Proof. unfold relinquish_load_table, open_tbl_file. held_go. Qed.

Lemma relinquish_mark_held lk fid off : pres held any_code (relinquish_mark lk fid off).
Proof. unfold relinquish_mark, delete_tbl_file, delete_dat_file. held_go. Qed.

(** The entry of a vacant cache slot. *)
Definition vacant_entry : data_cache_t :=
  {| mem_ptr := None; mem_locked := FILE_MEM_AVAIABLE; mem_data_id := BP_SID_VACANT |}.

(** "Clear Data Cache" as a function of the world. *)
Definition cleared (d : Z) (w : world) : world :=
  let i := cache_index_of d (w_fs w) in
  match mem_ptr (cache_at (w_fs w) i) with
  | Some p =>
      if mem_data_id (cache_at (w_fs w) i) =? d then
        with_fs (set_cache_at i vacant_entry)
          (with_heap (delete p) (with_log (w_log w ++ [EvFree p]) w))
      else w
  | None => w
  end.

Lemma relinquish_clear_cache_run d w : relinquish_clear_cache d w = (cleared d w, Val tt).
Proof.
  unfold relinquish_clear_cache, cleared. rewrite !bind_get.
  destruct (mem_ptr _) as [p|]; [|done].
  destruct (_ =? d); [|done]. unfold free. rewrite bind_assoc, bind_emit. done.
Qed.

Lemma call_world (m : M bp_status) w : (call m w).1 = (m w).1.
Proof. unfold call. by destruct (m w) as [? []]. Qed.

(** X15: relinquish of a sid whose object is in the cache frees the block
    and vacates the slot, whether the slot is locked or not and whatever
    becomes of the table and the files afterwards; otherwise the heap and
    the cache stay as they are. *)
Theorem relinquish_frees_resident_object (w : world) (sid : Z) :
  let d := GET_DATAID sid in
  let i := cache_index_of d (w_fs w) in
  let e := cache_at (w_fs w) i in
  let w' := (call (bplib_store_file_relinquish sid) w).1 in
  match mem_ptr e with
  | Some p =>
      if mem_data_id e =? d then
        w_heap w' = delete p (w_heap w) ∧
        data_cache (w_fs w') = Some (<[Z.to_nat i := vacant_entry]> (cache (w_fs w)))
      else w_heap w' = w_heap w ∧ data_cache (w_fs w') = data_cache (w_fs w)
  | None => w_heap w' = w_heap w ∧ data_cache (w_fs w') = data_cache (w_fs w)
  end.
Proof.
  intros d i e w'.
  set (w0 := with_log (w_log w ++ [EvLock (lock (w_fs w))]) w).
  assert (held (cleared d w0) w') as [Hh Hc].
  { unfold w'. rewrite call_world.
    unfold bplib_store_file_relinquish, relinquish_prepare, bplib_os_lock.
    mrun. fold w0 d.
    rewrite (bind_val _ _ _ _ _ (relinquish_clear_cache_run d w0)).
    match goal with |- held _ (?m _).1 =>
      assert (pres held any_code m) as Hp end.
    { apply pres_bind; [apply relinquish_load_table_held|intros ?].
      apply pres_bind; [apply pres_get|intros ?].
      apply pres_bind; [apply relinquish_mark_held|intros ?].
      held_go. }
    match goal with |- held _ (?m ?v).1 => destruct (m v) as [w3 r3] eqn:H3 end.
    by apply Hp in H3 as [H3 _]. }
  rewrite Hh, Hc. unfold cleared. fold i. change (w_fs w0) with (w_fs w). fold i e.
  destruct (mem_ptr e) as [p|]; [|done].
  destruct (mem_data_id e =? d); done.
Qed.

(** ** The relinquish table across buckets *)

Lemma fopen_write_run name w :
  w_io w = [] →
  ∃ fd w', fopen name ModeWrite w = (w', Val (Some fd)) ∧
    w_fs w' = w_fs w ∧ w_io w' = [] ∧
    w_streams w' !! fd = Some {| st_name := name; st_mode := ModeWrite; st_pos := 0 |} ∧
    file_of w' name = [] ∧ (∀ n, n ≠ name → file_of w' n = file_of w n).
Proof.
  intros Hio. unfold fopen. rewrite bind_emit, bind_next_io. unfold act. simpl.
  rewrite Hio. simpl.
  destruct (w_disk w !! name); eexists _, _; (split; [reflexivity|]); simpl;
    (split_and!; [done|done|by rewrite lookup_insert_eq
                 |unfold file_of; simpl; by rewrite lookup_insert_eq
                 |intros n Hn; unfold file_of; simpl; by rewrite lookup_insert_ne]).
Qed.

Lemma fwrite_write_run fd name data w :
  w_io w = [] →
  w_streams w !! fd = Some {| st_name := name; st_mode := ModeWrite; st_pos := 0 |} →
  file_of w name = [] →
  ∃ w', fwrite fd data w = (w', Val (len data)) ∧ w_fs w' = w_fs w ∧ w_io w' = [] ∧
        file_of w' name = data ∧ (∀ n, n ≠ name → file_of w' n = file_of w n).
Proof.
  intros Hio Hs Hf. unfold fwrite. rewrite bind_next_io. unfold act. simpl.
  rewrite Hio, Hs. simpl. unfold write_through. simpl.
  change (file_of (with_io [] w) name) with (file_of w name). rewrite Hf.
  rewrite drop_nil, app_nil_r.
  eexists. split; [reflexivity|]. case_bool_decide as Hd; simpl.
  - split_and!; try done. by rewrite Hd.
  - split_and!; try done.
    + unfold file_of. simpl. by rewrite lookup_insert_eq.
    + intros n Hn. unfold file_of. simpl. by rewrite lookup_insert_ne.
Qed.

Lemma bind_fclose {B} fd (k : unit → M B) w :
  (fclose fd ≫= k) w = k tt (with_streams (delete fd) (with_log (w_log w ++ [EvClose fd]) w)).
Proof. done. Qed.

Lemma table_bytes_length t : length (freed t) = 256%nat → len (table_bytes t) = 260.
Proof. intros H. unfold table_bytes, len. rewrite length_app, H. simpl. lia. Qed.

(** Reading back the image of a table gives the table. *)
Lemma table_of_bytes_table_bytes t :
  length (freed t) = 256%nat → - 2 ^ 31 ≤ free_cnt t < 2 ^ 31 →
  table_of_bytes (table_bytes t) = t.
Proof.
  intros Hl Hc. unfold table_of_bytes, table_bytes.
  rewrite take_app_length' by done. rewrite drop_app_length' by done.
  rewrite (take_ge (le_bytes 4 _)) by (simpl; lia).
  rewrite le_value_le_bytes.
  assert (i32 (free_cnt t mod 256 ^ Z.of_nat 4) = free_cnt t) as ->.
  { unfold i32. change (256 ^ Z.of_nat 4) with (2 ^ 32).
    rewrite Zplus_mod_idemp_l. rewrite Z.mod_small by lia. lia. }
  by destruct t.
Qed.

(** Only the first 260 bytes make the table. *)
Lemma table_of_bytes_prefix (data rest : list byte) :
  len data = 260 → table_of_bytes (data ++ rest) = table_of_bytes data.
Proof.
  intros Hl. unfold len in Hl. unfold table_of_bytes.
  rewrite take_app_le by lia. rewrite drop_app_le by lia.
  rewrite take_app_le by (rewrite length_drop; lia). done.
Qed.

Lemma table_of_bytes_length (bs : list byte) :
  260 ≤ len bs → length (freed (table_of_bytes bs)) = 256%nat.
Proof. intros H. unfold len in H. simpl. rewrite length_take. lia. Qed.

(** The store record apart from the three relinquish fields. *)
Definition but_relinquish (fs : file_store_t) : file_store_t :=
  set_relinquish_table zero_table (set_relinquish_fd None (set_relinquish_data_id 0 fs)).

(** "Check Need to Read New Relinquish Table" when the bucket changes and
    every stdio call does what it is asked. *)
Lemma relinquish_load_table_run lk sid fid prev w :
  w_io w = [] → relinquish_fd (w_fs w) = None → fid ≠ prev →
  length (freed (relinquish_table (w_fs w))) = 256%nat →
  let t := relinquish_table (w_fs w) in
  let svc := i32 (service_id (w_fs w)) in
  let old := tbl_name svc (root (w_fs w)) prev in
  let new := tbl_name svc (root (w_fs w)) fid in
  ∃ w' r, relinquish_load_table lk sid fid prev w = (w', r) ∧
    w_io w' = [] ∧ but_relinquish (w_fs w') = but_relinquish (w_fs w) ∧
    relinquish_fd (w_fs w') = None ∧ relinquish_data_id (w_fs w') = u64 sid ∧
    length (freed (relinquish_table (w_fs w'))) = 256%nat ∧
    (∀ n, n ≠ old → file_of w' n = file_of w n) ∧
    (0 < free_cnt t → file_of w' old = table_bytes t) ∧
    (260 ≤ len (file_of w new) →
       r = Val tt ∧ relinquish_table (w_fs w') = table_of_bytes (take 260 (file_of w new))).
Proof.
  intros Hio Hfd Hne Hlen t svc old new.
  unfold relinquish_load_table. destruct (Z.eqb_spec fid prev) as [?|_]; [done|]. simpl.
  rewrite bind_put, bind_get, bind_get, bind_get. simpl. fold t svc old new.
  set (w0 := with_fs (set_relinquish_data_id (u64 sid)) w).
  change (root (set_relinquish_data_id (u64 sid) (w_fs w))) with (root (w_fs w)).
  fold old new.
  assert (len (table_bytes t) = 260) as Htl by (by apply table_bytes_length).
  match goal with |- context [mbind ?k (if _ then ?s else _)] =>
    assert (∃ w3, (if 0 <? free_cnt t then s else mret tt) w0 = (w3, Val tt) ∧
              w_io w3 = [] ∧
              set_relinquish_fd None (w_fs w3) = set_relinquish_fd None (w_fs w0) ∧
              relinquish_fd (w_fs w3) = None ∧
              (∀ n, n ≠ old → file_of w3 n = file_of w n) ∧
              (0 < free_cnt t → file_of w3 old = table_bytes t)) as (w3 & Hsave & Hio3 & Hfs3 & Hfd3 & Hoth3 & Hold3)
  end.
  { destruct (Z.ltb_spec 0 (free_cnt t)) as [Hpos|Hpos].
    - rewrite bind_get. change (relinquish_fd (w_fs w0)) with (relinquish_fd (w_fs w)).
      rewrite Hfd. rewrite !bind_assoc.
      destruct (fopen_write_run old w0 Hio) as (fd & w1 & Hopen & Hfs1 & Hio1 & Hs1 & Hf1 & Ho1).
      rewrite (bind_val _ _ _ _ _ Hopen). cbv beta iota. mrun.
      set (w2 := with_fs (set_relinquish_fd (Some fd)) w1).
      destruct (fwrite_write_run fd old (table_bytes t) w2)
        as (w2' & Hwr & Hfs2 & Hio2 & Hf2 & Ho2); [done..|].
      rewrite (bind_val _ _ _ _ _ Hwr). rewrite bind_fclose. mrun.
      rewrite Htl. case_bool_decide as Hsz; [done|].
      eexists. split; [reflexivity|]. simpl. split_and!.
      + done.
      + rewrite Hfs2. unfold w2. simpl. rewrite Hfs1. done.
      + done.
      + intros n Hn. change (file_of w2' n = file_of w n). rewrite (Ho2 n Hn).
        change (file_of w1 n = file_of w0 n). by apply Ho1.
      + intros _. exact Hf2.
    - exists w0. split_and!; try done. lia. }
  rewrite (bind_val _ _ _ _ _ Hsave). clear Hsave.
  assert (relinquish_table (w_fs w3) = t) as Ht3.
  { change (relinquish_table (set_relinquish_fd None (w_fs w3)) = t). by rewrite Hfs3. }
  assert (∀ T, but_relinquish (set_relinquish_table T (set_relinquish_fd None (w_fs w3))) =
               but_relinquish (w_fs w) ∧
               relinquish_data_id (set_relinquish_fd None (w_fs w3)) = u64 sid) as Hview.
  { intros T.
    change (but_relinquish (set_relinquish_fd None (w_fs w3)) = but_relinquish (w_fs w) ∧
            relinquish_data_id (set_relinquish_fd None (w_fs w3)) = u64 sid).
    by rewrite Hfs3. }
  assert (new ≠ old) as Hno by (unfold new, old, tbl_name; congruence).
  destruct (w_disk w3 !! new) as [c|] eqn:Hc.
  - destruct (fopen_read_run new w3 Hio3) as (fd & w4 & Hopen & Hfs4 & Hio4 & _ & Hf4 & _ & Hs4 & _);
      [by eauto|].
    rewrite (bind_val _ _ _ _ _ Hopen). rewrite bind_put. cbv beta iota.
    set (w5 := with_fs (set_relinquish_fd (Some fd)) w4).
    destruct (fread_run fd SIZEOF_TABLE new 0 w5) as (w6 & Hrd & Hfs6 & Hio6 & _ & Hd6 & _);
      [done..|].
    rewrite (bind_val _ _ _ _ _ Hrd). rewrite bind_put, bind_fclose. mrun.
    assert (file_of w5 new = file_of w new) as Hnew.
    { change (file_of w4 new = file_of w new). rewrite Hf4. by apply Hoth3. }
    rewrite Hnew. simpl drop. change (Z.to_nat SIZEOF_TABLE) with 260%nat.
    change (drop (Z.to_nat 0) (file_of w new)) with (file_of w new).
    set (data := take 260 (file_of w new)).
    match goal with |- ∃ w' r, _ ?wF = _ ∧ _ => set (wf := wF) end.
    set (T := table_of_bytes (data ++ drop (length data) (table_bytes t))).
    assert (w_fs wf = set_relinquish_fd None (set_relinquish_table T (w_fs w3))) as HfsF.
    { unfold wf. cbn [w_fs with_fs with_streams with_log w_env]. rewrite Hfs6. unfold w5.
      cbn [w_fs with_fs]. rewrite Hfs4.
      change (relinquish_table (set_relinquish_fd (Some fd) (w_fs w3)))
        with (relinquish_table (w_fs w3)). rewrite Ht3. reflexivity. }
    assert (w_io wf = []) as HioF by exact Hio6.
    assert (∀ n, file_of wf n = file_of w3 n) as HfF.
    { intros n. change (file_of w6 n = file_of w3 n). unfold file_of. rewrite Hd6.
      apply (Hf4 n). }
    assert (length (freed T) = 256%nat) as HlT.
    { apply table_of_bytes_length. unfold len in *. rewrite length_app, length_drop.
      assert (length data ≤ 260)%nat by (unfold data; rewrite length_take; lia). lia. }
    assert (260 ≤ len (file_of w new) → len data = 260 ∧ T = table_of_bytes data) as Hfull.
    { intros Hge. assert (len data = 260) as Hd.
      { unfold data, len in *. rewrite length_take. lia. }
      split; [done|]. by apply table_of_bytes_prefix. }
    clearbody wf.
    case_bool_decide as Hsz.
    + unfold bplib_os_unlock, bplog. mrun. eexists _, _. split; [reflexivity|].
      cbn [w_fs w_io with_log w_env e_io]. rewrite HfsF.
      destruct (Hview T) as [Hv1 Hv2].
      split_and!; try done.
      * intros n Hn. change (file_of wf n = file_of w n). rewrite HfF. by apply Hoth3.
      * intros Hpos. change (file_of wf old = table_bytes t). rewrite HfF. by apply Hold3.
      * intros Hge. destruct (Hfull Hge) as [Hd _]. done.
    + eexists _, _. split; [reflexivity|]. rewrite HfsF.
      destruct (Hview T) as [Hv1 Hv2].
      split_and!; try done.
      * intros n Hn. rewrite HfF. by apply Hoth3.
      * intros Hpos. rewrite HfF. by apply Hold3.
      * intros Hge. destruct (Hfull Hge) as [_ HT]. done.
  - destruct (fopen_run new ModeRead w3) as (w4 & ofd & Hopen & Hfs4 & _ & Hio4 & _ & Hfail & _).
    destruct Hfail as (-> & Hd4 & _); [by right|].
    rewrite (bind_val _ _ _ _ _ Hopen). rewrite bind_put. cbv beta iota.
    eexists _, _. split; [reflexivity|]. cbn [w_fs w_io with_fs w_env e_io]. rewrite Hfs4.
    destruct (Hview zero_table) as [Hv1 Hv2].
    assert (∀ n, file_of w4 n = file_of w3 n) as Hf4 by (intros n; unfold file_of; by rewrite Hd4).
    split_and!; try done.
    * by rewrite Hio4, Hio3.
    * intros n Hn. change (file_of w4 n = file_of w n). rewrite Hf4. by apply Hoth3.
    * intros Hpos. change (file_of w4 old = table_bytes t). rewrite Hf4. by apply Hold3.
    * intros Hge. exfalso. rewrite <- (Hoth3 new Hno) in Hge. unfold file_of in Hge.
      rewrite Hc in Hge. simpl in Hge. unfold len in Hge. simpl in Hge. lia.
Qed.

(** "Delete Associated Files" touches the two files of the bucket only. *)
Lemma relinquish_delete_files lk fid w w' r :
  relinquish_delete lk fid w = (w', r) → w_io w = [] →
  let svc := i32 (service_id (w_fs w)) in
  w_io w' = [] ∧
  ∀ n, n ≠ tbl_name svc (root (w_fs w)) fid → n ≠ dat_name svc (root (w_fs w)) fid →
       file_of w' n = file_of w n.
Proof.
  intros H Hio svc. unfold relinquish_delete in H. rewrite !bind_get in H. fold svc in H.
  destruct (delete_tbl_file_run svc (root (w_fs w)) fid w)
    as (w1 & v1 & Ht & _ & Hio1 & _ & _ & Htok).
  rewrite (bind_val _ _ _ _ _ Ht) in H.
  destruct (delete_dat_file_run svc (root (w_fs w)) fid w1)
    as (w2 & v2 & Hd & _ & Hio2 & _ & Hdok & Hdf).
  rewrite (bind_val _ _ _ _ _ Hd) in H.
  rewrite Hio in Hio1, Htok. simpl in Hio1, Htok. rewrite Hio1 in Hio2, Hdok, Hdf.
  simpl in Hio2, Hdok, Hdf.
  destruct Htok as [_ Hd1]; [done|].
  assert (w_disk w2 = w_disk w1 ∨
          w_disk w2 = delete (dat_name svc (root (w_fs w)) fid) (w_disk w1)) as Hd2.
  { destruct (w_disk w1 !! dat_name svc (root (w_fs w)) fid) eqn:Hl.
    - right. apply Hdok. split; [done|by eauto].
    - left. apply Hdf. by right. }
  assert (w_io w' = w_io w2 ∧ w_disk w' = w_disk w2) as [Hio' Hd'].
  { destruct (negative v2).
    - unfold bplib_os_unlock, bplog in H. msimpl_in H. by injection H as <- _.
    - by injection H as <- _. }
  split; [congruence|]. intros n Hn1 Hn2. unfold file_of. rewrite Hd'.
  destruct Hd2 as [->| ->]; rewrite ?lookup_delete_ne by done; rewrite Hd1;
    by rewrite lookup_delete_ne.
Qed.

(** The table with slot [off] marked, if it was not. *)
Definition marked_table (off : Z) (t : free_table_t) : free_table_t :=
  if freed t !!! Z.to_nat off =? 0 then
    {| freed := <[Z.to_nat off := 1]> (freed t); free_cnt := i32 (free_cnt t + 1) |}
  else t.

Lemma relinquish_mark_effect lk fid off w w' r :
  relinquish_mark lk fid off w = (w', r) → w_io w = [] →
  let svc := i32 (service_id (w_fs w)) in
  w_io w' = [] ∧
  relinquish_table (w_fs w') = marked_table off (relinquish_table (w_fs w)) ∧
  but_relinquish (w_fs w') = but_relinquish (set_data_count (data_count (w_fs w')) (w_fs w)) ∧
  relinquish_fd (w_fs w') = relinquish_fd (w_fs w) ∧
  relinquish_data_id (w_fs w') = relinquish_data_id (w_fs w) ∧
  ∀ n, n ≠ tbl_name svc (root (w_fs w)) fid → n ≠ dat_name svc (root (w_fs w)) fid →
       file_of w' n = file_of w n.
Proof.
  intros H Hio svc. rewrite relinquish_mark_run in H. unfold marked_table.
  destruct (_ =? 0).
  - assert (w_fs w' = mark_slot off (w_fs w) ∧ w_io w' = [] ∧
            ∀ n, n ≠ tbl_name svc (root (w_fs w)) fid → n ≠ dat_name svc (root (w_fs w)) fid →
                 file_of w' n = file_of w n) as (Hfs & Hio' & Hf).
    { destruct (_ =? FILE_DATA_COUNT).
      - pose proof (relinquish_delete_fs _ _ _ _ _ H) as Hfs.
        apply relinquish_delete_files in H as [Hio' Hf]; [|exact Hio].
        split; [exact Hfs|]. split; [exact Hio'|]. exact Hf.
      - injection H as <- _. done. }
    rewrite Hfs. done.
  - injection H as <- _. by destruct (w_fs w).
Qed.

Lemma cleared_facts d w :
  w_io (cleared d w) = w_io w ∧ w_disk (cleared d w) = w_disk w ∧
  but_cache (w_fs (cleared d w)) = but_cache (w_fs w).
Proof.
  unfold cleared. destruct (mem_ptr _); [|done]. destruct (_ =? d); done.
Qed.

Lemma but_cache_fields fs fs' :
  but_cache fs' = but_cache fs →
  service_id fs' = service_id fs ∧ file_root fs' = file_root fs ∧
  relinquish_fd fs' = relinquish_fd fs ∧ relinquish_data_id fs' = relinquish_data_id fs ∧
  relinquish_table fs' = relinquish_table fs.
Proof.
  intros H.
  change (service_id (but_cache fs') = service_id (but_cache fs) ∧
          file_root (but_cache fs') = file_root (but_cache fs) ∧
          relinquish_fd (but_cache fs') = relinquish_fd (but_cache fs) ∧
          relinquish_data_id (but_cache fs') = relinquish_data_id (but_cache fs) ∧
          relinquish_table (but_cache fs') = relinquish_table (but_cache fs)).
  by rewrite H.
Qed.

Lemma but_relinquish_fields fs fs' :
  but_relinquish fs' = but_relinquish fs →
  service_id fs' = service_id fs ∧ file_root fs' = file_root fs.
Proof.
  intros H.
  change (service_id (but_relinquish fs') = service_id (but_relinquish fs) ∧
          file_root (but_relinquish fs') = file_root (but_relinquish fs)).
  by rewrite H.
Qed.

Lemma marked_table_length off t :
  length (freed (marked_table off t)) = length (freed t).
Proof. unfold marked_table. destruct (_ =? 0); [|done]. simpl. by rewrite length_insert. Qed.

(** A call of relinquish for a sid of another bucket than the one of the
    table in memory, when every stdio call does what it is asked. *)
Lemma relinquish_switch_call sid w :
  let fid := GET_FILEID (GET_DATAID sid) in
  let prev := GET_FILEID (GET_DATAID (relinquish_data_id (w_fs w))) in
  let t := relinquish_table (w_fs w) in
  let svc := i32 (service_id (w_fs w)) in
  let old := tbl_name svc (root (w_fs w)) prev in
  let new := tbl_name svc (root (w_fs w)) fid in
  let w' := (call (bplib_store_file_relinquish sid) w).1 in
  w_io w = [] → relinquish_fd (w_fs w) = None → fid ≠ prev →
  length (freed t) = 256%nat →
  w_io w' = [] ∧ relinquish_fd (w_fs w') = None ∧ relinquish_data_id (w_fs w') = u64 sid ∧
  service_id (w_fs w') = service_id (w_fs w) ∧ file_root (w_fs w') = file_root (w_fs w) ∧
  length (freed (relinquish_table (w_fs w'))) = 256%nat ∧
  (0 < free_cnt t → file_of w' old = table_bytes t) ∧
  (260 ≤ len (file_of w new) →
     relinquish_table (w_fs w') =
       marked_table (GET_DATAOFFSET (GET_DATAID sid)) (table_of_bytes (take 260 (file_of w new)))).
Proof.
  intros fid prev t svc old new w' Hio Hfd Hne Hlen.
  unfold w'. rewrite call_world.
  unfold bplib_store_file_relinquish, relinquish_prepare, bplib_os_lock. mrun.
  set (w0 := with_log (w_log w ++ [EvLock (lock (w_fs w))]) w).
  rewrite (bind_val _ _ _ _ _ (relinquish_clear_cache_run (GET_DATAID sid) w0)).
  destruct (cleared_facts (GET_DATAID sid) w0) as (Hioc & Hdc & Hfsc).
  set (wc := cleared (GET_DATAID sid) w0) in *. clearbody wc.
  change (w_fs w0) with (w_fs w) in *. change (w_io w0) with (w_io w) in Hioc.
  change (w_disk w0) with (w_disk w) in Hdc.
  destruct (but_cache_fields _ _ Hfsc) as (Hsvc & Hrt & Hfdc & Hidc & Htc).
  assert (root (w_fs wc) = root (w_fs w)) as Hrootc by (unfold root; by rewrite Hrt).
  fold fid prev.
  destruct (relinquish_load_table_run (lock (w_fs w)) sid fid prev wc)
    as (w1 & r1 & Hload & Hio1 & Hfs1 & Hfd1 & Hid1 & Hlen1 & Hoth1 & Hold1 & Hnew1).
  { congruence. } { congruence. } { exact Hne. } { rewrite Htc. exact Hlen. }
  rewrite Hsvc, Hrootc in Hold1, Hnew1, Hoth1. rewrite Htc in Hold1.
  fold t svc old new in Hold1, Hnew1, Hoth1.
  assert (∀ n, file_of wc n = file_of w n) as Hfc by (intros n; unfold file_of; by rewrite Hdc).
  rewrite Hfc in Hnew1.
  destruct (but_relinquish_fields _ _ Hfs1) as [Hsvc1 Hrt1].
  assert (new ≠ old) as Hno by (unfold new, old, tbl_name; congruence).
  destruct r1 as [[]|e1].
  - rewrite (bind_val _ _ _ _ _ Hload). mrun.
    match goal with |- context [(relinquish_mark ?a ?b ?c ≫= _) ?v] =>
      destruct (relinquish_mark a b c v) as [w2 r2] eqn:Hm end.
    pose proof (relinquish_mark_effect _ _ _ _ _ _ Hm Hio1)
      as (Hio2 & Ht2 & Hfs2 & Hfd2 & Hid2 & Hoth2).
    destruct (but_relinquish_fields _ _ Hfs2) as [Hsvc2 Hrt2]. simpl in Hsvc2, Hrt2.
    assert (w_io w2 = [] ∧ relinquish_fd (w_fs w2) = None ∧
            relinquish_data_id (w_fs w2) = u64 sid ∧
            service_id (w_fs w2) = service_id (w_fs w) ∧
            file_root (w_fs w2) = file_root (w_fs w) ∧
            length (freed (relinquish_table (w_fs w2))) = 256%nat ∧
            (0 < free_cnt t → file_of w2 old = table_bytes t) ∧
            (260 ≤ len (file_of w new) →
               relinquish_table (w_fs w2) =
                 marked_table (GET_DATAOFFSET (GET_DATAID sid))
                   (table_of_bytes (take 260 (file_of w new))))) as Hall.
    { split_and!; try congruence.
      - rewrite Ht2, marked_table_length. exact Hlen1.
      - intros Hpos. rewrite Hoth2; [by apply Hold1| |].
        + rewrite Hsvc1, Hsvc. unfold root. rewrite Hrt1, Hrt. fold (root (w_fs w)). fold svc.
          unfold old, tbl_name. congruence.
        + unfold old, tbl_name, dat_name. congruence.
      - intros Hge. destruct (Hnew1 Hge) as [_ Ht1]. by rewrite Ht2, Ht1. }
    destruct r2 as [[]|e2].
    + rewrite (bind_val _ _ _ _ _ Hm). unfold bplib_os_unlock. mrun. exact Hall.
    + rewrite (bind_ret _ _ _ _ _ Hm). exact Hall.
  - rewrite (bind_ret _ _ _ _ _ Hload). simpl.
    split_and!; try congruence; [exact Hold1|].
    intros Hge. by destruct (Hnew1 Hge).
Qed.

Lemma GET_DATAID_u64 sid : GET_DATAID (u64 sid) = GET_DATAID sid.
Proof. unfold GET_DATAID, u64. by rewrite Z.mod_mod. Qed.

(** X16: the table of a bucket outlives a visit to another bucket.  With
    every stdio call doing what it is asked, a relinquish for a sid of
    another bucket writes the table in memory, when it has a slot marked, to
    the table file of its bucket, and a relinquish for the first bucket
    afterwards reads it back: the table is then the one that the same call
    would have left without the visit. *)
Theorem relinquish_table_survives_bucket_switch (w : world) (sidA sidB : Z) :
  let A := GET_FILEID (GET_DATAID (relinquish_data_id (w_fs w))) in
  let t := relinquish_table (w_fs w) in
  let w1 := (call (bplib_store_file_relinquish sidB) w).1 in
  let w2 := (call (bplib_store_file_relinquish sidA) w1).1 in
  w_io w = [] → relinquish_fd (w_fs w) = None →
  GET_FILEID (GET_DATAID sidA) = A → GET_FILEID (GET_DATAID sidB) ≠ A →
  table_ok t → 0 < free_cnt t →
  file_of w1 (tbl_name (i32 (service_id (w_fs w))) (root (w_fs w)) A) = table_bytes t ∧
  relinquish_table (w_fs w2) =
    relinquish_table (w_fs (call (bplib_store_file_relinquish sidA) w).1).
Proof.
  intros A t w1 w2 Hio Hfd HA HB [Hlen Hcnt] Hpos.
  destruct (relinquish_switch_call sidB w Hio Hfd HB Hlen)
    as (Hio1 & Hfd1 & Hid1 & Hsvc1 & Hrt1 & Hlen1 & Hold1 & _).
  fold A t w1 in Hio1, Hfd1, Hid1, Hsvc1, Hrt1, Hlen1, Hold1.
  specialize (Hold1 Hpos).
  split; [exact Hold1|].
  assert (GET_FILEID (GET_DATAID sidA) ≠
          GET_FILEID (GET_DATAID (relinquish_data_id (w_fs w1)))) as HB'.
  { rewrite Hid1, GET_DATAID_u64, HA. congruence. }
  destruct (relinquish_switch_call sidA w1 Hio1 Hfd1 HB' Hlen1) as (_ & _ & _ & _ & _ & _ & _ & Hnew2).
  fold w2 in Hnew2. rewrite Hsvc1, HA in Hnew2. unfold root in Hnew2. rewrite Hrt1 in Hnew2.
  fold (root (w_fs w)) in Hnew2. rewrite Hold1 in Hnew2.
  assert (len (table_bytes t) = 260) as Htl by (by apply table_bytes_length).
  rewrite Hnew2 by lia. rewrite take_ge by (unfold len in Htl; lia).
  rewrite table_of_bytes_table_bytes.
  2: exact Hlen.
  2: { fold t in Hcnt. rewrite Hcnt. unfold marked. pose proof (marked_le (freed t)) as Hle.
       unfold len in *. rewrite Hlen in Hle. lia. }
  symmetry.
  destruct (relinquish_same_bucket sidA w HA) as (wd & _ & Hfsd & _ & Hiod & Hcall).
  rewrite Hcall.
  destruct (relinquish_mark _ _ _ wd) as [wm rm] eqn:Hm.
  apply relinquish_mark_effect in Hm as (_ & Htm & _); [|congruence].
  destruct (but_cache_fields _ _ Hfsd) as (_ & _ & _ & _ & Htd).
  rewrite Htd in Htm. fold t in Htm. by destruct rm.
Qed.

(** The first of two records relinquished. *)
Definition one_relinquished : world :=
  after [bplib_store_file_relinquish 1] two_enqueued.

Lemma relinquish_table_survives_bucket_switch_witness :
  let w := one_relinquished in
  let w1 := (call (bplib_store_file_relinquish 257) w).1 in
  let w2 := (call (bplib_store_file_relinquish 2) w1).1 in
  file_of w1 (tbl_name (i32 (service_id (w_fs w))) (root (w_fs w))
                (GET_FILEID (GET_DATAID (relinquish_data_id (w_fs w))))) =
    table_bytes (relinquish_table (w_fs w)) ∧
  relinquish_table (w_fs w2) =
    relinquish_table (w_fs (call (bplib_store_file_relinquish 2) w).1).
Proof.
  apply (relinquish_table_survives_bucket_switch one_relinquished 2 257).
  - by vm_compute.
  - by vm_compute.
  - by vm_compute.
  - by vm_compute.
  - split; by vm_compute.
  - by vm_compute.
Defined.

(** * v7_mpool.h: the block predicates *)

(** [bplib_mpool_blocktype_t], an [enum] and so an [int]. *)
Definition bplib_mpool_blocktype_undefined : Z := 0.
Definition bplib_mpool_blocktype_head : Z := 1.
Definition bplib_mpool_blocktype_ref : Z := 2.
Definition bplib_mpool_blocktype_cbor_data : Z := 3.
Definition bplib_mpool_blocktype_service_object : Z := 4.
Definition bplib_mpool_blocktype_primary : Z := 5.
Definition bplib_mpool_blocktype_canonical : Z := 6.
Definition bplib_mpool_blocktype_flow : Z := 7.
Definition bplib_mpool_blocktype_max : Z := 8.
Definition bplib_mpool_blocktype_secondary_link_base : Z := 1000.

(** [struct bplib_mpool_block]; the links are addresses of blocks. *)
Record bplib_mpool_block_t := {
  type : Z;
  next : positive;
  prev : positive;
}.

(** The predicates take the pointer [list] as the address [self] of the
    block together with the block found there. *)
Definition bplib_mpool_is_link_attached (self : positive) (list : bplib_mpool_block_t) : bool :=
  negb (bool_decide (next list = self)).

Definition bplib_mpool_is_link_unattached (self : positive) (list : bplib_mpool_block_t) : bool :=
  bool_decide (next list = self).

Definition bplib_mpool_is_list_head (list : bplib_mpool_block_t) : bool :=
  type list =? bplib_mpool_blocktype_head.

Definition bplib_mpool_is_empty_list_head (self : positive) (list : bplib_mpool_block_t) : bool :=
  bplib_mpool_is_list_head list && bplib_mpool_is_link_unattached self list.

Definition bplib_mpool_is_generic_data_block (cb : bplib_mpool_block_t) : bool :=
  (type cb =? bplib_mpool_blocktype_cbor_data) ||
  (type cb =? bplib_mpool_blocktype_service_object).

Definition bplib_mpool_is_indirect_block (cb : bplib_mpool_block_t) : bool :=
  type cb =? bplib_mpool_blocktype_ref.

Definition bplib_mpool_is_any_content_node (cb : bplib_mpool_block_t) : bool :=
  (bplib_mpool_blocktype_ref <? type cb) && (type cb <? bplib_mpool_blocktype_max).

(** The block types that the header groups as capable of a reference
    count. *)
Definition content_types : list Z :=
  [bplib_mpool_blocktype_cbor_data; bplib_mpool_blocktype_service_object;
   bplib_mpool_blocktype_primary; bplib_mpool_blocktype_canonical;
   bplib_mpool_blocktype_flow].

(** X17: the range check of [bplib_mpool_is_any_content_node] holds for
    exactly the five content block types.  So every generic data block is a
    content node, while a list head (empty or not), a reference, an undefined
    block and a secondary link are not, and no block is both a list head and
    a reference. *)
Theorem content_node_range_check_matches_block_types (self : positive) (cb : bplib_mpool_block_t) :
  (bplib_mpool_is_any_content_node cb = true ↔ type cb ∈ content_types) ∧
  (bplib_mpool_is_generic_data_block cb = true → bplib_mpool_is_any_content_node cb = true) ∧
  (bplib_mpool_is_list_head cb = true ∨ bplib_mpool_is_empty_list_head self cb = true ∨
   bplib_mpool_is_indirect_block cb = true ∨ type cb = bplib_mpool_blocktype_undefined ∨
   bplib_mpool_blocktype_secondary_link_base ≤ type cb →
     bplib_mpool_is_any_content_node cb = false) ∧
  (bplib_mpool_is_list_head cb && bplib_mpool_is_indirect_block cb = false).
Proof.
  unfold bplib_mpool_is_any_content_node, bplib_mpool_is_generic_data_block,
    bplib_mpool_is_empty_list_head, bplib_mpool_is_list_head, bplib_mpool_is_indirect_block,
    content_types, bplib_mpool_blocktype_undefined, bplib_mpool_blocktype_head,
    bplib_mpool_blocktype_ref, bplib_mpool_blocktype_cbor_data,
    bplib_mpool_blocktype_service_object, bplib_mpool_blocktype_primary,
    bplib_mpool_blocktype_canonical, bplib_mpool_blocktype_flow, bplib_mpool_blocktype_max,
    bplib_mpool_blocktype_secondary_link_base.
  set (t := type cb). split_and!.
  - rewrite andb_true_iff, Z.ltb_lt, Z.ltb_lt, !elem_of_cons, elem_of_nil. lia.
  - rewrite orb_true_iff, andb_true_iff, !Z.eqb_eq, !Z.ltb_lt. lia.
  - rewrite !andb_true_iff, andb_false_iff, !Z.eqb_eq, !Z.ltb_ge. lia.
  - rewrite andb_false_iff, !Z.eqb_neq. lia.
Qed.
